(** * Custom LLM endpoints: store, routes, model-reference parser and
      request dispatcher of the [sim] application.

    The development embeds the TypeScript sources
      - [apps/sim/providers/custom-anthropic/utils.ts] and
        [apps/sim/providers/custom-google/utils.ts]   (model-reference parsers),
      - [apps/sim/lib/custom-llm/endpoints.ts]        (credential store),
      - the workspace routes [custom-llm-endpoints] and
        [custom-llm-endpoints/{endpointId}]           (HTTP handlers),
      - the provider dispatcher                       (executeProviderRequest)
    as Rocq functions and proves the properties stated about them. *)

From Stdlib Require Import String Ascii List ZArith QArith Bool Lia.
Import ListNotations.

Local Open Scope string_scope.
Local Open Scope Z_scope.

(* ================================================================== *)
(** ** JavaScript primitives used by the sources                       *)
(* ================================================================== *)

(** Strings are sequences of code units; every character the sources
    inspect (the family prefixes, [:], [/], white space) is a single code
    unit, so [String.string] is used with one [ascii] per code unit. *)
Module JS.

(** The double-quote character as a string. *)
Definition quote : string := String (ascii_of_nat 34) EmptyString.

(** A line feed as a string. *)
Definition newline : string := String (ascii_of_nat 10) EmptyString.

(** [!!s] for a string: only the empty string is falsy. *)
Definition truthy (s : string) : bool :=
  match s with
  | EmptyString => false
  | String _ _ => true
  end.

(** [!!o] for an optional string ([undefined]/[null] are falsy). *)
Definition truthy_opt (o : option string) : bool :=
  match o with
  | Some s => truthy s
  | None => false
  end.

(** [a || b] on strings. *)
Definition or_else (a : option string) (b : string) : string :=
  match a with
  | Some s => if truthy s then s else b
  | None => b
  end.

Fixpoint startsWith (s p : string) {struct p} : bool :=
  match p, s with
  | EmptyString, _ => true
  | String c p', String d s' => if Ascii.eqb c d then startsWith s' p' else false
  | String _ _, EmptyString => false
  end.

Fixpoint drop (n : nat) (s : string) : string :=
  match n, s with
  | O, _ => s
  | S n', String _ s' => drop n' s'
  | S _, EmptyString => EmptyString
  end.

Fixpoint take (n : nat) (s : string) : string :=
  match n, s with
  | O, _ => EmptyString
  | S n', String c s' => String c (take n' s')
  | S _, EmptyString => EmptyString
  end.

(** [s.replace(/^p/, '')] for a pattern [p] made of literal characters:
    the anchored match is removed once, if it is there. *)
Definition replace_anchored (p s : string) : string :=
  if startsWith s p then drop (String.length p) s else s.

(** [s.indexOf(needle)] scanning from position [i]: the first position at
    which [needle] occurs, [-1] when there is none. *)
Fixpoint indexOf_from (needle s : string) (i : Z) : Z :=
  if startsWith s needle then i
  else match s with
       | EmptyString => -1
       | String _ s' => indexOf_from needle s' (i + 1)
       end.

Definition indexOf (s needle : string) : Z := indexOf_from needle s 0.

(** Index normalisation of [String.prototype.slice]: a negative index
    counts from the end, everything is clamped to [0 .. length]. *)
Definition clamp_index (len i : Z) : Z :=
  if i <? 0 then Z.max (len + i) 0 else Z.min i len.

(** [s.slice(start, end)]; [end = None] is the one-argument call. *)
Definition slice (s : string) (start : Z) (stop : option Z) : string :=
  let len := Z.of_nat (String.length s) in
  let from := clamp_index len start in
  let to := match stop with
            | None => len
            | Some e => clamp_index len e
            end in
  take (Z.to_nat (Z.max (to - from) 0)) (drop (Z.to_nat from) s).

(** White space removed by [String.prototype.trim] among 8-bit code
    units: TAB, LF, VT, FF, CR, SPACE and NBSP. *)
Definition is_space (c : ascii) : bool :=
  let n := nat_of_ascii c in
  ((9 <=? n)%nat && (n <=? 13)%nat) || (n =? 32)%nat || (n =? 160)%nat.

Fixpoint trimStart (s : string) : string :=
  match s with
  | EmptyString => EmptyString
  | String c s' => if is_space c then trimStart s' else s
  end.

Fixpoint trimEnd (s : string) : string :=
  match s with
  | EmptyString => EmptyString
  | String c s' =>
      match trimEnd s' with
      | EmptyString => if is_space c then EmptyString else String c EmptyString
      | t => String c t
      end
  end.

Definition trim (s : string) : string := trimEnd (trimStart s).

End JS.

(* ================================================================== *)
(** ** Model-identifier parsers                                        *)
(* ================================================================== *)

Module Parser.

Record ParsedModel : Type := mkParsed {
  endpointName : string;
  modelName : string
  }.

(** The body shared by the family parsers; [pat] is the literal text of
    the anchored pattern, [custom-anthropic:] or [custom-google:]. *)
Definition parseWith (pat : string) (model : string) : ParsedModel :=
  let withoutPrefix := JS.replace_anchored pat model in
  let slashIndex := JS.indexOf withoutPrefix "/" in
  if slashIndex =? -1 then
    {| endpointName := EmptyString; modelName := withoutPrefix |}
  else
    {| endpointName := JS.slice withoutPrefix 0 (Some slashIndex);
       modelName := JS.slice withoutPrefix (slashIndex + 1) None |}.

(** [providers/custom-anthropic/utils.ts] *)
Definition parseCustomAnthropicModel (model : string) : ParsedModel :=
  parseWith "custom-anthropic:" model.

(** [providers/custom-google/utils.ts] *)
Definition parseCustomGoogleModel (model : string) : ParsedModel :=
  parseWith "custom-google:" model.

(** Modelled from the spec: [parseCustomOpenAIModel] of
    [providers/custom-openai] is imported by the dispatcher but its file
    is not part of the reviewed sources.  The specification gives one
    contract for all three family prefixes (strip the prefix if present,
    split on the first [/]), so it is the same body with the
    [custom-openai:] pattern. *)
Definition parseCustomOpenAIModel (model : string) : ParsedModel :=
  parseWith "custom-openai:" model.

(** The closed set of custom provider families. *)
Inductive Family : Type := CustomOpenAI | CustomAnthropic | CustomGoogle.

Definition familyPrefix (f : Family) : string :=
  match f with
  | CustomOpenAI => "custom-openai"
  | CustomAnthropic => "custom-anthropic"
  | CustomGoogle => "custom-google"
  end.

Definition parse (f : Family) : string -> ParsedModel :=
  match f with
  | CustomOpenAI => parseCustomOpenAIModel
  | CustomAnthropic => parseCustomAnthropicModel
  | CustomGoogle => parseCustomGoogleModel
  end.

(** A string without the separator [/]. *)
Fixpoint noSlash (s : string) : bool :=
  match s with
  | EmptyString => true
  | String c s' => if Ascii.eqb c "/" then false else noSlash s'
  end.

End Parser.

(* ================================================================== *)
(** ** Data model                                                      *)
(* ================================================================== *)

(** Timestamps ([Date]) and token counts are integers, money amounts are
    rationals. *)
Definition Date := Z.

Inductive CustomLlmApiType : Type := openai | anthropic | google.

(** [Record<string, string>]: the entries in key order. *)
Definition Headers := list (string * string).

Definition Object_keys (h : Headers) : list string := map fst h.

(** [x || 'openai'] on an api type read from the table. *)
Definition apiTypeOrDefault (a : option CustomLlmApiType) : CustomLlmApiType :=
  match a with
  | Some t => t
  | None => openai
  end.

(** A row of the table [custom_llm_endpoints]. *)
Module Row.
Record t : Type := mk {
  id : string;
  workspaceId : string;
  name : string;
  baseUrl : string;
  apiType : option CustomLlmApiType;
  encryptedApiKey : option string;
  encryptedHeaders : option string;
  createdBy : option string;
  createdAt : Date;
  updatedAt : Date
  }.
End Row.

(** [interface CustomLlmEndpoint]: the view without secrets. *)
Module CustomLlmEndpoint.
Record t : Type := mk {
  id : string;
  workspaceId : string;
  name : string;
  baseUrl : string;
  apiType : CustomLlmApiType;
  hasApiKey : bool;
  headerNames : list string;
  createdBy : option string;
  createdAt : Date;
  updatedAt : Date
  }.
End CustomLlmEndpoint.

(** [interface CustomLlmEndpointWithCredentials]: the resolved view. *)
Module CustomLlmEndpointWithCredentials.
Record t : Type := mk {
  id : string;
  workspaceId : string;
  name : string;
  baseUrl : string;
  apiType : CustomLlmApiType;
  apiKey : option string;
  headers : option Headers;
  createdBy : option string;
  createdAt : Date;
  updatedAt : Date
  }.
End CustomLlmEndpointWithCredentials.

(** [interface CreateCustomEndpointParams]; an optional field that is
    left out is [None]. *)
Module CreateCustomEndpointParams.
Record t : Type := mk {
  id : string;
  workspaceId : string;
  name : string;
  baseUrl : string;
  apiType : option CustomLlmApiType;
  apiKey : option string;
  headers : option Headers;
  createdBy : string
  }.
End CreateCustomEndpointParams.

(** A field of an update that may be left out ([undefined]), be [null],
    or carry a value. *)
Inductive Patch (A : Type) : Type :=
  | Omitted
  | Null
  | Value (a : A).
Arguments Omitted {A}.
Arguments Null {A}.
Arguments Value {A} a.

(** [interface UpdateCustomEndpointParams] *)
Module UpdateCustomEndpointParams.
Record t : Type := mk {
  name : option string;
  baseUrl : option string;
  apiKey : Patch string;
  headers : Patch Headers
  }.
End UpdateCustomEndpointParams.

(** The [responseFormat] of a provider request: a string or a schema
    object (kept as its name and serialized schema). *)
Inductive ResponseFormat : Type :=
  | FormatString (s : string)
  | FormatSchema (schemaName schema : string).

(** [ProviderRequest]: the fields the dispatcher reads or writes; [rest]
    stands for the fields it only carries along (messages, tools, ...). *)
Module ProviderRequest.
Record t : Type := mk {
  model : string;
  systemPrompt : option string;
  context : option string;
  apiKey : option string;
  workspaceId : option string;
  temperature : option Q;
  responseFormat : option ResponseFormat;
  isBYOK : option bool;
  customOpenaiBaseUrl : option string;
  customOpenaiEndpointName : option string;
  customOpenaiHeaders : option Headers;
  customAnthropicBaseUrl : option string;
  customAnthropicEndpointName : option string;
  customAnthropicHeaders : option Headers;
  customGoogleBaseUrl : option string;
  customGoogleEndpointName : option string;
  customGoogleHeaders : option Headers;
  rest : string
  }.
End ProviderRequest.

Module Cost.
Record t : Type := mk {
  input : Q;
  output : Q;
  total : Q;
  pricingInput : Q;
  pricingOutput : Q;
  pricingUpdatedAt : string
  }.
End Cost.

Module Tokens.
Record t : Type := mk {
  input : option Z;
  output : option Z
  }.
End Tokens.

(** [ProviderResponse]: [content] stands for everything but the model,
    the token usage and the cost. *)
Module ProviderResponse.
Record t : Type := mk {
  content : string;
  model : string;
  tokens : option Tokens.t;
  cost : option Cost.t
  }.
End ProviderResponse.

(** What a provider executor resolves to. *)
Inductive Execution : Type :=
  | StreamingExecution (handle : string)
  | ReadableStream (handle : string)
  | Response (r : ProviderResponse.t).

(* ================================================================== *)
(** ** Effects: exceptions, the relational store, logs, outbound calls *)
(* ================================================================== *)

(** Thrown values: a JavaScript [Error] with its message, or a
    [ZodError] with the message of its first issue. *)
Inductive Exn : Type :=
  | Error (message : string)
  | ZodError (firstMessage : string).

Definition exnMessage (e : Exn) : string :=
  match e with
  | Error m => m
  | ZodError m => m
  end.

Inductive Result (A : Type) : Type :=
  | Ok (a : A)
  | Throw (e : Exn).
Arguments Ok {A} a.
Arguments Throw {A} e.

Inductive Level : Type := LInfo | LWarn | LError | LDebug.

Record LogEntry : Type := mkLog { level : Level; text : string }.

(** What a call can observe and change: the table, the logger output,
    the number of clock readings and of encryptions made so far (both
    services may answer differently each time), and the requests handed
    to provider executors. *)
Record World : Type := mkWorld {
  rows : list Row.t;
  logs : list LogEntry;
  ticks : nat;
  seeds : nat;
  calls : list ProviderRequest.t
}.

(** Computations that may throw; effects done before a throw remain. *)
Definition M (A : Type) : Type := World -> Result A * World.

Definition ret {A} (a : A) : M A := fun w => (Ok a, w).

Definition throw {A} (e : Exn) : M A := fun w => (Throw e, w).

Definition bind {A B} (m : M A) (k : A -> M B) : M B :=
  fun w =>
    match m w with
    | (Ok a, w') => k a w'
    | (Throw e, w') => (Throw e, w')
    end.

(** [try { m } catch (e) { h e }] *)
Definition tryCatch {A} (m : M A) (h : Exn -> M A) : M A :=
  fun w =>
    match m w with
    | (Ok a, w') => (Ok a, w')
    | (Throw e, w') => h e w'
    end.

Definition lift {A} (r : Result A) : M A := fun w => (r, w).

Definition log (l : Level) (t : string) : M unit :=
  fun w => (Ok tt, mkWorld (rows w) (logs w ++ [mkLog l t]) (ticks w) (seeds w) (calls w)).

Definition getRows : M (list Row.t) := fun w => (Ok (rows w), w).

Definition putRows (rs : list Row.t) : M unit :=
  fun w => (Ok tt, mkWorld rs (logs w) (ticks w) (seeds w) (calls w)).

Definition nextTick : M nat :=
  fun w => (Ok (ticks w), mkWorld (rows w) (logs w) (S (ticks w)) (seeds w) (calls w)).

Definition nextSeed : M nat :=
  fun w => (Ok (seeds w), mkWorld (rows w) (logs w) (ticks w) (S (seeds w)) (calls w)).

Definition recordCall (r : ProviderRequest.t) : M unit :=
  fun w => (Ok tt, mkWorld (rows w) (logs w) (ticks w) (seeds w) (calls w ++ [r])).

(** The pattern of every store function:
    [try { ... } catch (error) { logger.error(msg, ...); throw error }]. *)
Definition logAndRethrow {A} (msg : string) (m : M A) : M A :=
  tryCatch m (fun e => bind (log LError msg) (fun _ => throw e)).

Declare Scope js_scope.
Delimit Scope js_scope with js.
Notation "x <- m ;; k" := (bind m (fun x => k))
  (at level 61, m at next level, right associativity) : js_scope.
Notation "m ;;; k" := (bind m (fun _ => k))
  (at level 61, right associativity) : js_scope.

(** The services the store consumes as opaque collaborators. *)
Record Services : Type := mkServices {
  (** [encryptSecret]; the first argument numbers the call, so that two
      encryptions of one plaintext may differ. *)
  encryptSecret : nat -> string -> Result string;
  decryptSecret : string -> Result string;
  JSON_stringify : Headers -> string;
  JSON_parse : string -> Result Headers;
  (** [new Date()] at the n-th reading of the clock. *)
  clock : nat -> Date
}.

Definition newDate (sv : Services) : M Date :=
  bind nextTick (fun n => ret (clock sv n)).

Definition encrypt (sv : Services) (plain : string) : M string :=
  bind nextSeed (fun n => lift (encryptSecret sv n plain)).

Definition decrypt (sv : Services) (cipher : string) : M string :=
  lift (decryptSecret sv cipher).

Definition parseJson (sv : Services) (text : string) : M Headers :=
  lift (JSON_parse sv text).

(* ================================================================== *)
(** ** The relational store                                            *)
(* ================================================================== *)

(** The table has [id] as primary key and a unique index on
    [(workspace_id, name)]; a statement that would break either is
    refused with an error and changes nothing.

    The model covers the runs in which the database answers its
    statements.  A connection or query fault, which every store function
    logs and re-raises, is not part of it; neither are the tables
    [workspace] and [user] that the foreign keys of the table refer to,
    so that an insert is checked against the two keys above only.  What is
    proved of a store function that returns is proved of those runs. *)

Local Open Scope js_scope.

Definition sameId (a b : Row.t) : bool := (Row.id a =? Row.id b)%string.

Definition sameWorkspaceName (a b : Row.t) : bool :=
  (Row.workspaceId a =? Row.workspaceId b)%string && (Row.name a =? Row.name b)%string.

Fixpoint uniqueBy {A : Type} (same : A -> A -> bool) (l : list A) : bool :=
  match l with
  | [] => true
  | x :: l' => negb (existsb (same x) l') && uniqueBy same l'
  end.

Definition constraintsHold (rs : list Row.t) : bool :=
  uniqueBy sameId rs && uniqueBy sameWorkspaceName rs.

Definition uniqueViolation : Exn :=
  Error "duplicate key value violates unique constraint".

(** [db.select().from(customLlmEndpoints).where(p)] *)
Definition dbSelect (p : Row.t -> bool) : M (list Row.t) :=
  rs <- getRows ;; ret (filter p rs).

(** [.limit(1)] *)
Definition limit1 {A : Type} (l : list A) : list A := firstn 1 l.

(** [db.insert(customLlmEndpoints).values(r).returning()] *)
Definition dbInsert (r : Row.t) : M (list Row.t) :=
  rs <- getRows ;;
  if constraintsHold (rs ++ [r])
  then putRows (rs ++ [r]) ;;; ret [r]
  else throw uniqueViolation.

(** The object [updates] built by [updateCustomEndpoint]: [updatedAt] is
    always there, each other key only when it was assigned. *)
Record Updates : Type := mkUpdates {
  set_updatedAt : Date;
  set_name : option string;
  set_baseUrl : option string;
  set_encryptedApiKey : option (option string);
  set_encryptedHeaders : option (option string)
}.

Definition orKeep {A : Type} (assigned : option A) (old : A) : A :=
  match assigned with
  | Some v => v
  | None => old
  end.

Definition applyUpdates (u : Updates) (r : Row.t) : Row.t :=
  Row.mk (Row.id r) (Row.workspaceId r)
    (orKeep (set_name u) (Row.name r))
    (orKeep (set_baseUrl u) (Row.baseUrl r))
    (Row.apiType r)
    (orKeep (set_encryptedApiKey u) (Row.encryptedApiKey r))
    (orKeep (set_encryptedHeaders u) (Row.encryptedHeaders r))
    (Row.createdBy r) (Row.createdAt r) (set_updatedAt u).

(** [db.update(customLlmEndpoints).set(u).where(eq(id, i)).returning()] *)
Definition dbUpdate (i : string) (u : Updates) : M (list Row.t) :=
  rs <- getRows ;;
  let rs' := map (fun r => if (Row.id r =? i)%string then applyUpdates u r else r) rs in
  if constraintsHold rs'
  then putRows rs' ;;; ret (filter (fun r => (Row.id r =? i)%string) rs')
  else throw uniqueViolation.

(** [db.delete(customLlmEndpoints).where(eq(id, i))] *)
Definition dbDelete (i : string) : M unit :=
  rs <- getRows ;; putRows (filter (fun r => negb (Row.id r =? i)%string) rs).

(* ================================================================== *)
(** ** Credential store: [lib/custom-llm/endpoints.ts]                 *)
(* ================================================================== *)

Section Store.
Variable sv : Services.

(** The guarded decryption of the key used by both resolvers:
  [if (enc) { try { apiKey = decrypt(enc) } catch { logger.error } }]. *)
Definition decryptApiKey (enc : option string) : M (option string) :=
  match enc with
  | Some c =>
      if JS.truthy c
      then tryCatch (decrypted <- decrypt sv c ;; ret (Some decrypted))
             (fun _ => log LError "Failed to decrypt API key for endpoint" ;;; ret None)
      else ret None
  | None => ret None
  end.

(** The guarded decryption of the header blob used by both resolvers. *)
Definition decryptHeaders (enc : option string) : M (option Headers) :=
  match enc with
  | Some c =>
      if JS.truthy c
      then tryCatch (decrypted <- decrypt sv c ;;
                     h <- parseJson sv decrypted ;;
                     ret (Some h))
             (fun _ => log LError "Failed to decrypt headers for endpoint" ;;; ret None)
      else ret None
  | None => ret None
  end.

Definition withCredentials (endpoint : Row.t) (apiKey : option string)
    (headers : option Headers) : CustomLlmEndpointWithCredentials.t :=
  CustomLlmEndpointWithCredentials.mk
    (Row.id endpoint) (Row.workspaceId endpoint) (Row.name endpoint)
    (Row.baseUrl endpoint) (apiTypeOrDefault (Row.apiType endpoint))
    apiKey headers
    (Row.createdBy endpoint) (Row.createdAt endpoint) (Row.updatedAt endpoint).

Definition resolveRow (result : list Row.t)
    : M (option CustomLlmEndpointWithCredentials.t) :=
  match result with
  | [] => ret None
  | endpoint :: _ =>
      apiKey <- decryptApiKey (Row.encryptedApiKey endpoint) ;;
      headers <- decryptHeaders (Row.encryptedHeaders endpoint) ;;
      ret (Some (withCredentials endpoint apiKey headers))
  end.

Definition getCustomEndpointByName (workspaceId endpointName : string)
    : M (option CustomLlmEndpointWithCredentials.t) :=
  logAndRethrow "Failed to get custom endpoint by name"
    (result <- dbSelect (fun r => (Row.workspaceId r =? workspaceId)%string
                                  && (Row.name r =? endpointName)%string) ;;
     resolveRow (limit1 result)).

Definition getCustomEndpointById (endpointId : string)
    : M (option CustomLlmEndpointWithCredentials.t) :=
  logAndRethrow "Failed to get custom endpoint by ID"
    (result <- dbSelect (fun r => (Row.id r =? endpointId)%string) ;;
     resolveRow (limit1 result)).

Definition typeError : Exn :=
  Error "Cannot read properties of undefined".

Definition createCustomEndpoint (params : CreateCustomEndpointParams.t)
    : M CustomLlmEndpoint.t :=
  logAndRethrow "Failed to create custom endpoint"
    (encryptedApiKey <-
       (match CreateCustomEndpointParams.apiKey params with
        | Some k => if JS.truthy k
                    then encrypted <- encrypt sv k ;; ret (Some encrypted)
                    else ret None
        | None => ret None
        end) ;;
     secret <-
       (match CreateCustomEndpointParams.headers params with
        | Some h => if (0 <? Z.of_nat (List.length (Object_keys h)))
                    then encrypted <- encrypt sv (JSON_stringify sv h) ;;
                         ret (Some encrypted, Object_keys h)
                    else ret (None, [])
        | None => ret (None, [])
        end) ;;
     let encryptedHeaders := fst secret in
     let headerNames := snd secret in
     created <- newDate sv ;;
     updated <- newDate sv ;;
     inserted <- dbInsert
       (Row.mk (CreateCustomEndpointParams.id params)
          (CreateCustomEndpointParams.workspaceId params)
          (CreateCustomEndpointParams.name params)
          (CreateCustomEndpointParams.baseUrl params)
          (Some (apiTypeOrDefault (CreateCustomEndpointParams.apiType params)))
          encryptedApiKey encryptedHeaders
          (Some (CreateCustomEndpointParams.createdBy params))
          created updated) ;;
     match inserted with
     | [] => throw typeError
     | newEndpoint :: _ =>
         log LInfo "Created custom LLM endpoint" ;;;
         ret (CustomLlmEndpoint.mk
                (Row.id newEndpoint) (Row.workspaceId newEndpoint)
                (Row.name newEndpoint) (Row.baseUrl newEndpoint)
                (apiTypeOrDefault (Row.apiType newEndpoint))
                (JS.truthy_opt encryptedApiKey) headerNames
                (Row.createdBy newEndpoint) (Row.createdAt newEndpoint)
                (Row.updatedAt newEndpoint))
     end).

(** The header names of an updated row when the update did not carry
  headers: read back from the stored blob, [[]] when that fails. *)
Definition recoverHeaderNames (headerNames : option (list string))
    (stored : option string) : M (option (list string)) :=
  match headerNames, stored with
  | None, Some c =>
      if JS.truthy c
      then tryCatch (decrypted <- decrypt sv c ;;
                     h <- parseJson sv decrypted ;;
                     ret (Some (Object_keys h)))
             (fun _ => log LError "Failed to decrypt headers for updated endpoint" ;;;
                       ret (Some []))
      else ret headerNames
  | _, _ => ret headerNames
  end.

Definition updateCustomEndpoint (endpointId : string)
    (params : UpdateCustomEndpointParams.t) : M CustomLlmEndpoint.t :=
  logAndRethrow "Failed to update custom endpoint"
    (now <- newDate sv ;;
     newKey <-
       (match UpdateCustomEndpointParams.apiKey params with
        | Omitted => ret None
        | Null => ret (Some None)
        | Value k => encrypted <- encrypt sv k ;; ret (Some (Some encrypted))
        end) ;;
     newHeaders <-
       (match UpdateCustomEndpointParams.headers params with
        | Omitted => ret (None, None)
        | Null => ret (Some None, Some [])
        | Value h =>
            if (0 <? Z.of_nat (List.length (Object_keys h)))
            then encrypted <- encrypt sv (JSON_stringify sv h) ;;
                 ret (Some (Some encrypted), Some (Object_keys h))
            else ret (Some None, Some [])
        end) ;;
     let updates :=
       mkUpdates now
         (UpdateCustomEndpointParams.name params)
         (UpdateCustomEndpointParams.baseUrl params)
         newKey (fst newHeaders) in
     returned <- dbUpdate endpointId updates ;;
     match returned with
     | [] => throw (Error ("Endpoint with ID " ++ endpointId ++ " not found"))
     | updatedEndpoint :: _ =>
         headerNames <- recoverHeaderNames (snd newHeaders)
                          (Row.encryptedHeaders updatedEndpoint) ;;
         log LInfo "Updated custom LLM endpoint" ;;;
         ret (CustomLlmEndpoint.mk
                (Row.id updatedEndpoint) (Row.workspaceId updatedEndpoint)
                (Row.name updatedEndpoint) (Row.baseUrl updatedEndpoint)
                (apiTypeOrDefault (Row.apiType updatedEndpoint))
                (JS.truthy_opt (Row.encryptedApiKey updatedEndpoint))
                (orKeep headerNames [])
                (Row.createdBy updatedEndpoint) (Row.createdAt updatedEndpoint)
                (Row.updatedAt updatedEndpoint))
     end).

Definition deleteCustomEndpoint (endpointId : string) : M unit :=
  logAndRethrow "Failed to delete custom endpoint"
    (dbDelete endpointId ;;; log LInfo "Deleted custom LLM endpoint").

Definition isEndpointNameAvailable (workspaceId name : string)
    (excludeId : option string) : M bool :=
  logAndRethrow "Failed to check endpoint name availability"
    (result <- dbSelect (fun r => (Row.workspaceId r =? workspaceId)%string
                                  && (Row.name r =? name)%string) ;;
     match limit1 result with
     | [] => ret true
     | first :: _ =>
         if JS.truthy_opt excludeId
            && (match excludeId with
                | Some x => (Row.id first =? x)%string
                | None => false
                end)
         then ret true
         else ret false
     end).

End Store.

(* ================================================================== *)
(** ** Per-endpoint routes: [custom-llm-endpoints/{endpointId}]        *)
(* ================================================================== *)

Inductive Permission : Type := admin | write | read.

(** JSON bodies the handlers answer with. *)
Inductive Body : Type :=
  | ErrorBody (error : string)
  | EndpointBody (endpoint : CustomLlmEndpoint.t)
  | SuccessEndpointBody (endpoint : CustomLlmEndpoint.t)
  | SuccessBody.

Record HttpResponse : Type := mkResponse { status : Z; body : Body }.

(** [NextResponse.json(b, { status })] and its default status. *)
Definition json (b : Body) (st : Z) : M HttpResponse := ret (mkResponse st b).

Definition jsonOk (b : Body) : M HttpResponse := json b 200.

(** What a handler takes from its surroundings: the session's user id,
    the permission lookup, and the body read with [request.json()] and
    checked with [UpdateEndpointSchema.parse] (a [ZodError] when the
    schema refuses it). *)
Record RouteContext : Type := mkRouteContext {
  getSession : option string;
  getUserEntityPermissions : string -> string -> option Permission;
  parseBody : Result UpdateCustomEndpointParams.t
}.

Definition isAdmin (p : option Permission) : bool :=
  match p with
  | Some admin => true
  | _ => false
  end.

Section Routes.
Variable sv : Services.
Variable ctx : RouteContext.

Definition GET (workspaceId endpointId : string) : M HttpResponse :=
  tryCatch
    (match getSession ctx with
     | None =>
         log LWarn "Unauthorized custom LLM endpoint access attempt" ;;;
         json (ErrorBody "Unauthorized") 401
     | Some userId =>
       if negb (JS.truthy userId)
       then log LWarn "Unauthorized custom LLM endpoint access attempt" ;;;
            json (ErrorBody "Unauthorized") 401
       else
         match getUserEntityPermissions ctx userId workspaceId with
         | None => json (ErrorBody "Unauthorized") 401
         | Some _ =>
             found <- getCustomEndpointById sv endpointId ;;
             match found with
             | None => json (ErrorBody "Endpoint not found") 404
             | Some endpoint =>
                 if negb (CustomLlmEndpointWithCredentials.workspaceId endpoint
                          =? workspaceId)%string
                 then json (ErrorBody "Endpoint not found") 404
                 else
                   jsonOk (EndpointBody
                     (CustomLlmEndpoint.mk
                        (CustomLlmEndpointWithCredentials.id endpoint)
                        (CustomLlmEndpointWithCredentials.workspaceId endpoint)
                        (CustomLlmEndpointWithCredentials.name endpoint)
                        (CustomLlmEndpointWithCredentials.baseUrl endpoint)
                        (CustomLlmEndpointWithCredentials.apiType endpoint)
                        (JS.truthy_opt (CustomLlmEndpointWithCredentials.apiKey endpoint))
                        (match CustomLlmEndpointWithCredentials.headers endpoint with
                         | Some h => Object_keys h
                         | None => []
                         end)
                        (CustomLlmEndpointWithCredentials.createdBy endpoint)
                        (CustomLlmEndpointWithCredentials.createdAt endpoint)
                        (CustomLlmEndpointWithCredentials.updatedAt endpoint)))
             end
         end
     end)
    (fun e =>
       log LError "Custom LLM endpoint GET error" ;;;
       json (ErrorBody (exnMessage e)) 500).

Definition adminOnly : M HttpResponse :=
  json (ErrorBody "Only workspace admins can manage custom LLM endpoints") 403.

Definition nameTaken (name : string) : M HttpResponse :=
  json (ErrorBody ("An endpoint with the name " ++ JS.quote ++ name ++ JS.quote
                   ++ " already exists in this workspace")) 409.

Definition PATCH (workspaceId endpointId : string) : M HttpResponse :=
  tryCatch
    (match getSession ctx with
     | None =>
         log LWarn "Unauthorized custom LLM endpoint update attempt" ;;;
         json (ErrorBody "Unauthorized") 401
     | Some userId =>
       if negb (JS.truthy userId)
       then log LWarn "Unauthorized custom LLM endpoint update attempt" ;;;
            json (ErrorBody "Unauthorized") 401
       else if negb (isAdmin (getUserEntityPermissions ctx userId workspaceId))
       then adminOnly
       else
         existing <- getCustomEndpointById sv endpointId ;;
         match existing with
         | None => json (ErrorBody "Endpoint not found") 404
         | Some existingEndpoint =>
           if negb (CustomLlmEndpointWithCredentials.workspaceId existingEndpoint
                    =? workspaceId)%string
           then json (ErrorBody "Endpoint not found") 404
           else
             parsed <- lift (parseBody ctx) ;;
             let name := UpdateCustomEndpointParams.name parsed in
             available <-
               (match name with
                | Some n =>
                    if JS.truthy n
                       && negb (n =? CustomLlmEndpointWithCredentials.name existingEndpoint)%string
                    then isEndpointNameAvailable workspaceId n (Some endpointId)
                    else ret true
                | None => ret true
                end) ;;
             if negb available
             then nameTaken (match name with Some n => n | None => EmptyString end)
             else
               endpoint <- updateCustomEndpoint sv endpointId
                             (UpdateCustomEndpointParams.mk name
                                (UpdateCustomEndpointParams.baseUrl parsed)
                                (UpdateCustomEndpointParams.apiKey parsed)
                                (UpdateCustomEndpointParams.headers parsed)) ;;
               log LInfo "Updated custom LLM endpoint" ;;;
               jsonOk (SuccessEndpointBody endpoint)
         end
     end)
    (fun e =>
       log LError "Custom LLM endpoint PATCH error" ;;;
       match e with
       | ZodError m => json (ErrorBody m) 400
       | Error m => json (ErrorBody m) 500
       end).

Definition DELETE (workspaceId endpointId : string) : M HttpResponse :=
  tryCatch
    (match getSession ctx with
     | None =>
         log LWarn "Unauthorized custom LLM endpoint deletion attempt" ;;;
         json (ErrorBody "Unauthorized") 401
     | Some userId =>
       if negb (JS.truthy userId)
       then log LWarn "Unauthorized custom LLM endpoint deletion attempt" ;;;
            json (ErrorBody "Unauthorized") 401
       else if negb (isAdmin (getUserEntityPermissions ctx userId workspaceId))
       then adminOnly
       else
         existing <- getCustomEndpointById sv endpointId ;;
         match existing with
         | None => json (ErrorBody "Endpoint not found") 404
         | Some existingEndpoint =>
           if negb (CustomLlmEndpointWithCredentials.workspaceId existingEndpoint
                    =? workspaceId)%string
           then json (ErrorBody "Endpoint not found") 404
           else
             deleteCustomEndpoint endpointId ;;;
             log LInfo "Deleted custom LLM endpoint" ;;;
             jsonOk SuccessBody
         end
     end)
    (fun e =>
       log LError "Custom LLM endpoint DELETE error" ;;;
       json (ErrorBody (exnMessage e)) 500).

End Routes.

(* ================================================================== *)
(** ** Request dispatcher: [executeProviderRequest]                    *)
(* ================================================================== *)

(** A registered provider; [executeRequest] may be missing. *)
Record ProviderConfig : Type := mkProvider {
  executeRequest : option (ProviderRequest.t -> Result Execution)
}.

(** The collaborators of the dispatcher that lie outside the slice: the
    provider registry, the billing utilities and the bring-your-own-key
    lookup. *)
Record Collaborators : Type := mkCollaborators {
  getProviderExecutor : string -> option ProviderConfig;
  supportsTemperature : string -> bool;
  getApiKeyWithBYOK :
    string -> string -> string -> option string -> Result (string * bool);
  generateStructuredOutputInstructions : ResponseFormat -> string;
  shouldBillModelUsage : string -> bool;
  getCostMultiplier : Q;
  calculateCost : string -> Z -> Z -> bool -> Q -> Q -> Cost.t;
  toISOString : Date -> string
}.

Definition withTemperature (r : ProviderRequest.t) (v : option Q) : ProviderRequest.t :=
  let 'ProviderRequest.mk m sp cx ak ws _ rf byok ob onm oh ab an ah gb gn gh rs := r in
  ProviderRequest.mk m sp cx ak ws v rf byok ob onm oh ab an ah gb gn gh rs.

Definition withApiKey (r : ProviderRequest.t) (v : option string) : ProviderRequest.t :=
  let 'ProviderRequest.mk m sp cx _ ws t rf byok ob onm oh ab an ah gb gn gh rs := r in
  ProviderRequest.mk m sp cx v ws t rf byok ob onm oh ab an ah gb gn gh rs.

Definition withIsBYOK (r : ProviderRequest.t) (v : option bool) : ProviderRequest.t :=
  let 'ProviderRequest.mk m sp cx ak ws t rf _ ob onm oh ab an ah gb gn gh rs := r in
  ProviderRequest.mk m sp cx ak ws t rf v ob onm oh ab an ah gb gn gh rs.

Definition withResponseFormat (r : ProviderRequest.t) (v : option ResponseFormat)
    : ProviderRequest.t :=
  let 'ProviderRequest.mk m sp cx ak ws t _ byok ob onm oh ab an ah gb gn gh rs := r in
  ProviderRequest.mk m sp cx ak ws t v byok ob onm oh ab an ah gb gn gh rs.

Definition withSystemPrompt (r : ProviderRequest.t) (v : option string) : ProviderRequest.t :=
  let 'ProviderRequest.mk m _ cx ak ws t rf byok ob onm oh ab an ah gb gn gh rs := r in
  ProviderRequest.mk m v cx ak ws t rf byok ob onm oh ab an ah gb gn gh rs.

(** The spread that merges a resolved endpoint into the request, under
    the field names of the family. *)
Definition withEndpoint (f : Parser.Family) (r : ProviderRequest.t)
    (endpointConfig : CustomLlmEndpointWithCredentials.t) : ProviderRequest.t :=
  let 'ProviderRequest.mk m sp cx _ ws t rf byok ob onm oh ab an ah gb gn gh rs := r in
  let url := Some (CustomLlmEndpointWithCredentials.baseUrl endpointConfig) in
  let nm := Some (CustomLlmEndpointWithCredentials.name endpointConfig) in
  let hd := CustomLlmEndpointWithCredentials.headers endpointConfig in
  let key := Some (JS.or_else (CustomLlmEndpointWithCredentials.apiKey endpointConfig) "empty") in
  match f with
  | Parser.CustomOpenAI =>
      ProviderRequest.mk m sp cx key ws t rf byok url nm hd ab an ah gb gn gh rs
  | Parser.CustomAnthropic =>
      ProviderRequest.mk m sp cx key ws t rf byok ob onm oh url nm hd gb gn gh rs
  | Parser.CustomGoogle =>
      ProviderRequest.mk m sp cx key ws t rf byok ob onm oh ab an ah url nm hd rs
  end.

(** [!!request.responseFormat]: the empty string is falsy, every other
    string and every object is truthy. *)
Definition truthyFormat (rf : option ResponseFormat) : bool :=
  match rf with
  | Some (FormatString s) => JS.truthy s
  | Some (FormatSchema _ _) => true
  | None => false
  end.

(** [typeof rf === 'string' && rf === ''] *)
Definition isEmptyStringFormat (rf : ResponseFormat) : bool :=
  match rf with
  | FormatString s => (s =? EmptyString)%string
  | FormatSchema _ _ => false
  end.

Definition notFoundMessage (endpointName : string) : string :=
  "Custom LLM endpoint " ++ JS.quote ++ endpointName ++ JS.quote
  ++ " not found. Please configure it in workspace settings.".

Definition zeroCost (updatedAt : string) : Cost.t :=
  Cost.mk 0 0 0 0 0 updatedAt.

Section Dispatcher.
Variable sv : Services.
Variable co : Collaborators.

Definition sanitizeRequest (request : ProviderRequest.t) : ProviderRequest.t :=
  let sanitizedRequest := request in
  if JS.truthy (ProviderRequest.model sanitizedRequest)
     && negb (supportsTemperature co (ProviderRequest.model sanitizedRequest))
  then withTemperature sanitizedRequest None
  else sanitizedRequest.

(** One of the three custom-endpoint branches: parse the model reference
    with the parser of the family and, when it names an endpoint, resolve
    it in the workspace of the request. *)
Definition resolveCustomEndpoint (f : Parser.Family) (workspaceId : string)
    (request resolvedRequest : ProviderRequest.t) : M ProviderRequest.t :=
  let endpointName := Parser.endpointName (Parser.parse f (ProviderRequest.model request)) in
  if JS.truthy endpointName
  then
    tryCatch
      (found <- getCustomEndpointByName sv workspaceId endpointName ;;
       match found with
       | None => throw (Error (notFoundMessage endpointName))
       | Some endpointConfig =>
           log LInfo ("Resolved " ++ Parser.familyPrefix f ++ " endpoint: " ++ endpointName) ;;;
           ret (withEndpoint f resolvedRequest endpointConfig)
       end)
      (fun e => log LError "Failed to resolve custom LLM endpoint:" ;;; throw e)
  else ret resolvedRequest.

(** The step on [responseFormat] and the system prompt. *)
Definition applyResponseFormat (sanitizedRequest : ProviderRequest.t)
    : M ProviderRequest.t :=
  if truthyFormat (ProviderRequest.responseFormat sanitizedRequest)
  then
    match ProviderRequest.responseFormat sanitizedRequest with
    | None => ret sanitizedRequest
    | Some rf =>
        if isEmptyStringFormat rf
        then log LInfo "Empty response format provided, ignoring it" ;;;
             ret (withResponseFormat sanitizedRequest None)
        else
          let structuredOutputInstructions :=
            generateStructuredOutputInstructions co rf in
          if JS.truthy (JS.trim structuredOutputInstructions)
          then
            let originalPrompt :=
              JS.or_else (ProviderRequest.systemPrompt sanitizedRequest) EmptyString in
            log LInfo "Added structured output instructions to system prompt" ;;;
            ret (withSystemPrompt sanitizedRequest
                   (Some (JS.trim (originalPrompt ++ JS.newline ++ JS.newline
                                   ++ structuredOutputInstructions))))
          else ret sanitizedRequest
    end
  else ret sanitizedRequest.

Definition orZero (n : option Z) : Z :=
  match n with
  | Some v => v
  | None => 0
  end.

(** The cost step on a response that is not a stream. *)
Definition attachCost (request : ProviderRequest.t) (isBYOK : bool)
    (response : ProviderResponse.t) : M ProviderResponse.t :=
  match ProviderResponse.tokens response with
  | None => ret response
  | Some tokens =>
      let promptTokens := orZero (Tokens.input tokens) in
      let completionTokens := orZero (Tokens.output tokens) in
      let useCachedInput :=
        match ProviderRequest.context request with
        | Some c => JS.truthy c && (0 <? Z.of_nat (String.length c))
        | None => false
        end in
      let shouldBill :=
        shouldBillModelUsage co (ProviderResponse.model response) && negb isBYOK in
      if shouldBill
      then
        let costMultiplier := getCostMultiplier co in
        ret (ProviderResponse.mk (ProviderResponse.content response)
               (ProviderResponse.model response)
               (ProviderResponse.tokens response)
               (Some (calculateCost co (ProviderResponse.model response)
                        promptTokens completionTokens useCachedInput
                        costMultiplier costMultiplier)))
      else
        now <- newDate sv ;;
        log LDebug (if isBYOK
                    then "Not billing model usage - workspace BYOK key used"
                    else "Not billing model usage - user provided API key or not hosted model") ;;;
        ret (ProviderResponse.mk (ProviderResponse.content response)
               (ProviderResponse.model response)
               (ProviderResponse.tokens response)
               (Some (zeroCost (toISOString co now))))
  end.

(** The branch on [providerId] that resolves the credentials: the
    resolved request and the flag [isBYOK]. *)
Definition resolveCredentials (providerId : string) (request : ProviderRequest.t)
    (resolvedRequest : ProviderRequest.t) : M (ProviderRequest.t * bool) :=
  let workspace := ProviderRequest.workspaceId request in
  let hasWorkspace := JS.truthy_opt workspace in
  let workspaceId := JS.or_else workspace EmptyString in
  if (providerId =? "custom-openai")%string && hasWorkspace
  then r <- resolveCustomEndpoint Parser.CustomOpenAI workspaceId
              request resolvedRequest ;;
       ret (r, false)
  else if (providerId =? "custom-anthropic")%string && hasWorkspace
  then r <- resolveCustomEndpoint Parser.CustomAnthropic workspaceId
              request resolvedRequest ;;
       ret (r, false)
  else if (providerId =? "custom-google")%string && hasWorkspace
  then r <- resolveCustomEndpoint Parser.CustomGoogle workspaceId
              request resolvedRequest ;;
       ret (r, false)
  else if hasWorkspace
  then tryCatch
         (result <- lift (getApiKeyWithBYOK co providerId
                            (ProviderRequest.model request) workspaceId
                            (ProviderRequest.apiKey request)) ;;
          ret (withApiKey resolvedRequest (Some (fst result)), snd result))
         (fun e => log LError "Failed to resolve API key:" ;;; throw e)
  else ret (resolvedRequest, false).

Definition executeProviderRequest (providerId : string)
    (request : ProviderRequest.t) : M Execution :=
  match getProviderExecutor co providerId with
  | None => throw (Error ("Provider not found: " ++ providerId))
  | Some provider =>
    match executeRequest provider with
    | None =>
        throw (Error ("Provider " ++ providerId ++ " does not implement executeRequest"))
    | Some run =>
      resolved <- resolveCredentials providerId request (sanitizeRequest request) ;;
      let isBYOK := snd resolved in
      sanitizedRequest <- applyResponseFormat (withIsBYOK (fst resolved) (Some isBYOK)) ;;
      recordCall sanitizedRequest ;;;
      response <- lift (run sanitizedRequest) ;;
      match response with
      | StreamingExecution _ =>
          log LInfo "Provider returned StreamingExecution" ;;; ret response
      | ReadableStream _ =>
          log LInfo "Provider returned ReadableStream" ;;; ret response
      | Response r =>
          billed <- attachCost request isBYOK r ;;
          ret (Response billed)
      end
    end
  end.

End Dispatcher.

(* ================================================================== *)
(** ** Vocabulary of the statements                                    *)
(* ================================================================== *)

(** What resolution yields for the key, as a function of the stored
    ciphertext alone: the plaintext, or nothing when there is no
    ciphertext or it cannot be decrypted. *)
Definition keyOutcome (sv : Services) (enc : option string) : option string :=
  match enc with
  | Some c =>
      if JS.truthy c
      then match decryptSecret sv c with
           | Ok plain => Some plain
           | Throw _ => None
           end
      else None
  | None => None
  end.

(** The same for the header blob, which must decrypt and parse. *)
Definition headersOutcome (sv : Services) (enc : option string) : option Headers :=
  match enc with
  | Some c =>
      if JS.truthy c
      then match decryptSecret sv c with
           | Ok plain => match JSON_parse sv plain with
                         | Ok h => Some h
                         | Throw _ => None
                         end
           | Throw _ => None
           end
      else None
  | None => None
  end.

(** A field that is stored but yields nothing was a failure. *)
Definition failed {A : Type} (enc : option string) (outcome : option A) : bool :=
  JS.truthy_opt enc && match outcome with Some _ => false | None => true end.

Definition failureLog {A : Type} (msg : string) (enc : option string)
    (outcome : option A) : list LogEntry :=
  if failed enc outcome then [mkLog LError msg] else [].

Definition addLogs (w : World) (l : list LogEntry) : World :=
  mkWorld (rows w) (logs w ++ l) (ticks w) (seeds w) (calls w).

(** The resolved view of a row. *)
Definition resolved (sv : Services) (r : Row.t) : CustomLlmEndpointWithCredentials.t :=
  withCredentials r (keyOutcome sv (Row.encryptedApiKey r))
    (headersOutcome sv (Row.encryptedHeaders r)).

Definition resolutionLog (sv : Services) (r : Row.t) : list LogEntry :=
  failureLog "Failed to decrypt API key for endpoint"
    (Row.encryptedApiKey r) (keyOutcome sv (Row.encryptedApiKey r))
  ++ failureLog "Failed to decrypt headers for endpoint"
       (Row.encryptedHeaders r) (headersOutcome sv (Row.encryptedHeaders r)).

Definition byName (workspaceId endpointName : string) (r : Row.t) : bool :=
  (Row.workspaceId r =? workspaceId)%string && (Row.name r =? endpointName)%string.

Definition byId (endpointId : string) (r : Row.t) : bool :=
  (Row.id r =? endpointId)%string.


(** ** Sample services and worlds for the examples *)

(** A toy cipher: the ciphertext is the plaintext after the tag [enc:]. *)
Definition sampleDecrypt (c : string) : Result string :=
  if JS.startsWith c "enc:" then Ok (JS.drop 4 c) else Throw (Error "Invalid encrypted value").

(** A toy codec for header mappings: [k=v;] per entry. *)
Fixpoint sampleStringify (h : Headers) : string :=
  match h with
  | [] => EmptyString
  | (k, v) :: h' => k ++ "=" ++ v ++ ";" ++ sampleStringify h'
  end.

Fixpoint sampleParseFrom (s key cur : string) (inValue : bool) : Headers :=
  match s with
  | EmptyString => []
  | String c s' =>
      if Ascii.eqb c ";" then (key, cur) :: sampleParseFrom s' EmptyString EmptyString false
      else if Ascii.eqb c "=" && negb inValue then sampleParseFrom s' cur EmptyString true
      else sampleParseFrom s' key (cur ++ String c EmptyString) inValue
  end.

Definition sampleParse (s : string) : Result Headers :=
  match s with
  | EmptyString => Throw (Error "Unexpected end of JSON input")
  | _ => Ok (sampleParseFrom s EmptyString EmptyString false)
  end.

Definition sampleServices : Services :=
  mkServices (fun _ plain => Ok ("enc:" ++ plain)) sampleDecrypt
    sampleStringify sampleParse (fun n => 1700000000000 + Z.of_nat n).

Definition emptyWorld : World := mkWorld [] [] 0 0 [].

Definition worldOf (rs : list Row.t) : World := mkWorld rs [] 0 0 [].

(** A stored endpoint whose key ciphertext is damaged and whose header
    blob is sound. *)
Definition damagedKeyRow : Row.t :=
  Row.mk "ep_1" "ws_1" "vllm-1" "https://h:8000" (Some openai)
    (Some "garbage") (Some "enc:X-Team=ml;") (Some "user_1") 10 20.

Definition sampleContext : RouteContext :=
  mkRouteContext (Some "user_1") (fun _ _ => Some admin)
    (Ok (UpdateCustomEndpointParams.mk None None Omitted Omitted)).

(** ** What [create] and [update] store *)

(** The key that [create] encrypts: the one given, unless it is left out
    or empty. *)
Definition keyToEncrypt (apiKey : option string) : option string :=
  match apiKey with
  | Some k => if JS.truthy k then Some k else None
  | None => None
  end.

(** The header mapping that [create] encrypts: the one given, unless it
    is left out or has no key. *)
Definition headersToEncrypt (headers : option Headers) : option Headers :=
  match headers with
  | Some (entry :: more) => Some (entry :: more)
  | _ => None
  end.

(** Encryption number [n] applied to a field that may be absent. *)
Definition encryptField (sv : Services) (n : nat) (plain : option string)
    : Result (option string) :=
  match plain with
  | None => Ok None
  | Some p => match encryptSecret sv n p with
              | Ok c => Ok (Some c)
              | Throw e => Throw e
              end
  end.

Definition uses {A : Type} (plain : option A) : nat :=
  match plain with
  | Some _ => 1
  | None => 0
  end.

Definition namesOf (headers : option Headers) : list string :=
  match headers with
  | Some h => Object_keys h
  | None => []
  end.

(** The row [create] inserts once the secrets are encrypted. *)
Definition createdRow (sv : Services) (params : CreateCustomEndpointParams.t)
    (w : World) (encKey encHdr : option string) : Row.t :=
  Row.mk (CreateCustomEndpointParams.id params)
    (CreateCustomEndpointParams.workspaceId params)
    (CreateCustomEndpointParams.name params)
    (CreateCustomEndpointParams.baseUrl params)
    (Some (apiTypeOrDefault (CreateCustomEndpointParams.apiType params)))
    encKey encHdr
    (Some (CreateCustomEndpointParams.createdBy params))
    (clock sv (ticks w)) (clock sv (S (ticks w))).

Definition gpuParams : CreateCustomEndpointParams.t :=
  CreateCustomEndpointParams.mk "ep_9" "ws_1" "gpu-1" "https://gpu:8000"
    (Some openai) (Some "sk-abc") None "user_1".

Definition gpuEndpoint : CustomLlmEndpoint.t :=
  CustomLlmEndpoint.mk "ep_9" "ws_1" "gpu-1" "https://gpu:8000" openai true []
    (Some "user_1") 1700000000000 1700000000001.

Definition afterCreate : World :=
  snd (createCustomEndpoint sampleServices gpuParams emptyWorld).

(** The same parameters with another key, or another header mapping. *)
Definition paramsWithApiKey (p : CreateCustomEndpointParams.t) (k : option string)
    : CreateCustomEndpointParams.t :=
  CreateCustomEndpointParams.mk
    (CreateCustomEndpointParams.id p) (CreateCustomEndpointParams.workspaceId p)
    (CreateCustomEndpointParams.name p) (CreateCustomEndpointParams.baseUrl p)
    (CreateCustomEndpointParams.apiType p) k
    (CreateCustomEndpointParams.headers p) (CreateCustomEndpointParams.createdBy p).

Definition paramsWithHeaders (p : CreateCustomEndpointParams.t) (h : option Headers)
    : CreateCustomEndpointParams.t :=
  CreateCustomEndpointParams.mk
    (CreateCustomEndpointParams.id p) (CreateCustomEndpointParams.workspaceId p)
    (CreateCustomEndpointParams.name p) (CreateCustomEndpointParams.baseUrl p)
    (CreateCustomEndpointParams.apiType p) (CreateCustomEndpointParams.apiKey p)
    h (CreateCustomEndpointParams.createdBy p).

(** The encryption service is sound: a ciphertext is never the empty
    string and decrypts to the plaintext it was made from. *)
Definition soundCipher (sv : Services) : Prop :=
  forall n plain c,
    encryptSecret sv n plain = Ok c ->
    c <> EmptyString /\ decryptSecret sv c = Ok plain.

(** The round trip as the specification words it: after a successful
    [create], resolving the name in the workspace yields the base URL and
    the key of the parameters ([None] standing for a key left out and for
    [null]). *)
Definition roundTripAsStated : Prop :=
  forall (sv : Services) (params : CreateCustomEndpointParams.t)
         (w w' : World) (e : CustomLlmEndpoint.t),
    soundCipher sv ->
    createCustomEndpoint sv params w = (Ok e, w') ->
    exists c w'',
      getCustomEndpointByName sv (CreateCustomEndpointParams.workspaceId params)
        (CreateCustomEndpointParams.name params) w' = (Ok (Some c), w'')
      /\ CustomLlmEndpointWithCredentials.baseUrl c = CreateCustomEndpointParams.baseUrl params
      /\ CustomLlmEndpointWithCredentials.apiKey c = CreateCustomEndpointParams.apiKey params.

(** The worlds the store functions can produce from the empty table. *)
Inductive storeStep (sv : Services) : World -> World -> Prop :=
| stepCreate (params : CreateCustomEndpointParams.t) (w : World) :
    storeStep sv w (snd (createCustomEndpoint sv params w))
| stepUpdate (endpointId : string) (params : UpdateCustomEndpointParams.t) (w : World) :
    storeStep sv w (snd (updateCustomEndpoint sv endpointId params w))
| stepDelete (endpointId : string) (w : World) :
    storeStep sv w (snd (deleteCustomEndpoint endpointId w)).

Inductive reachable (sv : Services) : World -> Prop :=
| reachEmpty : reachable sv emptyWorld
| reachStep (w w' : World) : reachable sv w -> storeStep sv w w' -> reachable sv w'.

(** The invariant as the specification words it: no stored key is the
    encryption of the empty string. *)
Definition neverStoresEncryptedEmptyKey : Prop :=
  forall (sv : Services) (w : World) (r : Row.t) (c : string),
    soundCipher sv ->
    reachable sv w ->
    In r (rows w) ->
    Row.encryptedApiKey r = Some c ->
    decryptSecret sv c <> Ok EmptyString.

(** The assignment to [updates.encryptedApiKey], and the one to
    [updates.encryptedHeaders], described by their outcome. *)
Definition keyAssigned (sv : Services) (n : nat) (p : Patch string)
    (assigned : option (option string)) : Prop :=
  match p with
  | Omitted => assigned = None
  | Null => assigned = Some None
  | Value k => exists c, encryptSecret sv n k = Ok c /\ assigned = Some (Some c)
  end.

Definition headersAssigned (sv : Services) (n : nat) (p : Patch Headers)
    (assigned : option (option string)) : Prop :=
  match p with
  | Omitted => assigned = None
  | Null => assigned = Some None
  | Value [] => assigned = Some None
  | Value h => exists c, encryptSecret sv n (JSON_stringify sv h) = Ok c
                         /\ assigned = Some (Some c)
  end.

Definition namesAfterUpdate (sv : Services) (p : Patch Headers)
    (stored : option string) : list string :=
  match p with
  | Omitted => namesOf (headersOutcome sv stored)
  | Null => []
  | Value h => Object_keys h
  end.

(** ** Sample collaborators of the dispatcher *)

(** A provider that answers every request with ten prompt tokens and
    five completion tokens of the model [gpt-4o]. *)
Definition sampleProvider : ProviderConfig :=
  mkProvider
    (Some (fun _ => Ok (Response (ProviderResponse.mk "hello" "gpt-4o"
                                    (Some (Tokens.mk (Some 10) (Some 5))) None)))).

(** Billing that charges hosted model names, one millionth per token. *)
Definition sampleCollaborators : Collaborators :=
  mkCollaborators
    (fun _ => Some sampleProvider)
    (fun _ => true)
    (fun _ _ _ _ => Ok ("workspace-key", true))
    (fun _ => "Respond with JSON.")
    (fun m => (m =? "gpt-4o")%string)
    1%Q
    (fun _ p c _ _ _ =>
       Cost.mk (Qmake p 1000000) (Qmake c 1000000) (Qmake (p + c) 1000000)
         (Qmake 1 1000000) (Qmake 1 1000000) "2026-01-01T00:00:00.000Z")
    (fun _ => "2026-01-01T00:00:00.000Z").

Definition sampleRequest (model workspace : string) : ProviderRequest.t :=
  ProviderRequest.mk model None None None (Some workspace) None None None
    None None None None None None None None None EmptyString.

(** The request is one the dispatcher resolves through a named custom
    endpoint. *)
Definition throughCustomEndpoint (providerId : string) (request : ProviderRequest.t)
    : Prop :=
  exists f wsid,
    providerId = Parser.familyPrefix f
    /\ ProviderRequest.workspaceId request = Some wsid
    /\ JS.truthy wsid = true
    /\ JS.truthy (Parser.endpointName (Parser.parse f (ProviderRequest.model request)))
       = true.

(** The billing bypass as the specification words it: a response with
    token usage to a request resolved through a custom endpoint, or sent
    with [isBYOK] set, has a total cost equal (as a number) to zero. *)
Definition billingBypassAsStated : Prop :=
  forall (sv : Services) (co : Collaborators) (providerId : string)
         (request : ProviderRequest.t) (w w' : World) (r : ProviderResponse.t),
    executeProviderRequest sv co providerId request w = (Ok (Response r), w') ->
    ProviderResponse.tokens r <> None ->
    throughCustomEndpoint providerId request
    \/ (exists sent, calls w' = (calls w ++ [sent])%list
                     /\ ProviderRequest.isBYOK sent = Some true) ->
    exists c, ProviderResponse.cost r = Some c /\ (Cost.total c == 0)%Q.

(** What the cost step computes for a billable response. *)
Definition billedCost (co : Collaborators) (request : ProviderRequest.t)
    (r : ProviderResponse.t) : Cost.t :=
  calculateCost co (ProviderResponse.model r)
    (orZero (match ProviderResponse.tokens r with
             | Some t => Tokens.input t
             | None => None
             end))
    (orZero (match ProviderResponse.tokens r with
             | Some t => Tokens.output t
             | None => None
             end))
    (match ProviderRequest.context request with
     | Some c => JS.truthy c && (0 <? Z.of_nat (String.length c))
     | None => false
     end)
    (getCostMultiplier co) (getCostMultiplier co).

(** Every stored endpoint has a non-empty id: the ids of the table are
    made by [nanoid()] in the POST handler. *)
Definition storedIdsNonEmpty (w : World) : Prop :=
  forall r, In r (rows w) -> Row.id r <> EmptyString.

(** The provider id is none of the three custom families. *)
Definition genericProvider (providerId : string) : Prop :=
  forall f, providerId <> Parser.familyPrefix f.

From Stdlib Require Import Sorted Permutation.

(* ================================================================== *)
(** ** Listing: [getCustomEndpoints]                                   *)
(* ================================================================== *)

(** [.orderBy(customLlmEndpoints.name)]: the rows in ascending order of
    their names; [nameLeq] is the order of the database collation. *)
Fixpoint insertByName (nameLeq : string -> string -> bool) (r : Row.t)
    (sorted : list Row.t) : list Row.t :=
  match sorted with
  | [] => [r]
  | x :: more =>
      if nameLeq (Row.name r) (Row.name x)
      then r :: x :: more
      else x :: insertByName nameLeq r more
  end.

Fixpoint orderByName (nameLeq : string -> string -> bool) (rs : list Row.t)
    : list Row.t :=
  match rs with
  | [] => []
  | r :: more => insertByName nameLeq r (orderByName nameLeq more)
  end.

Section Listing.
Variable sv : Services.
Variable nameLeq : string -> string -> bool.

(** The body of the loop for one row: read the header names from the
    stored blob, none when there is no blob or it cannot be read. *)
Definition listedHeaderNames (endpoint : Row.t) : M (list string) :=
  match Row.encryptedHeaders endpoint with
  | Some c =>
      if JS.truthy c
      then tryCatch (decrypted <- decrypt sv c ;;
                     headers <- parseJson sv decrypted ;;
                     ret (Object_keys headers))
             (fun _ => log LError "Failed to decrypt headers for endpoint" ;;; ret [])
      else ret []
  | None => ret []
  end.

Definition listedView (endpoint : Row.t) (headerNames : list string)
    : CustomLlmEndpoint.t :=
  CustomLlmEndpoint.mk
    (Row.id endpoint) (Row.workspaceId endpoint) (Row.name endpoint)
    (Row.baseUrl endpoint) (apiTypeOrDefault (Row.apiType endpoint))
    (JS.truthy_opt (Row.encryptedApiKey endpoint)) headerNames
    (Row.createdBy endpoint) (Row.createdAt endpoint) (Row.updatedAt endpoint).

(** [for (const endpoint of endpoints) { ...; results.push(...) }] *)
Fixpoint listLoop (endpoints : list Row.t) (results : list CustomLlmEndpoint.t)
    : M (list CustomLlmEndpoint.t) :=
  match endpoints with
  | [] => ret results
  | endpoint :: more =>
      headerNames <- listedHeaderNames endpoint ;;
      listLoop more (results ++ [listedView endpoint headerNames])
  end.

Definition getCustomEndpoints (workspaceId : string) : M (list CustomLlmEndpoint.t) :=
  logAndRethrow "Failed to get custom endpoints"
    (selected <- dbSelect (fun r => (Row.workspaceId r =? workspaceId)%string) ;;
     listLoop (orderByName nameLeq selected) []).

End Listing.

(** The entry [getCustomEndpoints] shows for a row. *)
Definition listed (sv : Services) (r : Row.t) : CustomLlmEndpoint.t :=
  listedView r (namesOf (headersOutcome sv (Row.encryptedHeaders r))).

Definition inWorkspace (workspaceId : string) (r : Row.t) : bool :=
  (Row.workspaceId r =? workspaceId)%string.

(** [nameLeq] compares any two names one way or the other. *)
Definition totalOrder (nameLeq : string -> string -> bool) : Prop :=
  forall a b, nameLeq a b = true \/ nameLeq b a = true.

(** The JSON codec gives back the header mapping of the parameters,
    when there is one. *)
Definition readsBack (sv : Services) (headers : option Headers) : Prop :=
  forall h, headers = Some h -> JSON_parse sv (JSON_stringify sv h) = Ok h.

Definition teamParams : CreateCustomEndpointParams.t :=
  CreateCustomEndpointParams.mk "ep_7" "ws_1" "team-llm" "https://t:8000"
    (Some google) (Some "sk-team") (Some [("X-Team", "ml")]) "user_1".

Definition teamEndpoint : CustomLlmEndpoint.t :=
  CustomLlmEndpoint.mk "ep_7" "ws_1" "team-llm" "https://t:8000" google true
    ["X-Team"] (Some "user_1") 1700000000000 1700000000001.

Definition afterTeamCreate : World :=
  snd (createCustomEndpoint sampleServices teamParams emptyWorld).

(** A computation that leaves the table as it found it, whatever it
    returns. *)
Definition keepsRows {A : Type} (m : M A) : Prop :=
  forall w, rows (snd (m w)) = rows w.

(** The order of two names by their code units, as one choice of
    collation for the examples. *)
Definition sampleLeq (a b : string) : bool := String.leb a b.

Definition secondRow : Row.t :=
  Row.mk "ep_2" "ws_1" "alpha" "https://a:8000" (Some anthropic)
    (Some "enc:sk-2") (Some "broken") (Some "user_1") 30 40.

Definition foreignRow : Row.t :=
  Row.mk "ep_3" "ws_2" "beta" "https://b:8000" (Some google)
    None None (Some "user_2") 50 60.

Definition sampleTable : World := worldOf [damagedKeyRow; secondRow; foreignRow].

(* ================================================================== *)
(** ** Collection routes: [custom-llm-endpoints]                       *)
(* ================================================================== *)

Module Collection.

(** The value of [CreateEndpointSchema.parse(body)]; the schema has
    already put [openai] for an [apiType] left out. *)
Record CreateBody : Type := mkCreateBody {
  name : string;
  baseUrl : string;
  apiType : CustomLlmApiType;
  apiKey : option string;
  headers : option Headers
}.

(** JSON bodies the collection handlers answer with. *)
Inductive Body : Type :=
| ErrorBody (error : string)
| EndpointsBody (endpoints : list CustomLlmEndpoint.t)
| CreatedBody (endpoint : CustomLlmEndpoint.t).

Record HttpResponse : Type := mkResponse { status : Z; body : Body }.

Definition json (b : Body) (st : Z) : M HttpResponse := ret (mkResponse st b).

Definition jsonOk (b : Body) : M HttpResponse := json b 200.

(** What a collection handler takes from its surroundings: the
    session's user id, the permission lookup, whether
    [getWorkspaceById] finds the workspace, the body read with
    [request.json()] and checked with [CreateEndpointSchema.parse], the id
    [nanoid()] gives this request, and the order of the database
    collation. *)
Record Context : Type := mkContext {
  getSession : option string;
  getUserEntityPermissions : string -> string -> option Permission;
  getWorkspaceById : string -> bool;
  parseBody : Result CreateBody;
  nanoid : string;
  collation : string -> string -> bool
}.

Section Handlers.
Variable sv : Services.
Variable ctx : Context.

Definition GET (workspaceId : string) : M HttpResponse :=
  tryCatch
    (match getSession ctx with
     | None =>
         log LWarn "Unauthorized custom LLM endpoints access attempt" ;;;
         json (ErrorBody "Unauthorized") 401
     | Some userId =>
       if negb (JS.truthy userId)
       then log LWarn "Unauthorized custom LLM endpoints access attempt" ;;;
            json (ErrorBody "Unauthorized") 401
       else if negb (getWorkspaceById ctx workspaceId)
       then json (ErrorBody "Workspace not found") 404
       else
         match getUserEntityPermissions ctx userId workspaceId with
         | None => json (ErrorBody "Unauthorized") 401
         | Some _ =>
             endpoints <- getCustomEndpoints sv (collation ctx) workspaceId ;;
             jsonOk (EndpointsBody endpoints)
         end
     end)
    (fun e =>
       log LError "Custom LLM endpoints GET error" ;;;
       json (ErrorBody (exnMessage e)) 500).

Definition POST (workspaceId : string) : M HttpResponse :=
  tryCatch
    (match getSession ctx with
     | None =>
         log LWarn "Unauthorized custom LLM endpoint creation attempt" ;;;
         json (ErrorBody "Unauthorized") 401
     | Some userId =>
       if negb (JS.truthy userId)
       then log LWarn "Unauthorized custom LLM endpoint creation attempt" ;;;
            json (ErrorBody "Unauthorized") 401
       else if negb (isAdmin (getUserEntityPermissions ctx userId workspaceId))
       then json (ErrorBody "Only workspace admins can manage custom LLM endpoints") 403
       else
         parsed <- lift (parseBody ctx) ;;
         isAvailable <- isEndpointNameAvailable workspaceId (name parsed) None ;;
         if negb isAvailable
         then json (ErrorBody ("An endpoint with the name " ++ JS.quote ++ name parsed
                               ++ JS.quote ++ " already exists in this workspace")) 409
         else
           endpoint <- createCustomEndpoint sv
                         (CreateCustomEndpointParams.mk (nanoid ctx) workspaceId
                            (name parsed) (baseUrl parsed) (Some (apiType parsed))
                            (apiKey parsed) (headers parsed) userId) ;;
           log LInfo "Created custom LLM endpoint" ;;;
           jsonOk (CreatedBody endpoint)
     end)
    (fun e =>
       log LError "Custom LLM endpoint POST error" ;;;
       match e with
       | ZodError m => json (ErrorBody m) 400
       | Error m => json (ErrorBody m) 500
       end).

End Handlers.

End Collection.

(** The request comes with a session whose user is an admin of the
    workspace. *)
Definition adminSession (session : option string)
    (permissions : string -> string -> option Permission) (workspaceId : string) : Prop :=
  exists userId,
    session = Some userId /\ JS.truthy userId = true
    /\ permissions userId workspaceId = Some admin.

(** The request comes without a usable session. *)
Definition noSession (session : option string) : Prop :=
  session = None \/ session = Some EmptyString.

Definition readerContext : RouteContext :=
  mkRouteContext (Some "user_2") (fun _ _ => Some read)
    (Ok (UpdateCustomEndpointParams.mk (Some "renamed") None Null Null)).

Definition anonymousContext : RouteContext :=
  mkRouteContext None (fun _ _ => Some admin)
    (Ok (UpdateCustomEndpointParams.mk (Some "renamed") None Null Null)).

(** A handler body that, when it answers, answers with one of the
    statuses [allowed]. *)
Definition answersWithin {R : Type} (statusOf : R -> Z) (allowed : list Z)
    (m : M R) : Prop :=
  forall w, match fst (m w) with
            | Ok resp => In (statusOf resp) allowed
            | Throw _ => True
            end.

(** A handler that always answers, with one of the statuses
    [allowed]. *)
Definition alwaysAnswers {R : Type} (statusOf : R -> Z) (allowed : list Z)
    (m : M R) : Prop :=
  forall w, exists resp w', m w = (Ok resp, w') /\ In (statusOf resp) allowed.

Definition sampleCollection : Collection.Context :=
  Collection.mkContext (Some "user_1") (fun _ _ => Some admin) (fun _ => true)
    (Ok (Collection.mkCreateBody "team-llm" "https://t:8000" google
           (Some "sk-team") (Some [("X-Team", "ml")])))
    "ep_7" sampleLeq.

(** A computation whose effect on the table is within [R]. *)
Definition rowsWithin {A : Type} (R : list Row.t -> list Row.t -> Prop) (m : M A) : Prop :=
  forall w, R (rows w) (rows (snd (m w))).

(** The table [after] is [before] with the rows of id [i] rewritten by
    one assignment, or [before] itself. *)
Definition rewrittenAt (i : string) (before after : list Row.t) : Prop :=
  after = before
  \/ exists u, after = map (fun r => if (Row.id r =? i)%string
                                     then applyUpdates u r else r) before.

(** The table [after] is [before] with one more row of the workspace,
    or [before] itself. *)
Definition grownIn (workspaceId : string) (before after : list Row.t) : Prop :=
  after = before
  \/ exists r, Row.workspaceId r = workspaceId /\ after = (before ++ [r])%list.

(** The rows outside a workspace are the same in two tables. *)
Definition sameOutside (workspaceId : string) (before after : list Row.t) : Prop :=
  forall r, Row.workspaceId r <> workspaceId -> (In r before <-> In r after).

(* ================================================================== *)
(** ** Provider [custom-google]: [providers/custom-google/index.ts]    *)
(* ================================================================== *)

Module CustomGoogleProvider.

(** The options of [new GoogleGenAI({ apiKey, httpOptions })]; [headers]
    is [None] when [httpOptions.headers] is not set. *)
Record GoogleGenAI : Type := mkClient {
  apiKey : string;
  baseUrl : string;
  headers : option Headers
}.

(** The argument of [executeGeminiRequest]. *)
Record GeminiCall : Type := mkCall {
  ai : GoogleGenAI;
  model : string;
  request : ProviderRequest.t;
  providerType : string
}.

(** [{ ...request, model: modelName }] *)
Definition withModel (r : ProviderRequest.t) (v : string) : ProviderRequest.t :=
  let 'ProviderRequest.mk _ sp cx ak ws t rf byok ob onm oh ab an ah gb gn gh rs := r in
  ProviderRequest.mk v sp cx ak ws t rf byok ob onm oh ab an ah gb gn gh rs.

Definition notConfiguredMessage (endpointName : string) : string :=
  "Custom Google endpoint " ++ JS.quote ++ JS.or_else (Some endpointName) "unknown"
  ++ JS.quote ++ " not configured. Please configure the endpoint in workspace settings.".

Section Provider.

(** [executeGeminiRequest] of [providers/gemini/core], a collaborator
    outside the slice. *)
Variable executeGeminiRequest : GeminiCall -> Result Execution.

Definition executeRequest (request : ProviderRequest.t) : M Execution :=
  let parsed := Parser.parseCustomGoogleModel (ProviderRequest.model request) in
  let endpointName := Parser.endpointName parsed in
  let modelName := Parser.modelName parsed in
  log LInfo "Preparing Custom Google request" ;;;
  let baseUrl := ProviderRequest.customGoogleBaseUrl request in
  if negb (JS.truthy_opt baseUrl)
  then throw (Error (notConfiguredMessage endpointName))
  else
    let apiKey := JS.or_else (ProviderRequest.apiKey request) "empty" in
    let headers :=
      match ProviderRequest.customGoogleHeaders request with
      | Some h => if (0 <? Z.of_nat (List.length (Object_keys h))) then Some h else None
      | None => None
      end in
    log LInfo "Creating Custom Google client" ;;;
    lift (executeGeminiRequest
            (mkCall (mkClient apiKey (JS.or_else baseUrl EmptyString) headers)
               modelName (withModel request modelName) "custom-google")).

End Provider.

End CustomGoogleProvider.

(** The executor [run] registered for a provider id behaves as the
    [custom-google] provider over [executeGeminiRequest]. *)
Definition runsCustomGoogle
    (executeGeminiRequest : CustomGoogleProvider.GeminiCall -> Result Execution)
    (run : ProviderRequest.t -> Result Execution) : Prop :=
  forall request w,
    run request = fst (CustomGoogleProvider.executeRequest executeGeminiRequest request w).

(** The endpoint fields of a request, under the names of a family:
    base URL, endpoint name, headers. *)
Definition endpointFields (f : Parser.Family) (r : ProviderRequest.t)
    : option string * option string * option Headers :=
  match f with
  | Parser.CustomOpenAI =>
      (ProviderRequest.customOpenaiBaseUrl r, ProviderRequest.customOpenaiEndpointName r,
       ProviderRequest.customOpenaiHeaders r)
  | Parser.CustomAnthropic =>
      (ProviderRequest.customAnthropicBaseUrl r,
       ProviderRequest.customAnthropicEndpointName r,
       ProviderRequest.customAnthropicHeaders r)
  | Parser.CustomGoogle =>
      (ProviderRequest.customGoogleBaseUrl r, ProviderRequest.customGoogleEndpointName r,
       ProviderRequest.customGoogleHeaders r)
  end.

(** Two requests agree on what the dispatcher only carries along: the
    model, the temperature, the context, the workspace and the rest. *)
Definition sameCarried (a b : ProviderRequest.t) : Prop :=
  ProviderRequest.model a = ProviderRequest.model b
  /\ ProviderRequest.temperature a = ProviderRequest.temperature b
  /\ ProviderRequest.context a = ProviderRequest.context b
  /\ ProviderRequest.workspaceId a = ProviderRequest.workspaceId b
  /\ ProviderRequest.rest a = ProviderRequest.rest b.

(** Two requests agree on the credentials: the key and the endpoint
    fields of every family. *)
Definition sameCredentials (a b : ProviderRequest.t) : Prop :=
  ProviderRequest.apiKey a = ProviderRequest.apiKey b
  /\ forall f, endpointFields f a = endpointFields f b.

(** The request carries no usable workspace id. *)
Definition noWorkspace (request : ProviderRequest.t) : Prop :=
  JS.truthy_opt (ProviderRequest.workspaceId request) = false.

(** The provider is registered with an executor. *)
Definition registered (co : Collaborators) (providerId : string)
    (run : ProviderRequest.t -> Result Execution) : Prop :=
  exists provider,
    getProviderExecutor co providerId = Some provider
    /\ executeRequest provider = Some run.

(** The world after a request was handed to a provider executor. *)
Definition called (w : World) (sent : ProviderRequest.t) : World :=
  mkWorld (rows w) (logs w) (ticks w) (seeds w) (calls w ++ [sent]).

(** The temperature [sanitizeRequest] leaves in a request. *)
Definition sanitizedTemperature (co : Collaborators) (request : ProviderRequest.t)
    : option Q :=
  if JS.truthy (ProviderRequest.model request)
     && negb (supportsTemperature co (ProviderRequest.model request))
  then None
  else ProviderRequest.temperature request.

(** A request to a custom family whose model reference names no
    endpoint. *)
Definition namesNoEndpoint (providerId : string) (request : ProviderRequest.t) : Prop :=
  exists f,
    providerId = Parser.familyPrefix f
    /\ JS.truthy (Parser.endpointName (Parser.parse f (ProviderRequest.model request)))
       = false.

(** A registry that knows one executor under every id. *)
Definition registryOf (run : ProviderRequest.t -> Result Execution) : Collaborators :=
  mkCollaborators
    (fun _ => Some (mkProvider (Some run)))
    (supportsTemperature sampleCollaborators)
    (getApiKeyWithBYOK sampleCollaborators)
    (generateStructuredOutputInstructions sampleCollaborators)
    (shouldBillModelUsage sampleCollaborators)
    (getCostMultiplier sampleCollaborators)
    (calculateCost sampleCollaborators)
    (toISOString sampleCollaborators).

(** A Gemini client that answers with a stream named after the model
    and the base URL it was given. *)
Definition sampleGemini (call : CustomGoogleProvider.GeminiCall) : Result Execution :=
  Ok (ReadableStream (CustomGoogleProvider.model call ++ "@"
                      ++ CustomGoogleProvider.baseUrl (CustomGoogleProvider.ai call))).

Definition sampleGoogleRun (request : ProviderRequest.t) : Result Execution :=
  fst (CustomGoogleProvider.executeRequest sampleGemini request emptyWorld).

(* ================================================================== *)
(** ** Endpoint names and the model options made from them             *)
(* ================================================================== *)

(** The class [[a-zA-Z0-9_-]]. *)
Definition isNameChar (c : ascii) : bool :=
  let n := nat_of_ascii c in
  (Nat.leb 97 n && Nat.leb n 122) || (Nat.leb 65 n && Nat.leb n 90)
  || (Nat.leb 48 n && Nat.leb n 57) || Nat.eqb n 95 || Nat.eqb n 45.

Fixpoint allNameChars (s : string) : bool :=
  match s with
  | EmptyString => true
  | String c s' => isNameChar c && allNameChars s'
  end.

(** [/^[a-zA-Z0-9_-]+$/.test(s)], the pattern of the endpoint name in
    [CreateEndpointSchema] and [UpdateEndpointSchema]. *)
Definition matchesNamePattern (s : string) : bool :=
  JS.truthy s && allNameChars s.

Definition apiTypeIs (a b : CustomLlmApiType) : bool :=
  match a, b with
  | openai, openai | anthropic, anthropic | google, google => true
  | _, _ => false
  end.

(** The api type a family stands for. *)
Definition familyApiType (f : Parser.Family) : CustomLlmApiType :=
  match f with
  | Parser.CustomOpenAI => openai
  | Parser.CustomAnthropic => anthropic
  | Parser.CustomGoogle => google
  end.

Module Loader.

(** The three lists [useSyncCustomEndpoints] hands to
    [setProviderModels]; the api type of an entry is never empty, so
    [!e.apiType] is false. *)
Definition openaiEndpoints (endpoints : list CustomLlmEndpoint.t) : list string :=
  map (fun endpoint => "custom-openai:" ++ CustomLlmEndpoint.name endpoint ++ "/")
    (filter (fun e => false || apiTypeIs (CustomLlmEndpoint.apiType e) openai) endpoints).

Definition anthropicEndpoints (endpoints : list CustomLlmEndpoint.t) : list string :=
  map (fun endpoint => "custom-anthropic:" ++ CustomLlmEndpoint.name endpoint ++ "/")
    (filter (fun e => apiTypeIs (CustomLlmEndpoint.apiType e) anthropic) endpoints).

Definition googleEndpoints (endpoints : list CustomLlmEndpoint.t) : list string :=
  map (fun endpoint => "custom-google:" ++ CustomLlmEndpoint.name endpoint ++ "/")
    (filter (fun e => apiTypeIs (CustomLlmEndpoint.apiType e) google) endpoints).

(** The models the provider store holds for a family after the sync. *)
Definition providerModels (f : Parser.Family) (endpoints : list CustomLlmEndpoint.t)
    : list string :=
  match f with
  | Parser.CustomOpenAI => openaiEndpoints endpoints
  | Parser.CustomAnthropic => anthropicEndpoints endpoints
  | Parser.CustomGoogle => googleEndpoints endpoints
  end.

End Loader.

(** The model option the loader makes for an endpoint under a family. *)
Definition modelOption (f : Parser.Family) (endpointName : string) : string :=
  Parser.familyPrefix f ++ ":" ++ endpointName ++ "/".

(** The message of the answer 409. *)
Definition takenMessage (name : string) : string :=
  "An endpoint with the name " ++ JS.quote ++ name ++ JS.quote
  ++ " already exists in this workspace".

(** An admin who renames an endpoint to [alpha]. *)
Definition renameContext : RouteContext :=
  mkRouteContext (Some "user_1") (fun _ _ => Some admin)
    (Ok (UpdateCustomEndpointParams.mk (Some "alpha") None Omitted Omitted)).

(** An admin who creates an endpoint named [alpha]. *)
Definition duplicateCollection : Collection.Context :=
  Collection.mkContext (Some "user_1") (fun _ _ => Some admin) (fun _ => true)
    (Ok (Collection.mkCreateBody "alpha" "https://t:8000" openai None None))
    "ep_8" sampleLeq.

(** What the dispatcher makes of the executor's answer: an exception
    and a stream are passed on as they are; a response keeps its content,
    its model and its token usage, and is passed on as it is when it has
    no token usage. *)
Definition passedOn (answer result : Result Execution) : Prop :=
  match answer with
  | Throw e => result = Throw e
  | Ok (Response r0) =>
      exists billed,
        result = Ok (Response billed)
        /\ ProviderResponse.content billed = ProviderResponse.content r0
        /\ ProviderResponse.model billed = ProviderResponse.model r0
        /\ ProviderResponse.tokens billed = ProviderResponse.tokens r0
        /\ (ProviderResponse.tokens r0 = None -> billed = r0)
  | Ok stream => result = Ok stream
  end.

(** A registry that knows no provider. *)
Definition emptyRegistry : Collaborators :=
  mkCollaborators
    (fun _ => None)
    (supportsTemperature sampleCollaborators)
    (getApiKeyWithBYOK sampleCollaborators)
    (generateStructuredOutputInstructions sampleCollaborators)
    (shouldBillModelUsage sampleCollaborators)
    (getCostMultiplier sampleCollaborators)
    (calculateCost sampleCollaborators)
    (toISOString sampleCollaborators).

(** A request for the model [m] of the endpoint [alpha] of [ws_1],
    which comes with a key and a temperature of its own. *)
Definition alphaRequest : ProviderRequest.t :=
  ProviderRequest.mk "custom-anthropic:alpha/claude-x" (Some "Be brief.") None
    (Some "sk-request") (Some "ws_1") (Some (1 # 2)%Q) None None
    None None None None None None None None None "messages".

(** Collaborators for which no model supports a temperature. *)
Definition noTemperature : Collaborators :=
  mkCollaborators
    (getProviderExecutor sampleCollaborators)
    (fun _ => false)
    (getApiKeyWithBYOK sampleCollaborators)
    (generateStructuredOutputInstructions sampleCollaborators)
    (shouldBillModelUsage sampleCollaborators)
    (getCostMultiplier sampleCollaborators)
    (calculateCost sampleCollaborators)
    (toISOString sampleCollaborators).

(** The headers the [custom-google] provider sets on its client: the
    mapping of the request when it has a key. *)
Definition clientHeaders (h : option Headers) : option Headers :=
  match h with
  | Some (entry :: more) => Some (entry :: more)
  | _ => None
  end.

(** A request to the hosted model [gpt-4o] from the workspace [ws_1]. *)
Definition hostedRequest : ProviderRequest.t :=
  ProviderRequest.mk "gpt-4o" None None (Some "sk-request") (Some "ws_1") None None None
    None None None None None None None None None "messages".

(** A request for the model [gemini-pro] of the endpoint [beta]. *)
Definition betaRequest (workspace : option string) : ProviderRequest.t :=
  ProviderRequest.mk "custom-google:beta/gemini-pro" None None None workspace None None
    None None None None None None None None None None "messages".

(** The same request once the endpoint [beta] is merged into it. *)
Definition betaConfigured : ProviderRequest.t :=
  ProviderRequest.mk "custom-google:beta/gemini-pro" None None None (Some "ws_2") None
    None None None None None None None None (Some "https://b:8000") (Some "beta") None
    "messages".

(** An admin who changes the base URL of an endpoint and removes its
    key. *)
Definition moveContext : RouteContext :=
  mkRouteContext (Some "user_1") (fun _ _ => Some admin)
    (Ok (UpdateCustomEndpointParams.mk None (Some "https://new:8000") Null Omitted)).

(** A request to the hosted model with a system prompt and a schema
    for the response. *)
Definition schemaRequest : ProviderRequest.t :=
  ProviderRequest.mk "gpt-4o" (Some "Be brief.") None (Some "sk-request") None None
    (Some (FormatSchema "answer" "{}")) None
    None None None None None None None None None "messages".

(** A request to the collection without a session, and one of a
    signed-in user who holds no permission; only [ws_1] and [ws_2] exist. *)
Definition anonymousCollection : Collection.Context :=
  Collection.mkContext None (fun _ _ => Some admin) (fun _ => true)
    (Collection.parseBody sampleCollection) "ep_7" sampleLeq.

Definition strangerCollection : Collection.Context :=
  Collection.mkContext (Some "user_9") (fun _ _ => None)
    (fun ws => (ws =? "ws_1")%string || (ws =? "ws_2")%string)
    (Collection.parseBody sampleCollection) "ep_7" sampleLeq.
(* ================================================================== *)
(** * Properties                                                       *)
(* ================================================================== *)

(** ** Strings *)

Lemma startsWith_app (p r : string) : JS.startsWith (p ++ r) p = true.
Proof.
  induction p as [|c p IH]; simpl.
  - now destruct r.
  - now rewrite Ascii.eqb_refl.
Qed.

Lemma startsWith_inv (p s : string) :
  JS.startsWith s p = true -> exists r, s = (p ++ r)%string.
Proof.
  revert s; induction p as [|c p IH]; intros s H.
  - now exists s.
  - destruct s as [|d s]; simpl in H; [discriminate|].
    destruct (Ascii.eqb c d) eqn:E; [|discriminate].
    apply Ascii.eqb_eq in E; subst d.
    destruct (IH _ H) as [r ->]. now exists r.
Qed.

Lemma drop_app (p r : string) : JS.drop (String.length p) (p ++ r) = r.
Proof. induction p; simpl; auto. Qed.

Lemma take_app (a r : string) : JS.take (String.length a) (a ++ r) = a.
Proof. induction a; simpl; [now destruct r | now f_equal]. Qed.

Lemma take_all (b : string) : JS.take (String.length b) b = b.
Proof. induction b; simpl; [reflexivity | now f_equal]. Qed.

Lemma length_app (a b : string) :
  String.length (a ++ b) = (String.length a + String.length b)%nat.
Proof. induction a; simpl; auto. Qed.

Lemma replace_anchored_present (p r : string) :
  JS.replace_anchored p (p ++ r) = r.
Proof.
  unfold JS.replace_anchored. now rewrite startsWith_app, drop_app.
Qed.

Lemma startsWith_slash (c : ascii) (s : string) :
  JS.startsWith (String c s) "/" = Ascii.eqb c "/".
Proof.
  cbn [JS.startsWith]. rewrite Ascii.eqb_sym.
  destruct (Ascii.eqb c "/"); [now destruct s | reflexivity].
Qed.

Lemma indexOf_from_cons (c : ascii) (s : string) (i : Z) :
  JS.indexOf_from "/" (String c s) i
  = if Ascii.eqb c "/" then i else JS.indexOf_from "/" s (i + 1).
Proof.
  change (JS.indexOf_from "/" (String c s) i)
    with (if JS.startsWith (String c s) "/" then i
          else JS.indexOf_from "/" s (i + 1)).
  now rewrite startsWith_slash.
Qed.

Lemma indexOf_noSlash (r : string) (i : Z) :
  Parser.noSlash r = true -> JS.indexOf_from "/" r i = -1.
Proof.
  revert i; induction r as [|c r IH]; intros i H.
  - reflexivity.
  - rewrite indexOf_from_cons. cbn [Parser.noSlash] in H.
    destruct (Ascii.eqb c "/"); [discriminate | auto].
Qed.

Lemma indexOf_first_slash (a b : string) (i : Z) :
  Parser.noSlash a = true ->
  JS.indexOf_from "/" (a ++ "/" ++ b) i = i + Z.of_nat (String.length a).
Proof.
  revert i; induction a as [|c a IH]; intros i H.
  - cbn [append]. rewrite indexOf_from_cons, Ascii.eqb_refl.
    cbn [String.length]. lia.
  - cbn [append]. rewrite indexOf_from_cons. cbn [Parser.noSlash] in H.
    destruct (Ascii.eqb c "/"); [discriminate|].
    rewrite IH by assumption. cbn [String.length]. lia.
Qed.

Lemma slice_before (a b : string) :
  JS.slice (a ++ "/" ++ b) 0 (Some (Z.of_nat (String.length a))) = a.
Proof.
  unfold JS.slice, JS.clamp_index. rewrite length_app.
  replace (0 <? 0) with false by reflexivity.
  destruct (Z.of_nat (String.length a) <? 0) eqn:E; [apply Z.ltb_lt in E; lia|].
  set (len := Z.of_nat (String.length a + String.length ("/" ++ b))).
  replace (Z.to_nat (Z.min 0 len)) with 0%nat by lia.
  replace (Z.to_nat (Z.max (Z.min (Z.of_nat (String.length a)) len - Z.min 0 len) 0))
    with (String.length a) by lia.
  cbn [JS.drop]. apply take_app.
Qed.

Lemma slice_after (a b : string) :
  JS.slice (a ++ "/" ++ b) (Z.of_nat (String.length a) + 1) None = b.
Proof.
  unfold JS.slice, JS.clamp_index. rewrite length_app.
  destruct (Z.of_nat (String.length a) + 1 <? 0) eqn:E; [apply Z.ltb_lt in E; lia|].
  cbn [String.length append].
  set (len := Z.of_nat (String.length a + S (String.length b))).
  replace (Z.to_nat (Z.min (Z.of_nat (String.length a) + 1) len))
    with (String.length (a ++ "/")) by (rewrite length_app; cbn [String.length]; lia).
  replace (Z.to_nat (Z.max (len - Z.min (Z.of_nat (String.length a) + 1) len) 0))
    with (String.length b) by lia.
  replace (a ++ String "/" b)%string with ((a ++ "/") ++ b)%string
    by (clear; induction a; cbn [append]; [reflexivity | now f_equal]).
  rewrite drop_app. apply take_all.
Qed.

Lemma split_cases (r : string) :
  Parser.noSlash r = true \/
  exists a b, Parser.noSlash a = true /\ r = (a ++ "/" ++ b)%string.
Proof.
  induction r as [|c r IH]; cbn [Parser.noSlash].
  - now left.
  - destruct (Ascii.eqb c "/") eqn:E.
    + right. apply Ascii.eqb_eq in E; subst c. now exists EmptyString, r.
    + destruct IH as [H | (a & b & Ha & ->)]; [now left|].
      right. exists (String c a), b. cbn [Parser.noSlash append]. now rewrite E.
Qed.

Lemma parseWith_noSlash (pat s : string) :
  Parser.noSlash (JS.replace_anchored pat s) = true ->
  Parser.parseWith pat s = Parser.mkParsed EmptyString (JS.replace_anchored pat s).
Proof.
  intros H. unfold Parser.parseWith, JS.indexOf.
  now rewrite indexOf_noSlash.
Qed.

Lemma parseWith_split (pat s a b : string) :
  Parser.noSlash a = true ->
  JS.replace_anchored pat s = (a ++ "/" ++ b)%string ->
  Parser.parseWith pat s = Parser.mkParsed a b.
Proof.
  intros Ha E. unfold Parser.parseWith, JS.indexOf. rewrite E.
  rewrite indexOf_first_slash by assumption. rewrite Z.add_0_l.
  destruct (Z.of_nat (String.length a) =? -1) eqn:N; [apply Z.eqb_eq in N; lia|].
  now rewrite slice_before, slice_after.
Qed.

Lemma parse_is_parseWith (f : Parser.Family) (s : string) :
  Parser.parse f s = Parser.parseWith (Parser.familyPrefix f ++ ":") s.
Proof. now destruct f. Qed.

(** C3.  For each of the three family prefixes [P] and every string [s],
    the parser removes a leading [P:] when it is there (otherwise the
    remainder is [s] itself) and splits the remainder [r] on its first
    [/]: without a [/] the result is the empty endpoint name and [r];
    when [r = a/b] with no [/] in [a], the result is [a] and [b], further
    [/] staying in [b].  One of the two cases always applies, so the
    parser returns a pair on every input.  In particular
    [parse (P:e/m) = (e, m)] whenever [e] has no [/]. *)
Theorem parse_strips_prefix_and_splits_on_first_slash
    (f : Parser.Family) (s e m : string) :
  (exists r,
      (s = (Parser.familyPrefix f ++ ":" ++ r)%string
       \/ ((~ exists t, s = (Parser.familyPrefix f ++ ":" ++ t)%string) /\ r = s))
      /\ (Parser.noSlash r = true ->
          Parser.parse f s = Parser.mkParsed EmptyString r)
      /\ (forall a b, Parser.noSlash a = true -> r = (a ++ "/" ++ b)%string ->
          Parser.parse f s = Parser.mkParsed a b)
      /\ (Parser.noSlash r = true
          \/ exists a b, Parser.noSlash a = true /\ r = (a ++ "/" ++ b)%string))
  /\ (Parser.noSlash e = true ->
      Parser.parse f (Parser.familyPrefix f ++ ":" ++ e ++ "/" ++ m)
      = Parser.mkParsed e m)
  /\ (exists parsed, Parser.parse f s = parsed).
Proof.
  assert (A : forall p r : string, (p ++ ":" ++ r = (p ++ ":") ++ r)%string).
  { intros p r; induction p; simpl; [reflexivity | now f_equal]. }
  split; [|split].
  - exists (JS.replace_anchored (Parser.familyPrefix f ++ ":") s).
    rewrite parse_is_parseWith.
    split; [|split; [|split]].
    + unfold JS.replace_anchored.
      destruct (JS.startsWith s (Parser.familyPrefix f ++ ":")) eqn:E.
      * left. destruct (startsWith_inv _ _ E) as [r ->].
        now rewrite drop_app, A.
      * right. split; [|reflexivity].
        intros [t ->]. rewrite A, startsWith_app in E. discriminate.
    + apply parseWith_noSlash.
    + intros a b Ha Hr. now apply parseWith_split.
    + apply split_cases.
  - intros He. rewrite parse_is_parseWith. apply parseWith_split; [assumption|].
    rewrite A. apply replace_anchored_present.
  - now eexists.
Qed.

Lemma parse_strips_prefix_and_splits_on_first_slash_witness :
  Parser.parse Parser.CustomGoogle "custom-google:my-server/models/gemini-2.0-flash"
  = Parser.mkParsed "my-server" "models/gemini-2.0-flash".
Proof.
  exact (proj1 (proj2 (parse_strips_prefix_and_splits_on_first_slash
                         Parser.CustomGoogle EmptyString
                         "my-server" "models/gemini-2.0-flash")) eq_refl).
Defined.

(** ** The effect monad *)

Lemma bind_Ok_inv {A B : Type} (m : M A) (k : A -> M B) (w w' : World) (b : B) :
  bind m k w = (Ok b, w') ->
  exists a w1, m w = (Ok a, w1) /\ k a w1 = (Ok b, w').
Proof.
  unfold bind. destruct (m w) as [[a|e] w1]; intros H.
  - now exists a, w1.
  - discriminate.
Qed.

Lemma logAndRethrow_Ok_inv {A : Type} (msg : string) (m : M A) (w w' : World) (a : A) :
  logAndRethrow msg m w = (Ok a, w') -> m w = (Ok a, w').
Proof.
  unfold logAndRethrow, tryCatch. destruct (m w) as [[x|e] w1]; intros H.
  - assumption.
  - unfold bind, log, throw in H. discriminate.
Qed.

Lemma addLogs_nil (w : World) : addLogs w [] = w.
Proof. destruct w; unfold addLogs; simpl. now rewrite app_nil_r. Qed.

Lemma addLogs_app (w : World) (l1 l2 : list LogEntry) :
  addLogs (addLogs w l1) l2 = addLogs w (l1 ++ l2).
Proof. unfold addLogs; simpl. now rewrite app_assoc. Qed.

Lemma logAndRethrow_Ok {A : Type} (msg : string) (m : M A) (w w' : World) (a : A) :
  m w = (Ok a, w') -> logAndRethrow msg m w = (Ok a, w').
Proof.
  intros H. unfold logAndRethrow, tryCatch. now rewrite H.
Qed.

(** ** Resolution decrypts each secret on its own *)

Lemma decryptApiKey_run (sv : Services) (enc : option string) (w : World) :
  decryptApiKey sv enc w
  = (Ok (keyOutcome sv enc),
     addLogs w (failureLog "Failed to decrypt API key for endpoint" enc (keyOutcome sv enc))).
Proof.
  unfold decryptApiKey, keyOutcome, failureLog, failed.
  destruct enc as [c|]; cbn [JS.truthy_opt].
  - destruct (JS.truthy c); cbn [andb].
    + unfold tryCatch, bind, decrypt, lift, ret, log.
      destruct (decryptSecret sv c); cbn; [now rewrite addLogs_nil | reflexivity].
    + unfold ret. now rewrite addLogs_nil.
  - unfold ret. cbn. now rewrite addLogs_nil.
Qed.

Lemma decryptHeaders_run (sv : Services) (enc : option string) (w : World) :
  decryptHeaders sv enc w
  = (Ok (headersOutcome sv enc),
     addLogs w (failureLog "Failed to decrypt headers for endpoint" enc (headersOutcome sv enc))).
Proof.
  unfold decryptHeaders, headersOutcome, failureLog, failed.
  destruct enc as [c|]; cbn [JS.truthy_opt].
  - destruct (JS.truthy c); cbn [andb].
    + unfold tryCatch, bind, decrypt, parseJson, lift, ret, log.
      destruct (decryptSecret sv c) as [plain|]; cbn; [|reflexivity].
      destruct (JSON_parse sv plain); cbn; [now rewrite addLogs_nil | reflexivity].
    + unfold ret. now rewrite addLogs_nil.
  - unfold ret. cbn. now rewrite addLogs_nil.
Qed.

Lemma resolveRow_run (sv : Services) (result : list Row.t) (w : World) :
  resolveRow sv (limit1 result) w
  = match result with
    | [] => (Ok None, w)
    | r :: _ => (Ok (Some (resolved sv r)), addLogs w (resolutionLog sv r))
    end.
Proof.
  destruct result as [|r rest]; [reflexivity|].
  unfold limit1; cbn [firstn resolveRow]. unfold bind.
  rewrite decryptApiKey_run, decryptHeaders_run. unfold ret.
  now rewrite addLogs_app.
Qed.

Lemma getCustomEndpointByName_run (sv : Services) (ws n : string) (w : World) :
  getCustomEndpointByName sv ws n w
  = match filter (byName ws n) (rows w) with
    | [] => (Ok None, w)
    | r :: _ => (Ok (Some (resolved sv r)), addLogs w (resolutionLog sv r))
    end.
Proof.
  unfold getCustomEndpointByName.
  assert (E : (result <- dbSelect (fun r => (Row.workspaceId r =? ws)%string
                                            && (Row.name r =? n)%string) ;;
               resolveRow sv (limit1 result))%js w
              = match filter (byName ws n) (rows w) with
                | [] => (Ok None, w)
                | r :: _ => (Ok (Some (resolved sv r)), addLogs w (resolutionLog sv r))
                end).
  { unfold bind at 1. unfold dbSelect, bind, getRows, ret. apply resolveRow_run. }
  unfold logAndRethrow, tryCatch. rewrite E.
  now destruct (filter (byName ws n) (rows w)).
Qed.

Lemma getCustomEndpointById_run (sv : Services) (i : string) (w : World) :
  getCustomEndpointById sv i w
  = match filter (byId i) (rows w) with
    | [] => (Ok None, w)
    | r :: _ => (Ok (Some (resolved sv r)), addLogs w (resolutionLog sv r))
    end.
Proof.
  unfold getCustomEndpointById.
  assert (E : (result <- dbSelect (fun r => (Row.id r =? i)%string) ;;
               resolveRow sv (limit1 result))%js w
              = match filter (byId i) (rows w) with
                | [] => (Ok None, w)
                | r :: _ => (Ok (Some (resolved sv r)), addLogs w (resolutionLog sv r))
                end).
  { unfold bind at 1. unfold dbSelect, bind, getRows, ret. apply resolveRow_run. }
  unfold logAndRethrow, tryCatch. rewrite E.
  now destruct (filter (byId i) (rows w)).
Qed.

Lemma failureLog_In {A : Type} (msg : string) (enc : option string) (o : option A) :
  JS.truthy_opt enc = true -> o = None -> In (mkLog LError msg) (failureLog msg enc o).
Proof.
  intros H ->. unfold failureLog, failed. rewrite H. now left.
Qed.

(** C5.  For every stored row that a lookup by name or by id selects,
    the resolver returns a record and never throws; its [apiKey] is
    determined by the stored key ciphertext alone and its [headers] by the
    stored header blob alone.  A key that fails to decrypt is logged and
    resolved to [null] while the headers keep their decrypted value, and a
    header blob that fails to decrypt or to parse is logged and resolved to
    [null] while the key keeps its decrypted value.  The table is left as
    it was. *)
Theorem resolution_decrypts_each_secret_on_its_own
    (sv : Services) (w : World) (ws n i : string) (r : Row.t) :
  let independent (out : Result (option CustomLlmEndpointWithCredentials.t) * World) :=
    exists c w',
      out = (Ok (Some c), w')
      /\ rows w' = rows w
      /\ CustomLlmEndpointWithCredentials.baseUrl c = Row.baseUrl r
      /\ CustomLlmEndpointWithCredentials.apiKey c = keyOutcome sv (Row.encryptedApiKey r)
      /\ CustomLlmEndpointWithCredentials.headers c
         = headersOutcome sv (Row.encryptedHeaders r)
      /\ (forall k e, Row.encryptedApiKey r = Some k -> JS.truthy k = true ->
          decryptSecret sv k = Throw e ->
          CustomLlmEndpointWithCredentials.apiKey c = None
          /\ In (mkLog LError "Failed to decrypt API key for endpoint") (logs w'))
      /\ (forall h, Row.encryptedHeaders r = Some h -> JS.truthy h = true ->
          (forall plain, decryptSecret sv h = Ok plain ->
                         exists e, JSON_parse sv plain = Throw e) ->
          CustomLlmEndpointWithCredentials.headers c = None
          /\ In (mkLog LError "Failed to decrypt headers for endpoint") (logs w')) in
  (hd_error (filter (byName ws n) (rows w)) = Some r ->
   independent (getCustomEndpointByName sv ws n w))
  /\ (hd_error (filter (byId i) (rows w)) = Some r ->
      independent (getCustomEndpointById sv i w)).
Proof.
  assert (K : forall k e, Row.encryptedApiKey r = Some k -> JS.truthy k = true ->
              decryptSecret sv k = Throw e -> keyOutcome sv (Row.encryptedApiKey r) = None).
  { intros k e E T D. rewrite E. unfold keyOutcome. now rewrite T, D. }
  assert (H : forall h, Row.encryptedHeaders r = Some h -> JS.truthy h = true ->
              (forall plain, decryptSecret sv h = Ok plain ->
                             exists e, JSON_parse sv plain = Throw e) ->
              headersOutcome sv (Row.encryptedHeaders r) = None).
  { intros h E T D. rewrite E. unfold headersOutcome. rewrite T.
    destruct (decryptSecret sv h) as [plain|]; [|reflexivity].
    destruct (D plain eq_refl) as [e ->]. reflexivity. }
  assert (G : exists c w',
             (Ok (Some (resolved sv r)), addLogs w (resolutionLog sv r)) = (Ok (Some c), w')
             /\ rows w' = rows w
             /\ CustomLlmEndpointWithCredentials.baseUrl c = Row.baseUrl r
             /\ CustomLlmEndpointWithCredentials.apiKey c
                = keyOutcome sv (Row.encryptedApiKey r)
             /\ CustomLlmEndpointWithCredentials.headers c
                = headersOutcome sv (Row.encryptedHeaders r)
             /\ (forall k e, Row.encryptedApiKey r = Some k -> JS.truthy k = true ->
                 decryptSecret sv k = Throw e ->
                 CustomLlmEndpointWithCredentials.apiKey c = None
                 /\ In (mkLog LError "Failed to decrypt API key for endpoint") (logs w'))
             /\ (forall h, Row.encryptedHeaders r = Some h -> JS.truthy h = true ->
                 (forall plain, decryptSecret sv h = Ok plain ->
                                exists e, JSON_parse sv plain = Throw e) ->
                 CustomLlmEndpointWithCredentials.headers c = None
                 /\ In (mkLog LError "Failed to decrypt headers for endpoint") (logs w'))).
  { exists (resolved sv r), (addLogs w (resolutionLog sv r)).
    repeat split; try reflexivity.
    - cbn. eapply K; eauto.
    - cbn. apply in_or_app; right. unfold resolutionLog. apply in_or_app; left.
      apply failureLog_In; [now rewrite H0 | eapply K; eauto].
    - cbn. eapply H; eauto.
    - cbn. apply in_or_app; right. unfold resolutionLog. apply in_or_app; right.
      apply failureLog_In; [now rewrite H0 | eapply H; eauto]. }
  cbv zeta. split; intros E.
  - rewrite getCustomEndpointByName_run.
    destruct (filter (byName ws n) (rows w)) as [|r0 rest]; [discriminate|].
    cbn in E. injection E as ->. exact G.
  - rewrite getCustomEndpointById_run.
    destruct (filter (byId i) (rows w)) as [|r0 rest]; [discriminate|].
    cbn in E. injection E as ->. exact G.
Qed.

Lemma resolution_decrypts_each_secret_on_its_own_witness :
  exists c w',
    getCustomEndpointByName sampleServices "ws_1" "vllm-1" (worldOf [damagedKeyRow])
    = (Ok (Some c), w')
    /\ CustomLlmEndpointWithCredentials.apiKey c = None
    /\ CustomLlmEndpointWithCredentials.headers c = Some [("X-Team", "ml")].
Proof.
  destruct (proj1 (resolution_decrypts_each_secret_on_its_own sampleServices
                     (worldOf [damagedKeyRow]) "ws_1" "vllm-1" "ep_1" damagedKeyRow)
              eq_refl)
    as (c & w' & E & _ & _ & K & H & _).
  exists c, w'. split; [exact E|]. split.
  - rewrite K. reflexivity.
  - rewrite H. reflexivity.
Defined.

(** ** Routes: a foreign endpoint id looks like a missing one *)

Lemma byId_head_foreign (w : World) (ws eid : string) :
  (forall r, In r (rows w) -> Row.id r = eid -> Row.workspaceId r <> ws) ->
  match filter (byId eid) (rows w) with
  | [] => True
  | r :: _ => (Row.workspaceId r =? ws)%string = false
  end.
Proof.
  intros H. destruct (filter (byId eid) (rows w)) as [|r rest] eqn:E; [exact I|].
  assert (R : In r (filter (byId eid) (rows w))) by (rewrite E; now left).
  apply filter_In in R. destruct R as [R1 R2].
  apply String.eqb_eq in R2. apply String.eqb_neq. now apply H.
Qed.

Lemma byId_foreign_continue {B : Type} (sv : Services) (w : World) (ws eid : string)
    (k : option CustomLlmEndpointWithCredentials.t -> M B) (kNone kForeign : M B) :
  (forall r, In r (rows w) -> Row.id r = eid -> Row.workspaceId r <> ws) ->
  k None = kNone ->
  (forall c, (CustomLlmEndpointWithCredentials.workspaceId c =? ws)%string = false ->
             k (Some c) = kForeign) ->
  exists w', rows w' = rows w
             /\ (bind (getCustomEndpointById sv eid) k w = kNone w'
                 \/ bind (getCustomEndpointById sv eid) k w = kForeign w').
Proof.
  intros F KN KF. pose proof (byId_head_foreign w ws eid F) as Hd.
  unfold bind. rewrite getCustomEndpointById_run.
  destruct (filter (byId eid) (rows w)) as [|r rest].
  - exists w. split; [reflexivity|]. left. now rewrite KN.
  - exists (addLogs w (resolutionLog sv r)). split; [reflexivity|]. right.
    now rewrite (KF (resolved sv r)).
Qed.

(** C9.  For a request with a session whose user holds the permission
    the route asks for (any permission for GET, admin for PATCH and
    DELETE): when no stored endpoint with the id of the path belongs to
    the workspace of the path -- there is none with that id, or the one
    there is belongs to another workspace -- the answer is the one
    response 404 [Endpoint not found] in either case, and the table is
    left as it was. *)
Theorem foreign_endpoint_id_answers_like_missing
    (sv : Services) (ctx : RouteContext) (ws eid userId : string) (w : World) :
  getSession ctx = Some userId ->
  JS.truthy userId = true ->
  (forall r, In r (rows w) -> Row.id r = eid -> Row.workspaceId r <> ws) ->
  let notFound := mkResponse 404 (ErrorBody "Endpoint not found") in
  (getUserEntityPermissions ctx userId ws <> None ->
   fst (GET sv ctx ws eid w) = Ok notFound
   /\ rows (snd (GET sv ctx ws eid w)) = rows w)
  /\ (getUserEntityPermissions ctx userId ws = Some admin ->
      fst (PATCH sv ctx ws eid w) = Ok notFound
      /\ rows (snd (PATCH sv ctx ws eid w)) = rows w
      /\ fst (DELETE sv ctx ws eid w) = Ok notFound
      /\ rows (snd (DELETE sv ctx ws eid w)) = rows w).
Proof.
  intros S T F notFound.
  assert (N : forall w' : World,
             json (ErrorBody "Endpoint not found") 404 w' = (Ok notFound, w'))
    by reflexivity.
  split.
  - intros P. unfold GET, tryCatch. rewrite S, T. cbn [negb].
    destruct (getUserEntityPermissions ctx userId ws) as [p|]; [|contradiction].
    match goal with
    | |- context [bind (getCustomEndpointById sv eid) ?k w] =>
        destruct (byId_foreign_continue sv w ws eid k
                    (json (ErrorBody "Endpoint not found") 404)
                    (json (ErrorBody "Endpoint not found") 404) F eq_refl)
          as (w' & R & [E|E]);
        [ intros c Hc; cbv beta; now rewrite Hc | rewrite E, N; now cbn ..]
    end.
  - intros P. unfold PATCH, DELETE, tryCatch. rewrite S, T, P. cbn [negb isAdmin].
    repeat match goal with
    | |- context [bind (getCustomEndpointById sv eid) ?k w] =>
        destruct (byId_foreign_continue sv w ws eid k
                    (json (ErrorBody "Endpoint not found") 404)
                    (json (ErrorBody "Endpoint not found") 404) F eq_refl)
          as (? & ? & [E|E]);
        [ intros c Hc; cbv beta; now rewrite Hc | rewrite E, N; clear E ..]
    end; now cbn.
Qed.

Lemma foreign_endpoint_id_answers_like_missing_witness :
  fst (GET sampleServices sampleContext "ws_2" "ep_1" (worldOf [damagedKeyRow]))
  = Ok (mkResponse 404 (ErrorBody "Endpoint not found"))
  /\ fst (DELETE sampleServices sampleContext "ws_2" "ep_1" (worldOf [damagedKeyRow]))
     = Ok (mkResponse 404 (ErrorBody "Endpoint not found")).
Proof.
  assert (F : forall r, In r (rows (worldOf [damagedKeyRow])) ->
                        Row.id r = "ep_1" -> Row.workspaceId r <> "ws_2").
  { intros r [<-|[]] _. discriminate. }
  pose proof (foreign_endpoint_id_answers_like_missing sampleServices sampleContext
                "ws_2" "ep_1" "user_1" (worldOf [damagedKeyRow])
                eq_refl eq_refl F) as [G P].
  split.
  - apply G. discriminate.
  - apply (P eq_refl).
Defined.

(** ** What [create] stores *)

Lemma keyStep_inv (sv : Services) (apiKey : option string) (w w1 : World)
    (encKey : option string) :
  (match apiKey with
   | Some k => if JS.truthy k
               then encrypted <- encrypt sv k ;; ret (Some encrypted)
               else ret None
   | None => ret None
   end)%js w = (Ok encKey, w1) ->
  encryptField sv (seeds w) (keyToEncrypt apiKey) = Ok encKey
  /\ w1 = mkWorld (rows w) (logs w) (ticks w)
            (seeds w + uses (keyToEncrypt apiKey)) (calls w).
Proof.
  unfold keyToEncrypt. destruct apiKey as [k|].
  - destruct (JS.truthy k).
    + unfold bind, encrypt, nextSeed, lift, ret, encryptField, uses. cbn.
      destruct (encryptSecret sv (seeds w) k); intros H; inversion H.
      split; [reflexivity|]. f_equal. lia.
    + unfold ret. intros H; injection H as <- <-. cbn. split; [reflexivity|].
      destruct w; cbn. f_equal. lia.
  - unfold ret. intros H; injection H as <- <-. cbn. split; [reflexivity|].
    destruct w; cbn. f_equal. lia.
Qed.

Lemma headerStep_inv (sv : Services) (headers : option Headers) (w w1 : World)
    (secret : option string * list string) :
  (match headers with
   | Some h => if (0 <? Z.of_nat (List.length (Object_keys h)))
               then encrypted <- encrypt sv (JSON_stringify sv h) ;;
                    ret (Some encrypted, Object_keys h)
               else ret (None, [])
   | None => ret (None, [])
   end)%js w = (Ok secret, w1) ->
  encryptField sv (seeds w)
    (option_map (JSON_stringify sv) (headersToEncrypt headers)) = Ok (fst secret)
  /\ snd secret = namesOf headers
  /\ w1 = mkWorld (rows w) (logs w) (ticks w)
            (seeds w + uses (headersToEncrypt headers)) (calls w).
Proof.
  assert (W : mkWorld (rows w) (logs w) (ticks w) (seeds w + 0) (calls w) = w)
    by (destruct w; cbn; f_equal; lia).
  destruct headers as [[|entry more]|]; cbn [headersToEncrypt option_map uses namesOf].
  - cbn. unfold ret. intros H; injection H as <- <-. now rewrite W.
  - cbn [Object_keys map List.length].
    replace (0 <? Z.of_nat (S (List.length (map fst more)))) with true
      by (symmetry; apply Z.ltb_lt; lia).
    unfold bind, encrypt, nextSeed, lift, ret, encryptField. cbn.
    destruct (encryptSecret sv (seeds w) _); intros H; inversion H.
    cbn. repeat split. f_equal. lia.
  - unfold ret. intros H; injection H as <- <-. now rewrite W.
Qed.

Lemma createCustomEndpoint_inv (sv : Services) (params : CreateCustomEndpointParams.t)
    (w w' : World) (e : CustomLlmEndpoint.t) :
  createCustomEndpoint sv params w = (Ok e, w') ->
  let plainKey := keyToEncrypt (CreateCustomEndpointParams.apiKey params) in
  let plainHdr := headersToEncrypt (CreateCustomEndpointParams.headers params) in
  exists encKey encHdr,
    encryptField sv (seeds w) plainKey = Ok encKey
    /\ encryptField sv (seeds w + uses plainKey)
         (option_map (JSON_stringify sv) plainHdr) = Ok encHdr
    /\ constraintsHold (rows w ++ [createdRow sv params w encKey encHdr]) = true
    /\ w' = mkWorld (rows w ++ [createdRow sv params w encKey encHdr])
              (logs w ++ [mkLog LInfo "Created custom LLM endpoint"])
              (S (S (ticks w))) (seeds w + uses plainKey + uses plainHdr) (calls w)
    /\ e = CustomLlmEndpoint.mk
             (CreateCustomEndpointParams.id params)
             (CreateCustomEndpointParams.workspaceId params)
             (CreateCustomEndpointParams.name params)
             (CreateCustomEndpointParams.baseUrl params)
             (apiTypeOrDefault (CreateCustomEndpointParams.apiType params))
             (JS.truthy_opt encKey)
             (namesOf (CreateCustomEndpointParams.headers params))
             (Some (CreateCustomEndpointParams.createdBy params))
             (clock sv (ticks w)) (clock sv (S (ticks w))).
Proof.
  intros H plainKey plainHdr. unfold createCustomEndpoint in H.
  apply logAndRethrow_Ok_inv in H.
  apply bind_Ok_inv in H. destruct H as (encKey & w1 & K & H).
  apply keyStep_inv in K. destruct K as [K ->].
  apply bind_Ok_inv in H. destruct H as (secret & w2 & S & H).
  apply headerStep_inv in S. cbn [seeds rows logs ticks calls] in S.
  destruct S as (S1 & S2 & ->).
  exists encKey, (fst secret). split; [exact K|]. split; [exact S1|].
  unfold newDate, dbInsert, bind, nextTick, getRows, putRows, ret, throw, log in H.
  cbn [seeds rows logs ticks calls] in H.
  fold (createdRow sv params w encKey (fst secret)) in H.
  destruct (constraintsHold (rows w ++ [createdRow sv params w encKey (fst secret)]));
    [|discriminate].
  injection H as <- <-. rewrite S2. repeat split.
Qed.

(** ** The unique index on (workspace, name) *)

Lemma byName_same (ws n : string) (a b : Row.t) :
  byName ws n a = true -> byName ws n b = true -> sameWorkspaceName a b = true.
Proof.
  unfold byName, sameWorkspaceName. intros A B.
  apply andb_true_iff in A, B. destruct A as [A1 A2], B as [B1 B2].
  apply String.eqb_eq in A1, A2, B1, B2. subst.
  rewrite B1, B2, !String.eqb_refl. reflexivity.
Qed.

Lemma existsb_false_In {A : Type} (p : A -> bool) (l : list A) (x : A) :
  existsb p l = false -> In x l -> p x = false.
Proof.
  intros E I. destruct (p x) eqn:P; [|reflexivity].
  assert (existsb p l = true) by (apply existsb_exists; now exists x). congruence.
Qed.

Lemma unique_name_filter (ws n : string) (l : list Row.t) :
  uniqueBy sameWorkspaceName l = true ->
  forall r rest, filter (byName ws n) l = r :: rest -> rest = [].
Proof.
  induction l as [|x l IH]; intros U r rest F; [discriminate|].
  cbn [uniqueBy] in U. apply andb_true_iff in U. destruct U as [U1 U2].
  apply negb_true_iff in U1. cbn [filter] in F.
  destruct (byName ws n x) eqn:X.
  - injection F as <- F. destruct rest as [|y rest]; [reflexivity|].
    assert (Y : In y (filter (byName ws n) l)) by (rewrite F; now left).
    apply filter_In in Y. destruct Y as [Y1 Y2].
    pose proof (existsb_false_In _ _ _ U1 Y1) as N.
    rewrite (byName_same ws n x y X Y2) in N. discriminate.
  - eauto.
Qed.

Lemma uniqueBy_app_last {A : Type} (same : A -> A -> bool) (l : list A) (x : A) :
  uniqueBy same (l ++ [x]) = true ->
  uniqueBy same l = true /\ forall y, In y l -> same y x = false.
Proof.
  induction l as [|a l IH]; cbn [app uniqueBy]; intros U.
  - split; [reflexivity | intros y []].
  - apply andb_true_iff in U. destruct U as [U1 U2]. apply negb_true_iff in U1.
    rewrite existsb_app in U1. apply orb_false_iff in U1. destruct U1 as [U1 U3].
    cbn in U3. apply orb_false_iff in U3. destruct U3 as [U3 _].
    destruct (IH U2) as [I1 I2]. split.
    + now rewrite U1, I1.
    + intros y [<-|Y]; auto.
Qed.

Lemma filter_none {A : Type} (p : A -> bool) (l : list A) :
  (forall x, In x l -> p x = false) -> filter p l = [].
Proof.
  induction l as [|a l IH]; intros H; [reflexivity|].
  cbn. rewrite (H a (or_introl eq_refl)). apply IH. intros x X. apply H. now right.
Qed.

Lemma filter_after_insert (ws n : string) (l : list Row.t) (x : Row.t) :
  uniqueBy sameWorkspaceName (l ++ [x]) = true ->
  byName ws n x = true ->
  filter (byName ws n) (l ++ [x]) = [x].
Proof.
  intros U X. apply uniqueBy_app_last in U. destruct U as [_ U].
  rewrite filter_app. cbn [filter]. rewrite X.
  rewrite filter_none; [reflexivity|].
  intros y Y. destruct (byName ws n y) eqn:E; [|reflexivity].
  specialize (U y Y). rewrite (byName_same ws n y x E X) in U. discriminate.
Qed.

Lemma isEndpointNameAvailable_run (ws n : string) (excludeId : option string) (w : World) :
  isEndpointNameAvailable ws n excludeId w
  = (Ok match filter (byName ws n) (rows w) with
        | [] => true
        | first :: _ =>
            JS.truthy_opt excludeId
            && match excludeId with
               | Some x => (Row.id first =? x)%string
               | None => false
               end
        end, w).
Proof.
  unfold isEndpointNameAvailable, logAndRethrow, tryCatch, dbSelect, getRows.
  unfold bind, ret, limit1. cbv beta iota.
  change (filter _ (rows w)) with (filter (byName ws n) (rows w)).
  destruct (filter (byName ws n) (rows w)) as [|first rest]; cbn [firstn]; [reflexivity|].
  now destruct (JS.truthy_opt excludeId && _).
Qed.

Lemma truthy_nonempty (s : string) : s <> EmptyString -> JS.truthy s = true.
Proof. destruct s; [contradiction | reflexivity]. Qed.

Lemma createdRow_byName (sv : Services) (params : CreateCustomEndpointParams.t)
    (w : World) (k h : option string) :
  byName (CreateCustomEndpointParams.workspaceId params)
    (CreateCustomEndpointParams.name params) (createdRow sv params w k h) = true.
Proof. unfold byName, createdRow; cbn. now rewrite !String.eqb_refl. Qed.

(** C8.  On a table that satisfies its unique index and whose ids are
    non-empty, [isEndpointNameAvailable ws n excludeId] returns true
    exactly when no row matches [(ws, n)], or the only matching row has
    the id [excludeId].  In particular, after a successful [create] of the
    name [gpu-1] in [ws] yielding the id [I], the name is not available,
    and it is available when [I] is excluded. *)
Theorem name_available_iff_free_or_excluded
    (sv : Services) (ws n : string) (excludeId : option string) (w : World)
    (params : CreateCustomEndpointParams.t) (w0 w1 : World) (e : CustomLlmEndpoint.t) :
  (constraintsHold (rows w) = true ->
   storedIdsNonEmpty w ->
   exists b,
     isEndpointNameAvailable ws n excludeId w = (Ok b, w)
     /\ (b = true <->
         (forall r, In r (rows w) -> byName ws n r = false)
         \/ (exists r, In r (rows w) /\ byName ws n r = true
                       /\ (forall r', In r' (rows w) -> byName ws n r' = true -> r' = r)
                       /\ excludeId = Some (Row.id r))))
  /\ (createCustomEndpoint sv params w0 = (Ok e, w1) ->
      CreateCustomEndpointParams.name params = "gpu-1" ->
      storedIdsNonEmpty w1 ->
      isEndpointNameAvailable (CreateCustomEndpointParams.workspaceId params)
        "gpu-1" None w1 = (Ok false, w1)
      /\ isEndpointNameAvailable (CreateCustomEndpointParams.workspaceId params)
           "gpu-1" (Some (CustomLlmEndpoint.id e)) w1 = (Ok true, w1)).
Proof.
  split.
  - intros C NE. rewrite isEndpointNameAvailable_run. eexists; split; [reflexivity|].
    unfold constraintsHold in C. apply andb_true_iff in C. destruct C as [_ C].
    destruct (filter (byName ws n) (rows w)) as [|first rest] eqn:F.
    + split; [|reflexivity]. intros _. left. intros r R.
      destruct (byName ws n r) eqn:B; [|reflexivity].
      assert (X : In r (filter (byName ws n) (rows w))) by (apply filter_In; now split).
      rewrite F in X. destruct X.
    + pose proof (unique_name_filter ws n _ C _ _ F) as ->.
      assert (I1 : In first (filter (byName ws n) (rows w))) by (rewrite F; now left).
      apply filter_In in I1. destruct I1 as [I1 I2].
      split.
      * intros T. right. exists first. split; [exact I1|]. split; [exact I2|].
        split.
        -- intros r' R B.
           assert (X : In r' (filter (byName ws n) (rows w))) by (apply filter_In; now split).
           rewrite F in X. destruct X as [<-|[]]. reflexivity.
        -- destruct excludeId as [x|]; [|now rewrite andb_false_r in T].
           apply andb_true_iff in T. destruct T as [_ T].
           apply String.eqb_eq in T. now subst x.
      * intros [A | (r & R & B & U & ->)].
        -- rewrite (A first I1) in I2. discriminate.
        -- rewrite (U first I1 I2). cbn [JS.truthy_opt].
           rewrite truthy_nonempty by exact (NE r R).
           now rewrite String.eqb_refl.
  - intros H N NE. apply createCustomEndpoint_inv in H. cbv zeta in H.
    destruct H as (encKey & encHdr & _ & _ & C & -> & ->).
    cbn [CustomLlmEndpoint.id] in *.
    assert (I : CreateCustomEndpointParams.id params <> EmptyString).
    { apply (NE (createdRow sv params w0 encKey encHdr)). cbn [rows].
      apply in_or_app. right. now left. }
    rewrite !isEndpointNameAvailable_run. cbn [rows].
    unfold constraintsHold in C. apply andb_true_iff in C. destruct C as [_ C].
    rewrite <- N.
    rewrite (filter_after_insert _ _ _ _ C (createdRow_byName sv params w0 encKey encHdr)).
    cbn [JS.truthy_opt andb createdRow Row.id].
    rewrite truthy_nonempty by exact I. now rewrite String.eqb_refl.
Qed.

Lemma name_available_iff_free_or_excluded_witness :
  (exists b, isEndpointNameAvailable "ws_1" "gpu-1" (Some "ep_9") afterCreate
             = (Ok b, afterCreate))
  /\ isEndpointNameAvailable "ws_1" "gpu-1" None afterCreate = (Ok false, afterCreate)
  /\ isEndpointNameAvailable "ws_1" "gpu-1" (Some "ep_9") afterCreate
     = (Ok true, afterCreate).
Proof.
  assert (I : storedIdsNonEmpty afterCreate).
  { intros r H. vm_compute in H. destruct H as [<-|[]]. discriminate. }
  destruct (name_available_iff_free_or_excluded sampleServices "ws_1" "gpu-1"
              (Some "ep_9") afterCreate gpuParams emptyWorld afterCreate gpuEndpoint)
    as [G P].
  split.
  - destruct (G eq_refl I) as (b & B & _). now exists b.
  - exact (P eq_refl eq_refl I).
Defined.

(** ** Round trip through [create] and resolution by name *)

Lemma sampleServices_sound : soundCipher sampleServices.
Proof.
  intros n plain c H. cbn in H. injection H as <-. split; [discriminate|].
  reflexivity.
Qed.

(** C4, as stated, fails: a key given as the empty string is stored as
    absent, so resolution yields [null] and not the empty string. *)
Lemma round_trip_fails_for_empty_key : ~ roundTripAsStated.
Proof.
  intros H.
  destruct (H sampleServices (paramsWithApiKey gpuParams (Some EmptyString))
              emptyWorld _ _ sampleServices_sound eq_refl)
    as (c & w'' & R & _ & K).
  cbn in R. injection R as <- _. cbn in K. discriminate.
Qed.

(** C4, amended.  With a sound encryption service, after every
    successful [create(params)] the resolution of [params.name] in
    [params.workspaceId] finds a record whose [baseUrl] is
    [params.baseUrl] and whose [apiKey] is [params.apiKey] when that is a
    non-empty string, and [null] when the key was left out or empty. *)
Theorem create_then_resolve_round_trip
    (sv : Services) (params : CreateCustomEndpointParams.t)
    (w w' : World) (e : CustomLlmEndpoint.t) :
  soundCipher sv ->
  createCustomEndpoint sv params w = (Ok e, w') ->
  exists c w'',
    getCustomEndpointByName sv (CreateCustomEndpointParams.workspaceId params)
      (CreateCustomEndpointParams.name params) w' = (Ok (Some c), w'')
    /\ CustomLlmEndpointWithCredentials.baseUrl c = CreateCustomEndpointParams.baseUrl params
    /\ CustomLlmEndpointWithCredentials.apiKey c
       = keyToEncrypt (CreateCustomEndpointParams.apiKey params).
Proof.
  intros S H. apply createCustomEndpoint_inv in H. cbv zeta in H.
  destruct H as (encKey & encHdr & K & _ & C & -> & _).
  rewrite getCustomEndpointByName_run. cbn [rows].
  unfold constraintsHold in C. apply andb_true_iff in C. destruct C as [_ C].
  rewrite (filter_after_insert _ _ _ _ C (createdRow_byName sv params w encKey encHdr)).
  eexists _, _. split; [reflexivity|]. split; [reflexivity|].
  cbn [resolved withCredentials CustomLlmEndpointWithCredentials.apiKey
       createdRow Row.encryptedApiKey].
  unfold encryptField in K.
  destruct (keyToEncrypt (CreateCustomEndpointParams.apiKey params)) as [k|].
  - destruct (encryptSecret sv (seeds w) k) as [c|] eqn:E; [|discriminate].
    injection K as <-. destruct (S _ _ _ E) as [N D].
    unfold keyOutcome. now rewrite (truthy_nonempty c N), D.
  - now injection K as <-.
Qed.

Lemma create_then_resolve_round_trip_witness :
  exists c w'',
    getCustomEndpointByName sampleServices "ws_1" "gpu-1" afterCreate = (Ok (Some c), w'')
    /\ CustomLlmEndpointWithCredentials.baseUrl c = "https://gpu:8000"
    /\ CustomLlmEndpointWithCredentials.apiKey c = Some "sk-abc".
Proof.
  exact (create_then_resolve_round_trip sampleServices gpuParams emptyWorld afterCreate
           gpuEndpoint sampleServices_sound eq_refl).
Defined.

(** ** Empty secrets in [create] *)

Lemma encryptField_Some_inv (sv : Services) (n : nat) (plain : option string) (c : string) :
  encryptField sv n plain = Ok (Some c) ->
  exists p, plain = Some p /\ encryptSecret sv n p = Ok c.
Proof.
  unfold encryptField. destruct plain as [p|]; [|discriminate].
  destruct (encryptSecret sv n p) eqn:E; [|discriminate].
  intros H; injection H as <-. now exists p.
Qed.

Lemma keyToEncrypt_Some_inv (apiKey : option string) (k : string) :
  keyToEncrypt apiKey = Some k -> apiKey = Some k /\ k <> EmptyString.
Proof.
  unfold keyToEncrypt. destruct apiKey as [x|]; [|discriminate].
  destruct x; cbn; [discriminate|]. intros H; injection H as <-. now split.
Qed.

Lemma headersToEncrypt_Some_inv (headers : option Headers) (h : Headers) :
  headersToEncrypt headers = Some h -> headers = Some h /\ h <> [].
Proof.
  unfold headersToEncrypt. destruct headers as [[|x l]|]; try discriminate.
  intros H; injection H as <-. now split.
Qed.

(** C10, as stated, fails in its last sentence: [update] with a key
    given as the empty string encrypts it and stores the ciphertext. *)
Lemma update_stores_encrypted_empty_key : ~ neverStoresEncryptedEmptyKey.
Proof.
  intros H.
  set (patch := UpdateCustomEndpointParams.mk None None (Value EmptyString) Omitted).
  set (w2 := snd (updateCustomEndpoint sampleServices "ep_9" patch afterCreate)).
  assert (R : reachable sampleServices w2).
  { apply (reachStep _ afterCreate).
    - apply (reachStep _ emptyWorld); [constructor|]. apply (stepCreate _ gpuParams).
    - apply stepUpdate. }
  apply (H sampleServices w2
           (Row.mk "ep_9" "ws_1" "gpu-1" "https://gpu:8000" (Some openai)
              (Some "enc:") None (Some "user_1") 1700000000000 1700000000002)
           "enc:" sampleServices_sound R).
  - now left.
  - reflexivity.
  - reflexivity.
Qed.

(** C10, amended.  In [create], a key given as the empty string is
    treated exactly like a key left out, and a header mapping without keys
    exactly like one left out.  After a successful [create] with such a
    key the stored key is [null] and [hasApiKey] is false; with such a
    mapping the stored header blob is [null] and [headerNames] is empty;
    with both, nothing is encrypted.  A key that [create] stores is the
    encryption of the non-empty key of the parameters, and a header blob
    it stores is the encryption of their non-empty mapping: [create] never
    stores an encrypted empty secret. *)
Theorem create_treats_empty_secret_as_absent
    (sv : Services) (params : CreateCustomEndpointParams.t)
    (w w' : World) (e : CustomLlmEndpoint.t) :
  createCustomEndpoint sv (paramsWithApiKey params (Some EmptyString)) w
  = createCustomEndpoint sv (paramsWithApiKey params None) w
  /\ createCustomEndpoint sv (paramsWithHeaders params (Some [])) w
     = createCustomEndpoint sv (paramsWithHeaders params None) w
  /\ (createCustomEndpoint sv params w = (Ok e, w') ->
      exists row,
        rows w' = (rows w ++ [row])%list
        /\ (CreateCustomEndpointParams.apiKey params = None
            \/ CreateCustomEndpointParams.apiKey params = Some EmptyString ->
            Row.encryptedApiKey row = None /\ CustomLlmEndpoint.hasApiKey e = false)
        /\ (CreateCustomEndpointParams.headers params = None
            \/ CreateCustomEndpointParams.headers params = Some [] ->
            Row.encryptedHeaders row = None /\ CustomLlmEndpoint.headerNames e = [])
        /\ (keyToEncrypt (CreateCustomEndpointParams.apiKey params) = None ->
            headersToEncrypt (CreateCustomEndpointParams.headers params) = None ->
            seeds w' = seeds w)
        /\ (forall c, Row.encryptedApiKey row = Some c ->
            exists k, CreateCustomEndpointParams.apiKey params = Some k
                      /\ k <> EmptyString
                      /\ encryptSecret sv (seeds w) k = Ok c)
        /\ (forall c, Row.encryptedHeaders row = Some c ->
            exists h n, CreateCustomEndpointParams.headers params = Some h
                        /\ h <> []
                        /\ encryptSecret sv n (JSON_stringify sv h) = Ok c)).
Proof.
  split; [reflexivity|]. split; [reflexivity|].
  intros H. apply createCustomEndpoint_inv in H. cbv zeta in H.
  destruct H as (encKey & encHdr & K & Hd & _ & -> & ->).
  exists (createdRow sv params w encKey encHdr). cbn.
  split; [reflexivity|]. split; [|split; [|split; [|split]]].
  - intros [E|E]; rewrite E in K; cbn in K; injection K as <-; now split.
  - intros [E|E]; rewrite E in Hd |- *; cbn in Hd; injection Hd as <-; now split.
  - intros -> ->. cbn. lia.
  - intros c ->. apply encryptField_Some_inv in K. destruct K as (k & K1 & K2).
    apply keyToEncrypt_Some_inv in K1. destruct K1 as [K1 K3]. now exists k.
  - intros c ->. apply encryptField_Some_inv in Hd. destruct Hd as (p & P1 & P2).
    destruct (headersToEncrypt (CreateCustomEndpointParams.headers params)) as [h|] eqn:E;
      [|discriminate].
    cbn in P1. injection P1 as <-.
    apply headersToEncrypt_Some_inv in E. destruct E as [E1 E2].
    now exists h, (seeds w + uses (keyToEncrypt (CreateCustomEndpointParams.apiKey params)))%nat.
Qed.

Lemma create_treats_empty_secret_as_absent_witness :
  exists row,
    rows (snd (createCustomEndpoint sampleServices
                 (paramsWithApiKey gpuParams (Some EmptyString)) emptyWorld)) = [row]
    /\ Row.encryptedApiKey row = None
    /\ Row.encryptedHeaders row = None.
Proof.
  destruct (proj2 (proj2 (create_treats_empty_secret_as_absent sampleServices
                            (paramsWithApiKey gpuParams (Some EmptyString))
                            emptyWorld _ _)) eq_refl)
    as (row & R & K & H & _).
  exists row. split; [exact R|]. split.
  - apply K. now right.
  - apply H. now left.
Defined.

(** ** What [update] stores and returns *)

Lemma applyUpdates_id (u : Updates) (r : Row.t) : Row.id (applyUpdates u r) = Row.id r.
Proof. reflexivity. Qed.

Lemma filter_byId_map (i : string) (u : Updates) (l : list Row.t) :
  filter (byId i) (map (fun r => if (Row.id r =? i)%string then applyUpdates u r else r) l)
  = map (applyUpdates u) (filter (byId i) l).
Proof.
  induction l as [|r l IH]; [reflexivity|].
  cbn [map filter].
  assert (B : byId i r = (Row.id r =? i)%string) by reflexivity.
  destruct (Row.id r =? i)%string eqn:E.
  - assert (B' : byId i (applyUpdates u r) = true) by (unfold byId; now rewrite applyUpdates_id).
    rewrite B, B'. cbn [map]. now f_equal.
  - now rewrite B, IH.
Qed.

Lemma recoverHeaderNames_run (sv : Services) (given : option (list string))
    (stored : option string) (w : World) :
  exists w',
    recoverHeaderNames sv given stored w
    = (Ok match given with
          | Some names => Some names
          | None => if JS.truthy_opt stored
                    then Some (namesOf (headersOutcome sv stored))
                    else None
          end, w')
    /\ rows w' = rows w /\ ticks w' = ticks w /\ seeds w' = seeds w.
Proof.
  unfold recoverHeaderNames, headersOutcome.
  destruct given as [names|]; [now exists w|].
  destruct stored as [c|]; [|now exists w]. cbn [JS.truthy_opt].
  destruct (JS.truthy c); [|now exists w].
  unfold tryCatch, bind, decrypt, parseJson, lift, ret, log.
  destruct (decryptSecret sv c) as [plain|]; cbn.
  - destruct (JSON_parse sv plain); cbn; eexists; repeat split.
  - eexists; repeat split.
Qed.

Lemma updateCustomEndpoint_inv (sv : Services) (endpointId : string)
    (params : UpdateCustomEndpointParams.t) (w w' : World) (e : CustomLlmEndpoint.t) :
  updateCustomEndpoint sv endpointId params w = (Ok e, w') ->
  exists newKey newHdr n old rest,
    keyAssigned sv (seeds w) (UpdateCustomEndpointParams.apiKey params) newKey
    /\ headersAssigned sv n (UpdateCustomEndpointParams.headers params) newHdr
    /\ let u := mkUpdates (clock sv (ticks w))
                  (UpdateCustomEndpointParams.name params)
                  (UpdateCustomEndpointParams.baseUrl params) newKey newHdr in
       rows w' = map (fun r => if (Row.id r =? endpointId)%string
                               then applyUpdates u r else r) (rows w)
       /\ constraintsHold (rows w') = true
       /\ filter (byId endpointId) (rows w) = old :: rest
       /\ ticks w' = S (ticks w)
       /\ e = CustomLlmEndpoint.mk
                (Row.id old) (Row.workspaceId old)
                (Row.name (applyUpdates u old)) (Row.baseUrl (applyUpdates u old))
                (apiTypeOrDefault (Row.apiType old))
                (JS.truthy_opt (Row.encryptedApiKey (applyUpdates u old)))
                (namesAfterUpdate sv (UpdateCustomEndpointParams.headers params)
                   (Row.encryptedHeaders (applyUpdates u old)))
                (Row.createdBy old) (Row.createdAt old) (clock sv (ticks w)).
Proof.
  intros H. unfold updateCustomEndpoint in H. apply logAndRethrow_Ok_inv in H.
  apply bind_Ok_inv in H. destruct H as (now & w1 & T & H).
  unfold newDate, bind, nextTick, ret in T. injection T as <- <-.
  apply bind_Ok_inv in H. destruct H as (newKey & w2 & K & H).
  assert (K' : keyAssigned sv (seeds w) (UpdateCustomEndpointParams.apiKey params) newKey
               /\ rows w2 = rows w /\ ticks w2 = S (ticks w)).
  { unfold keyAssigned. destruct (UpdateCustomEndpointParams.apiKey params) as [| |k].
    - unfold ret in K. now injection K as <- <-.
    - unfold ret in K. now injection K as <- <-.
    - unfold bind, encrypt, nextSeed, lift, ret in K. cbn in K.
      destruct (encryptSecret sv (seeds w) k) as [c|]; [|discriminate].
      injection K as <- <-. split; [now exists c | now split]. }
  clear K. destruct K' as (K & R2 & T2).
  apply bind_Ok_inv in H. destruct H as (newHeaders & w3 & Hd & H).
  assert (Hd' : headersAssigned sv (seeds w2) (UpdateCustomEndpointParams.headers params)
                  (fst newHeaders)
                /\ snd newHeaders
                   = match UpdateCustomEndpointParams.headers params with
                     | Omitted => None
                     | Null => Some []
                     | Value h => Some (Object_keys h)
                     end
                /\ rows w3 = rows w /\ ticks w3 = S (ticks w)).
  { unfold headersAssigned.
    destruct (UpdateCustomEndpointParams.headers params) as [| |[|x h]].
    - unfold ret in Hd. now injection Hd as <- <-.
    - unfold ret in Hd. now injection Hd as <- <-.
    - cbn in Hd. unfold ret in Hd. now injection Hd as <- <-.
    - cbn [Object_keys map List.length] in Hd.
      replace (0 <? Z.of_nat (S (List.length (map fst h)))) with true in Hd
        by (symmetry; apply Z.ltb_lt; lia).
      unfold bind, encrypt, nextSeed, lift, ret in Hd. cbn in Hd.
      destruct (encryptSecret sv (seeds w2) _) as [c|]; [|discriminate].
      injection Hd as <- <-. cbn. split; [now exists c | now repeat split]. }
  clear Hd. destruct Hd' as (Hd & N & R3 & T3).
  apply bind_Ok_inv in H. destruct H as (returned & w4 & U & H).
  unfold dbUpdate, bind, getRows, putRows, ret, throw in U. rewrite R3 in U.
  match type of U with
  | context [constraintsHold ?rs] =>
      destruct (constraintsHold rs) eqn:C; [|discriminate]
  end.
  injection U as <- <-.
  change (filter _ (map ?f (rows w))) with (filter (byId endpointId) (map f (rows w))) in H.
  rewrite filter_byId_map in H.
  destruct (filter (byId endpointId) (rows w)) as [|old rest] eqn:F;
    [discriminate|].
  cbn [map] in H.
  apply bind_Ok_inv in H. destruct H as (names & w5 & RH & H).
  destruct (recoverHeaderNames_run sv (snd newHeaders)
              (Row.encryptedHeaders
                 (applyUpdates
                    (mkUpdates (clock sv (ticks w))
                       (UpdateCustomEndpointParams.name params)
                       (UpdateCustomEndpointParams.baseUrl params) newKey (fst newHeaders))
                    old))
              (mkWorld
                 (map (fun r => if (Row.id r =? endpointId)%string
                                then applyUpdates
                                       (mkUpdates (clock sv (ticks w))
                                          (UpdateCustomEndpointParams.name params)
                                          (UpdateCustomEndpointParams.baseUrl params)
                                          newKey (fst newHeaders)) r
                                else r) (rows w))
                 (logs w3) (ticks w3) (seeds w3) (calls w3)))
    as (w5' & RH' & R5 & T5 & _).
  rewrite RH' in RH. injection RH as <- <-.
  unfold bind, log, ret in H. injection H as <- <-.
  exists newKey, (fst newHeaders), (seeds w2), old, rest.
  split; [exact K|]. split; [exact Hd|]. cbv zeta. cbn [rows ticks].
  rewrite R5, T5. cbn [rows ticks].
  split; [reflexivity|]. split; [exact C|]. split; [reflexivity|].
  split; [exact T3|].
  f_equal. rewrite N. unfold namesAfterUpdate.
  destruct (UpdateCustomEndpointParams.headers params) as [| |h]; try reflexivity.
  cbn [applyUpdates Row.encryptedHeaders set_encryptedHeaders].
  generalize (orKeep (fst newHeaders) (Row.encryptedHeaders old)).
  intros [c|]; cbn [JS.truthy_opt]; [|reflexivity].
  unfold headersOutcome. now destruct (JS.truthy c).
Qed.

Lemma uniqueBy_map {A : Type} (same : A -> A -> bool) (f : A -> A) (l : list A) :
  (forall a b, same (f a) (f b) = same a b) ->
  uniqueBy same (map f l) = uniqueBy same l.
Proof.
  intros H. induction l as [|x l IH]; [reflexivity|].
  cbn [map uniqueBy]. rewrite IH. f_equal. f_equal.
  clear IH. induction l as [|y l IH]; [reflexivity|].
  cbn [map existsb]. now rewrite H, IH.
Qed.

Lemma constraints_survive_update (i : string) (u : Updates) (rs : list Row.t) :
  set_name u = None ->
  constraintsHold (map (fun r => if (Row.id r =? i)%string then applyUpdates u r else r) rs)
  = constraintsHold rs.
Proof.
  intros N. unfold constraintsHold.
  rewrite !uniqueBy_map; [reflexivity| |].
  - intros a b. unfold sameWorkspaceName.
    destruct (Row.id a =? i)%string, (Row.id b =? i)%string; cbn; now rewrite ?N.
  - intros a b. unfold sameId.
    now destruct (Row.id a =? i)%string, (Row.id b =? i)%string.
Qed.

(** An update that does not rename succeeds on every stored endpoint
    of a table satisfying its constraints, provided the encryptions it
    asks for succeed. *)
Lemma update_without_rename_succeeds (sv : Services) (endpointId : string)
    (params : UpdateCustomEndpointParams.t) (w : World) (old : Row.t) :
  constraintsHold (rows w) = true ->
  In old (rows w) -> Row.id old = endpointId ->
  UpdateCustomEndpointParams.name params = None ->
  (forall n plain, exists c, encryptSecret sv n plain = Ok c) ->
  exists e w', updateCustomEndpoint sv endpointId params w = (Ok e, w').
Proof.
  intros C I E N Enc.
  assert (F : exists first rest, filter (byId endpointId) (rows w) = first :: rest).
  { destruct (filter (byId endpointId) (rows w)) as [|first rest] eqn:F.
    - assert (X : In old (filter (byId endpointId) (rows w))).
      { apply filter_In. split; [exact I|]. unfold byId. now apply String.eqb_eq. }
      rewrite F in X. destruct X.
    - now exists first, rest. }
  destruct F as (first & rest & F).
  set (w1 := mkWorld (rows w) (logs w) (S (ticks w)) (seeds w) (calls w)).
  assert (K : exists newKey w2,
             (match UpdateCustomEndpointParams.apiKey params with
              | Omitted => ret None
              | Null => ret (Some None)
              | Value k => encrypted <- encrypt sv k ;; ret (Some (Some encrypted))
              end)%js w1 = (Ok newKey, w2) /\ rows w2 = rows w).
  { destruct (UpdateCustomEndpointParams.apiKey params) as [| |k].
    - now exists None, w1.
    - now exists (Some None), w1.
    - destruct (Enc (seeds w1) k) as [c Ec].
      eexists _, _. unfold bind, encrypt, nextSeed, lift, ret. cbn. cbn in Ec.
      rewrite Ec. split; reflexivity. }
  destruct K as (newKey & w2 & K & R2).
  assert (H : exists newHeaders w3,
             (match UpdateCustomEndpointParams.headers params with
              | Omitted => ret (None, None)
              | Null => ret (Some None, Some [])
              | Value h =>
                  if (0 <? Z.of_nat (List.length (Object_keys h)))
                  then encrypted <- encrypt sv (JSON_stringify sv h) ;;
                       ret (Some (Some encrypted), Some (Object_keys h))
                  else ret (Some None, Some [])
              end)%js w2 = (Ok newHeaders, w3) /\ rows w3 = rows w).
  { destruct (UpdateCustomEndpointParams.headers params) as [| |h].
    - now exists (None, None), w2.
    - now exists (Some None, Some []), w2.
    - destruct (0 <? Z.of_nat (List.length (Object_keys h))).
      + destruct (Enc (seeds w2) (JSON_stringify sv h)) as [c Ec].
        eexists _, _. unfold bind, encrypt, nextSeed, lift, ret. cbn.
        rewrite Ec. split; [reflexivity | exact R2].
      + now exists (Some None, Some []), w2. }
  destruct H as (newHeaders & w3 & H & R3).
  destruct (recoverHeaderNames_run sv (snd newHeaders)
              (Row.encryptedHeaders
                 (applyUpdates
                    (mkUpdates (clock sv (ticks w))
                       (UpdateCustomEndpointParams.name params)
                       (UpdateCustomEndpointParams.baseUrl params) newKey (fst newHeaders))
                    first))
              (mkWorld
                 (map (fun r => if (Row.id r =? endpointId)%string
                                then applyUpdates
                                       (mkUpdates (clock sv (ticks w))
                                          (UpdateCustomEndpointParams.name params)
                                          (UpdateCustomEndpointParams.baseUrl params)
                                          newKey (fst newHeaders)) r
                                else r) (rows w))
                 (logs w3) (ticks w3) (seeds w3) (calls w3)))
    as (w5 & RH & _).
  unfold updateCustomEndpoint. eexists _, _.
  apply logAndRethrow_Ok.
  unfold newDate. unfold bind at 1. unfold bind at 1. unfold nextTick, ret at 1.
  cbv beta iota. fold w1.
  unfold bind at 1. rewrite K.
  unfold bind at 1. rewrite H.
  unfold bind at 1. unfold dbUpdate, getRows. unfold bind at 1. unfold ret at 1.
  cbv beta iota. rewrite R3.
  rewrite constraints_survive_update by (cbn; exact N). rewrite C.
  unfold bind at 1. unfold putRows, ret at 1. cbv beta iota.
  change (filter _ (map ?f (rows w))) with (filter (byId endpointId) (map f (rows w))).
  rewrite filter_byId_map, F. cbn [map].
  unfold bind at 1. rewrite RH. reflexivity.
Qed.



(** ** Dispatcher: a named endpoint that does not exist *)

Lemma resolveCustomEndpoint_missing (sv : Services) (f : Parser.Family) (wsid : string)
    (request resolvedRequest : ProviderRequest.t) (w : World) :
  let endpointName :=
    Parser.endpointName (Parser.parse f (ProviderRequest.model request)) in
  JS.truthy endpointName = true ->
  (forall r, In r (rows w) -> byName wsid endpointName r = false) ->
  resolveCustomEndpoint sv f wsid request resolvedRequest w
  = (Throw (Error (notFoundMessage endpointName)),
     addLogs w [mkLog LError "Failed to resolve custom LLM endpoint:"]).
Proof.
  intros endpointName T F. unfold resolveCustomEndpoint. fold endpointName. rewrite T.
  unfold tryCatch, bind. rewrite getCustomEndpointByName_run.
  rewrite (filter_none _ _ F). reflexivity.
Qed.

(** C2.  For a request to one of the three custom families that carries
    a workspace id and whose model reference parses to a non-empty endpoint
    name matching no endpoint of that workspace, [executeProviderRequest]
    rejects, hands no request to any provider executor and leaves the table
    as it was; with the provider registered, the error is the one that
    names the missing endpoint. *)
Theorem missing_endpoint_is_fatal
    (sv : Services) (co : Collaborators) (f : Parser.Family)
    (request : ProviderRequest.t) (wsid : string) (w : World) :
  ProviderRequest.workspaceId request = Some wsid ->
  JS.truthy wsid = true ->
  let endpointName :=
    Parser.endpointName (Parser.parse f (ProviderRequest.model request)) in
  JS.truthy endpointName = true ->
  (forall r, In r (rows w) -> byName wsid endpointName r = false) ->
  let out := executeProviderRequest sv co (Parser.familyPrefix f) request w in
  (exists e, fst out = Throw e)
  /\ calls (snd out) = calls w
  /\ rows (snd out) = rows w
  /\ (forall provider run,
        getProviderExecutor co (Parser.familyPrefix f) = Some provider ->
        executeRequest provider = Some run ->
        fst out = Throw (Error (notFoundMessage endpointName))).
Proof.
  intros W T endpointName E F.
  assert (R : forall provider run,
             getProviderExecutor co (Parser.familyPrefix f) = Some provider ->
             executeRequest provider = Some run ->
             executeProviderRequest sv co (Parser.familyPrefix f) request w
             = (Throw (Error (notFoundMessage endpointName)),
                addLogs w [mkLog LError "Failed to resolve custom LLM endpoint:"])).
  { intros provider run P X. unfold executeProviderRequest, resolveCredentials.
    rewrite P, X, W. cbn [JS.truthy_opt JS.or_else]. rewrite T.
    destruct f; cbn [Parser.familyPrefix];
      repeat match goal with
             | |- context [String.eqb ?a ?b] =>
                 first [ change (String.eqb a b) with true
                       | change (String.eqb a b) with false ]
             end;
      cbn [andb];
      unfold bind at 1; unfold bind at 1;
      rewrite (resolveCustomEndpoint_missing sv _ wsid request _ w E F);
      reflexivity. }
  intros out.
  destruct (getProviderExecutor co (Parser.familyPrefix f)) as [provider|] eqn:P.
  - destruct (executeRequest provider) as [run|] eqn:X.
    + subst out. rewrite (R provider run eq_refl X). cbn.
      repeat split; eauto.
    + subst out. unfold executeProviderRequest. rewrite P, X. cbn.
      repeat split; eauto. intros ? ? H1 H2. injection H1 as <-. congruence.
  - subst out. unfold executeProviderRequest. rewrite P. cbn.
    repeat split; eauto. intros ? ? H1. discriminate.
Qed.

Lemma missing_endpoint_is_fatal_witness :
  fst (executeProviderRequest sampleServices sampleCollaborators "custom-openai"
         (sampleRequest "custom-openai:ghost/gpt-x" "ws_1") afterCreate)
  = Throw (Error (notFoundMessage "ghost"))
  /\ calls (snd (executeProviderRequest sampleServices sampleCollaborators "custom-openai"
                   (sampleRequest "custom-openai:ghost/gpt-x" "ws_1") afterCreate))
     = [].
Proof.
  assert (F : forall r, In r (rows afterCreate) -> byName "ws_1" "ghost" r = false).
  { intros r [<-|[]]. reflexivity. }
  destruct (missing_endpoint_is_fatal sampleServices sampleCollaborators
              Parser.CustomOpenAI (sampleRequest "custom-openai:ghost/gpt-x" "ws_1")
              "ws_1" afterCreate eq_refl eq_refl eq_refl F)
    as (_ & C & _ & N).
  split.
  - exact (N sampleProvider _ eq_refl eq_refl).
  - exact C.
Defined.

(** ** Dispatcher: billing *)

(** C1, as stated, fails: a request resolved through a custom endpoint is
    sent with [isBYOK] false, and when the model of the response is one the
    billing collaborator charges, the cost is the calculated one. *)
Lemma custom_endpoint_usage_is_billed : ~ billingBypassAsStated.
Proof.
  intros H.
  destruct (H sampleServices sampleCollaborators "custom-openai"
              (sampleRequest "custom-openai:gpu-1/gpt-4o" "ws_1") afterCreate _ _
              eq_refl)
    as (c & C & T).
  - discriminate.
  - left. exists Parser.CustomOpenAI, "ws_1". repeat split.
  - cbn in C. injection C as <-. cbn in T. unfold Qeq in T. cbn in T. discriminate.
Qed.

Lemma withIsBYOK_isBYOK (r : ProviderRequest.t) (b : option bool) :
  ProviderRequest.isBYOK (withIsBYOK r b) = b.
Proof. now destruct r. Qed.

Lemma applyResponseFormat_run (co : Collaborators) (r : ProviderRequest.t) (w : World) :
  exists r' w',
    applyResponseFormat co r w = (Ok r', w')
    /\ ProviderRequest.isBYOK r' = ProviderRequest.isBYOK r
    /\ calls w' = calls w /\ rows w' = rows w.
Proof.
  unfold applyResponseFormat.
  destruct (truthyFormat (ProviderRequest.responseFormat r)); [|now exists r, w].
  destruct (ProviderRequest.responseFormat r) as [rf|]; [|now exists r, w].
  destruct (isEmptyStringFormat rf).
  - eexists _, _. unfold bind, log, ret. cbn. split; [reflexivity|]. now destruct r.
  - destruct (JS.truthy _); [|now exists r, w].
    eexists _, _. unfold bind, log, ret. cbn. split; [reflexivity|]. now destruct r.
Qed.

Lemma resolveCustomEndpoint_calls (sv : Services) (f : Parser.Family) (wsid : string)
    (request resolvedRequest : ProviderRequest.t) (w w1 : World)
    (res : Result ProviderRequest.t) :
  resolveCustomEndpoint sv f wsid request resolvedRequest w = (res, w1) ->
  calls w1 = calls w.
Proof.
  unfold resolveCustomEndpoint.
  destruct (JS.truthy _).
  - unfold tryCatch, bind. rewrite getCustomEndpointByName_run.
    destruct (filter _ (rows w)) as [|r rest]; cbn; intros H; now injection H as <- <-.
  - unfold ret. intros H; now injection H as <- <-.
Qed.

Lemma attachCost_inv (sv : Services) (co : Collaborators) (request : ProviderRequest.t)
    (isBYOK : bool) (r0 r : ProviderResponse.t) (w w' : World) :
  attachCost sv co request isBYOK r0 w = (Ok r, w') ->
  ProviderResponse.tokens r <> None ->
  calls w' = calls w
  /\ exists c,
       ProviderResponse.cost r = Some c
       /\ (isBYOK = true \/ shouldBillModelUsage co (ProviderResponse.model r) = false ->
           Cost.total c = 0%Q)
       /\ (isBYOK = false -> shouldBillModelUsage co (ProviderResponse.model r) = true ->
           c = billedCost co request r).
Proof.
  unfold attachCost. destruct (ProviderResponse.tokens r0) as [t|] eqn:Tk.
  - destruct (shouldBillModelUsage co (ProviderResponse.model r0) && negb isBYOK) eqn:B.
    + unfold ret. intros H _. injection H as <- <-. split; [reflexivity|].
      apply andb_true_iff in B. destruct B as [B1 B2]. apply negb_true_iff in B2.
      eexists; split; [reflexivity|]. cbn [ProviderResponse.model]. split.
      * intros [E|E]; congruence.
      * intros _ _. unfold billedCost. cbn. now rewrite ?Tk.
    + unfold bind, newDate, nextTick, log, ret. cbn. intros H _. injection H as <- <-.
      split; [reflexivity|]. eexists; split; [reflexivity|].
      cbn [ProviderResponse.model]. split; [reflexivity|].
      intros E1 E2. rewrite E1, E2 in B. discriminate.
  - unfold ret. intros H N. injection H as <- <-. congruence.
Qed.

(** C1, amended.  For every response with token usage that
    [executeProviderRequest] returns: the request handed to the executor
    carries the [isBYOK] flag of the resolution, which for a provider
    outside the custom families is the flag returned by the
    bring-your-own-key lookup; when that flag is set, or
    when the billing collaborator does not charge the model of the
    response, the total cost is zero.  A request resolved through a custom
    endpoint is sent with the flag false, so its cost is zero when the
    model of the response is not charged, and is the calculated cost
    otherwise. *)
Theorem byok_usage_is_not_billed
    (sv : Services) (co : Collaborators) (providerId : string)
    (request : ProviderRequest.t) (w w' : World) (r : ProviderResponse.t) :
  executeProviderRequest sv co providerId request w = (Ok (Response r), w') ->
  ProviderResponse.tokens r <> None ->
  exists sent isBYOK,
    calls w' = (calls w ++ [sent])%list
    /\ ProviderRequest.isBYOK sent = Some isBYOK
    /\ (throughCustomEndpoint providerId request -> isBYOK = false)
    /\ (genericProvider providerId ->
        forall wsid key flag,
          ProviderRequest.workspaceId request = Some wsid ->
          JS.truthy wsid = true ->
          getApiKeyWithBYOK co providerId (ProviderRequest.model request) wsid
            (ProviderRequest.apiKey request) = Ok (key, flag) ->
          isBYOK = flag)
    /\ exists c,
         ProviderResponse.cost r = Some c
         /\ (isBYOK = true \/ shouldBillModelUsage co (ProviderResponse.model r) = false ->
             Cost.total c = 0%Q)
         /\ (isBYOK = false -> shouldBillModelUsage co (ProviderResponse.model r) = true ->
             c = billedCost co request r).
Proof.
  intros H Tk. unfold executeProviderRequest in H.
  destruct (getProviderExecutor co providerId) as [provider|]; [|discriminate].
  destruct (executeRequest provider) as [run|]; [|discriminate].
  apply bind_Ok_inv in H. destruct H as ([resolvedRequest isBYOK] & w1 & R & H).
  cbn [fst snd] in H.
  apply bind_Ok_inv in H. destruct H as (sent & w2 & A & H).
  destruct (applyResponseFormat_run co (withIsBYOK resolvedRequest (Some isBYOK)) w1)
    as (sent' & w2' & A' & B & C2 & _).
  rewrite A' in A. injection A as <- <-. rewrite withIsBYOK_isBYOK in B.
  unfold bind at 1 in H. unfold recordCall in H.
  apply bind_Ok_inv in H. destruct H as (response & w3 & L & H).
  unfold lift in L. injection L as L <-.
  destruct response as [s|s|r0].
  - unfold bind, log, ret in H. discriminate.
  - unfold bind, log, ret in H. discriminate.
  - apply bind_Ok_inv in H. destruct H as (billed & w4 & AC & H).
    unfold ret in H. injection H as -> <-.
    apply attachCost_inv in AC; [|exact Tk]. cbn [calls] in AC.
    destruct AC as (C4 & c & AC).
    assert (C1 : calls w1 = calls w
                 /\ (throughCustomEndpoint providerId request -> isBYOK = false)
                 /\ (genericProvider providerId ->
                     forall wsid key flag,
                       ProviderRequest.workspaceId request = Some wsid ->
                       JS.truthy wsid = true ->
                       getApiKeyWithBYOK co providerId (ProviderRequest.model request) wsid
                         (ProviderRequest.apiKey request) = Ok (key, flag) ->
                       isBYOK = flag)).
    { unfold resolveCredentials in R.
      destruct (ProviderRequest.workspaceId request) as [wsid|] eqn:W.
      2:{ cbn [JS.truthy_opt] in R. rewrite !andb_false_r in R.
          unfold ret in R. injection R as _ <- <-. split; [reflexivity|]. split.
          - intros (f & x & _ & X & _). congruence.
          - intros _ x key flag X. discriminate. }
      cbn [JS.truthy_opt JS.or_else] in R.
      destruct (JS.truthy wsid) eqn:T.
      2:{ rewrite !andb_false_r in R. unfold ret in R. injection R as _ <- <-.
          split; [reflexivity|]. split.
          - intros (f & x & _ & X & X' & _). congruence.
          - intros _ x key flag X X'. congruence. }
      rewrite !andb_true_r in R.
      destruct (providerId =? "custom-openai")%string eqn:E1;
        [|destruct (providerId =? "custom-anthropic")%string eqn:E2;
          [|destruct (providerId =? "custom-google")%string eqn:E3]].
      1-3: apply bind_Ok_inv in R; destruct R as (rq & w0 & R & R');
           unfold ret in R'; injection R' as _ <- <-;
           apply resolveCustomEndpoint_calls in R;
           split; [assumption|]; split; [reflexivity|];
           intros G; exfalso.
      1: apply String.eqb_eq in E1; exact (G Parser.CustomOpenAI E1).
      1: apply String.eqb_eq in E2; exact (G Parser.CustomAnthropic E2).
      1: apply String.eqb_eq in E3; exact (G Parser.CustomGoogle E3).
      unfold tryCatch, bind, lift, ret, log, throw in R.
      destruct (getApiKeyWithBYOK co providerId _ wsid _) as [[key0 flag0]|] eqn:BY;
        [|discriminate].
      injection R as _ <- <-. split; [reflexivity|]. split.
      - intros (f & x & -> & _). destruct f; cbn in E1, E2, E3; discriminate.
      - intros _ x key flag X X' Y. injection X as <-. rewrite BY in Y.
        now injection Y as _ <-. }
    destruct C1 as (C1 & NB & GB).
    exists sent', isBYOK. split; [now rewrite C4, C2, C1|]. split; [exact B|].
    split; [exact NB|]. split; [exact GB|]. now exists c.
Qed.

Lemma byok_usage_is_not_billed_witness :
  exists sent c,
    calls (snd (executeProviderRequest sampleServices sampleCollaborators "openai"
                  (sampleRequest "gpt-4o" "ws_1") emptyWorld)) = [sent]
    /\ ProviderRequest.isBYOK sent = Some true
    /\ Cost.total c = 0%Q.
Proof.
  destruct (byok_usage_is_not_billed sampleServices sampleCollaborators "openai"
              (sampleRequest "gpt-4o" "ws_1") emptyWorld _ _ eq_refl)
    as (sent & b & C & B & _ & _ & c & _ & Z & _).
  - discriminate.
  - exists sent, c. cbn in C. injection C as <-. cbn in B. injection B as <-.
    repeat split. apply Z. now left.
Defined.

(** ** Dispatcher: the empty response format *)

Lemma sanitizeRequest_keeps (co : Collaborators) (r : ProviderRequest.t) :
  ProviderRequest.responseFormat (sanitizeRequest co r) = ProviderRequest.responseFormat r
  /\ ProviderRequest.systemPrompt (sanitizeRequest co r) = ProviderRequest.systemPrompt r.
Proof.
  unfold sanitizeRequest. destruct (_ && _); [|now split]. now destruct r.
Qed.

Lemma withEndpoint_keeps (f : Parser.Family) (r : ProviderRequest.t)
    (cfg : CustomLlmEndpointWithCredentials.t) :
  ProviderRequest.responseFormat (withEndpoint f r cfg) = ProviderRequest.responseFormat r
  /\ ProviderRequest.systemPrompt (withEndpoint f r cfg) = ProviderRequest.systemPrompt r.
Proof. now destruct f, r. Qed.

Lemma resolveCustomEndpoint_keeps (sv : Services) (f : Parser.Family) (wsid : string)
    (request r0 r : ProviderRequest.t) (w w1 : World) :
  resolveCustomEndpoint sv f wsid request r0 w = (Ok r, w1) ->
  ProviderRequest.responseFormat r = ProviderRequest.responseFormat r0
  /\ ProviderRequest.systemPrompt r = ProviderRequest.systemPrompt r0.
Proof.
  unfold resolveCustomEndpoint. destruct (JS.truthy _).
  - unfold tryCatch, bind. rewrite getCustomEndpointByName_run.
    destruct (filter _ (rows w)) as [|row rest]; cbn; intros H; [discriminate|].
    injection H as <- _. apply withEndpoint_keeps.
  - unfold ret. intros H. injection H as <- _. now split.
Qed.

Lemma resolveCredentials_calls (sv : Services) (co : Collaborators) (providerId : string)
    (request r0 : ProviderRequest.t) (w w1 : World)
    (res : Result (ProviderRequest.t * bool)) :
  resolveCredentials sv co providerId request r0 w = (res, w1) ->
  calls w1 = calls w.
Proof.
  unfold resolveCredentials.
  repeat match goal with
         | |- (if ?c then _ else _) _ = _ -> _ => destruct c
         end.
  1-3: unfold bind;
       match goal with
       | |- context [resolveCustomEndpoint ?a ?b ?c ?d ?e ?v] =>
           destruct (resolveCustomEndpoint a b c d e v) as [[x|x] w0] eqn:R;
           apply resolveCustomEndpoint_calls in R
       end;
       unfold ret; intros H; injection H as _ <-; assumption.
  - unfold tryCatch, bind, lift, ret, log, throw.
    destruct (getApiKeyWithBYOK co providerId _ _ _); intros H; now injection H as _ <-.
  - unfold ret. intros H; now injection H as _ <-.
Qed.

Lemma resolveCredentials_keeps (sv : Services) (co : Collaborators) (providerId : string)
    (request r0 r : ProviderRequest.t) (b : bool) (w w1 : World) :
  resolveCredentials sv co providerId request r0 w = (Ok (r, b), w1) ->
  ProviderRequest.responseFormat r = ProviderRequest.responseFormat r0
  /\ ProviderRequest.systemPrompt r = ProviderRequest.systemPrompt r0.
Proof.
  unfold resolveCredentials.
  repeat match goal with
         | |- (if ?c then _ else _) _ = _ -> _ => destruct c
         end.
  1-3: intros H; apply bind_Ok_inv in H; destruct H as (x & w0 & R & H);
       unfold ret in H; injection H as -> _ _;
       now apply resolveCustomEndpoint_keeps in R.
  - unfold tryCatch, bind, lift, ret, log, throw.
    destruct (getApiKeyWithBYOK co providerId _ _ _); intros H; [|discriminate].
    injection H as <- _ _. now destruct r0.
  - unfold ret. intros H; injection H as <- _ _. now split.
Qed.

Lemma applyResponseFormat_empty (co : Collaborators) (r : ProviderRequest.t) (w : World) :
  ProviderRequest.responseFormat r = Some (FormatString EmptyString) ->
  applyResponseFormat co r w = (Ok r, w).
Proof. intros E. unfold applyResponseFormat. now rewrite E. Qed.

Lemma attachCost_calls (sv : Services) (co : Collaborators) (request : ProviderRequest.t)
    (isBYOK : bool) (r0 : ProviderResponse.t) (w w' : World)
    (res : Result ProviderResponse.t) :
  attachCost sv co request isBYOK r0 w = (res, w') -> calls w' = calls w.
Proof.
  unfold attachCost. destruct (ProviderResponse.tokens r0).
  - destruct (_ && _).
    + unfold ret. intros H; now injection H as _ <-.
    + unfold bind, newDate, nextTick, log, ret. cbn. intros H; now injection H as _ <-.
  - unfold ret. intros H; now injection H as _ <-.
Qed.

(** C7 on the code.  A request whose [responseFormat] is the empty
    string passes the step on the response format untouched: unless
    [executeProviderRequest] rejects before reaching the executor, it hands
    it one request, and that request still carries the empty string as its
    [responseFormat] -- the field is not cleared -- with the system prompt
    of the caller. *)
Theorem empty_response_format_is_not_cleared
    (sv : Services) (co : Collaborators) (providerId : string)
    (request : ProviderRequest.t) (w : World) :
  ProviderRequest.responseFormat request = Some (FormatString EmptyString) ->
  let out := executeProviderRequest sv co providerId request w in
  (calls (snd out) = calls w /\ exists e, fst out = Throw e)
  \/ exists sent,
       calls (snd out) = (calls w ++ [sent])%list
       /\ ProviderRequest.responseFormat sent = Some (FormatString EmptyString)
       /\ ProviderRequest.responseFormat sent <> None
       /\ ProviderRequest.systemPrompt sent = ProviderRequest.systemPrompt request.
Proof.
  intros E out. subst out.
  destruct (executeProviderRequest sv co providerId request w) as [res w'] eqn:O.
  cbn [fst snd]. unfold executeProviderRequest in O.
  destruct (getProviderExecutor co providerId) as [provider|];
    [|injection O as <- <-; left; split; [reflexivity | eauto]].
  destruct (executeRequest provider) as [run|];
    [|injection O as <- <-; left; split; [reflexivity | eauto]].
  unfold bind at 1 in O.
  destruct (resolveCredentials sv co providerId request (sanitizeRequest co request) w)
    as [[[r b]|e] w1] eqn:R.
  2:{ left. injection O as <- <-.
      split; [now apply resolveCredentials_calls in R | eauto]. }
  pose proof (resolveCredentials_calls _ _ _ _ _ _ _ _ R) as C1.
  apply resolveCredentials_keeps in R. destruct R as [F P].
  destruct (sanitizeRequest_keeps co request) as [F0 P0].
  cbn [fst snd] in O. unfold bind at 1 in O.
  rewrite applyResponseFormat_empty in O
    by (destruct r; cbn in *; congruence).
  right. exists (withIsBYOK r (Some b)).
  assert (K : ProviderRequest.responseFormat (withIsBYOK r (Some b))
              = Some (FormatString EmptyString)
              /\ ProviderRequest.systemPrompt (withIsBYOK r (Some b))
                 = ProviderRequest.systemPrompt request).
  { destruct r; cbn in *. split; congruence. }
  destruct K as [K1 K2].
  split; [|split; [exact K1|split; [congruence|exact K2]]].
  unfold bind, recordCall, lift in O. cbn in O.
  destruct (run (withIsBYOK r (Some b))) as [[s|s|r0]|e]; cbn in O.
  1,2,4: injection O as _ <-; cbn; now rewrite C1.
  destruct (attachCost sv co request b r0 _) as [[x|x] w4] eqn:A;
    apply attachCost_calls in A; cbn in *; injection O as _ <-; now rewrite A, C1.
Qed.

Lemma empty_response_format_is_not_cleared_witness :
  exists sent,
    calls (snd (executeProviderRequest sampleServices sampleCollaborators "openai"
                  (withResponseFormat (sampleRequest "gpt-4o" "ws_1")
                     (Some (FormatString EmptyString)))
                  emptyWorld)) = [sent]
    /\ ProviderRequest.responseFormat sent = Some (FormatString EmptyString).
Proof.
  destruct (empty_response_format_is_not_cleared sampleServices sampleCollaborators
              "openai"
              (withResponseFormat (sampleRequest "gpt-4o" "ws_1")
                 (Some (FormatString EmptyString)))
              emptyWorld eq_refl)
    as [[_ [e C]] | (sent & C & F & _)].
  - discriminate C.
  - exists sent. split; [exact C | exact F].
Defined.

(* ================================================================== *)
(** * Further properties of the store, the routes and the dispatcher   *)
(* ================================================================== *)

Local Open Scope list_scope.

(** ** Listing *)

Lemma insertByName_perm (leq : string -> string -> bool) (r : Row.t) (l : list Row.t) :
  Permutation (r :: l) (insertByName leq r l).
Proof.
  induction l as [|x l IH]; cbn [insertByName]; [reflexivity|].
  destruct (leq (Row.name r) (Row.name x)); [reflexivity|].
  rewrite perm_swap. now apply perm_skip.
Qed.

Lemma orderByName_perm (leq : string -> string -> bool) (l : list Row.t) :
  Permutation l (orderByName leq l).
Proof.
  induction l as [|x l IH]; cbn [orderByName]; [reflexivity|].
  rewrite <- insertByName_perm. now apply perm_skip.
Qed.

Lemma insertByName_sorted (leq : string -> string -> bool) (r : Row.t) (l : list Row.t) :
  totalOrder leq ->
  Sorted (fun a b => leq (Row.name a) (Row.name b) = true) l ->
  Sorted (fun a b => leq (Row.name a) (Row.name b) = true) (insertByName leq r l).
Proof.
  intros T S. induction S as [|x l S IH H]; cbn [insertByName].
  - repeat constructor.
  - destruct (leq (Row.name r) (Row.name x)) eqn:E.
    + constructor; [now constructor|]. now constructor.
    + constructor; [exact IH|].
      destruct (T (Row.name r) (Row.name x)) as [A|A]; [congruence|].
      destruct H as [|y l H]; cbn [insertByName].
      * now constructor.
      * destruct (leq (Row.name r) (Row.name y)); now constructor.
Qed.

Lemma orderByName_sorted (leq : string -> string -> bool) (l : list Row.t) :
  totalOrder leq ->
  Sorted (fun a b => leq (Row.name a) (Row.name b) = true) (orderByName leq l).
Proof.
  intros T. induction l as [|x l IH]; cbn [orderByName]; [constructor|].
  now apply insertByName_sorted.
Qed.

Lemma listedHeaderNames_run (sv : Services) (r : Row.t) (w : World) :
  listedHeaderNames sv r w
  = (Ok (namesOf (headersOutcome sv (Row.encryptedHeaders r))),
     addLogs w (failureLog "Failed to decrypt headers for endpoint"
                  (Row.encryptedHeaders r) (headersOutcome sv (Row.encryptedHeaders r)))).
Proof.
  unfold listedHeaderNames, headersOutcome, failureLog, failed.
  destruct (Row.encryptedHeaders r) as [c|]; cbn [JS.truthy_opt].
  - destruct (JS.truthy c); cbn [andb].
    + unfold tryCatch, bind, decrypt, parseJson, lift, ret, log.
      destruct (decryptSecret sv c) as [plain|]; cbn; [|reflexivity].
      destruct (JSON_parse sv plain); cbn; [now rewrite addLogs_nil | reflexivity].
    + unfold ret. cbn. now rewrite addLogs_nil.
  - unfold ret. cbn. now rewrite addLogs_nil.
Qed.

Lemma listLoop_run (sv : Services) (endpoints : list Row.t)
    (results : list CustomLlmEndpoint.t) (w : World) :
  exists l, listLoop sv endpoints results w
            = (Ok (results ++ map (listed sv) endpoints), addLogs w l).
Proof.
  revert results w. induction endpoints as [|r more IH]; intros results w.
  - exists []. cbn. unfold ret. now rewrite app_nil_r, addLogs_nil.
  - cbn [listLoop]. unfold bind. rewrite listedHeaderNames_run.
    destruct (IH (results ++ [listedView r
                                (namesOf (headersOutcome sv (Row.encryptedHeaders r)))])
                 (addLogs w (failureLog "Failed to decrypt headers for endpoint"
                               (Row.encryptedHeaders r)
                               (headersOutcome sv (Row.encryptedHeaders r)))))
      as [l E].
    eexists. rewrite E, addLogs_app, <- app_assoc. reflexivity.
Qed.

Lemma getCustomEndpoints_run (sv : Services) (leq : string -> string -> bool)
    (ws : string) (w : World) :
  exists l,
    getCustomEndpoints sv leq ws w
    = (Ok (map (listed sv) (orderByName leq (filter (inWorkspace ws) (rows w)))),
       addLogs w l).
Proof.
  destruct (listLoop_run sv (orderByName leq (filter (inWorkspace ws) (rows w))) [] w)
    as [l E].
  exists l. unfold getCustomEndpoints. apply logAndRethrow_Ok.
  unfold bind at 1. unfold dbSelect, bind, getRows, ret. exact E.
Qed.

(** X1.  A listing does not change the table, whether it returns or
    fails; when it returns, its entries are those of the rows of that
    workspace -- each row once, none of another workspace. *)
Theorem listing_shows_exactly_the_workspace
    (sv : Services) (leq : string -> string -> bool) (ws : string) (w w' : World)
    (res : Result (list CustomLlmEndpoint.t)) :
  getCustomEndpoints sv leq ws w = (res, w') ->
  rows w' = rows w
  /\ forall es,
       res = Ok es ->
       Permutation (map CustomLlmEndpoint.id es)
         (map Row.id (filter (inWorkspace ws) (rows w)))
       /\ List.length es = List.length (filter (inWorkspace ws) (rows w))
       /\ forall e, In e es -> CustomLlmEndpoint.workspaceId e = ws.
Proof.
  intros H. destruct (getCustomEndpoints_run sv leq ws w) as [l E].
  rewrite E in H. injection H as <- <-. split; [reflexivity|].
  intros es R. injection R as <-.
  pose proof (orderByName_perm leq (filter (inWorkspace ws) (rows w))) as P.
  split; [|split].
  - rewrite map_map. cbn [listed listedView CustomLlmEndpoint.id].
    symmetry. now apply Permutation_map.
  - rewrite length_map. symmetry. now apply Permutation_length.
  - intros e I. apply in_map_iff in I. destruct I as (r & <- & I).
    apply (Permutation_in _ (Permutation_sym P)) in I.
    apply filter_In in I. destruct I as [_ I]. now apply String.eqb_eq in I.
Qed.

Lemma listing_shows_exactly_the_workspace_witness :
  exists es,
    fst (getCustomEndpoints sampleServices sampleLeq "ws_1" sampleTable) = Ok es
    /\ List.length es = 2%nat
    /\ forall e, In e es -> CustomLlmEndpoint.workspaceId e = "ws_1".
Proof.
  destruct (getCustomEndpoints sampleServices sampleLeq "ws_1" sampleTable)
    as [res w'] eqn:E.
  destruct (listing_shows_exactly_the_workspace sampleServices sampleLeq "ws_1"
              sampleTable w' res E) as [_ P].
  vm_compute in E. injection E as <- _.
  eexists. split; [reflexivity|].
  destruct (P _ eq_refl) as (_ & L & W). split; [exact L | exact W].
Defined.

(** X2.  When the collation compares any two names, the entries of a
    listing are in ascending order of their names. *)
Theorem listing_is_ordered_by_name
    (sv : Services) (leq : string -> string -> bool) (ws : string) (w : World) :
  totalOrder leq ->
  exists es w',
    getCustomEndpoints sv leq ws w = (Ok es, w')
    /\ Sorted (fun a b => leq (CustomLlmEndpoint.name a) (CustomLlmEndpoint.name b) = true)
         es.
Proof.
  intros T. destruct (getCustomEndpoints_run sv leq ws w) as [l E].
  eexists _, _. split; [exact E|]. clear E.
  pose proof (orderByName_sorted leq (filter (inWorkspace ws) (rows w)) T) as S.
  induction S as [|x xs S IH H]; cbn [map]; [constructor|].
  constructor; [exact IH|]. destruct H; cbn [map]; now constructor.
Qed.

Lemma sampleLeq_total : totalOrder sampleLeq.
Proof.
  intros a b. unfold sampleLeq, String.leb.
  rewrite (String.compare_antisym a b).
  destruct (String.compare b a); cbn; auto.
Qed.

Lemma listing_is_ordered_by_name_witness :
  exists es w',
    getCustomEndpoints sampleServices sampleLeq "ws_1" sampleTable = (Ok es, w')
    /\ map CustomLlmEndpoint.name es = ["alpha"; "vllm-1"].
Proof.
  destruct (listing_is_ordered_by_name sampleServices sampleLeq "ws_1" sampleTable
              sampleLeq_total) as (es & w' & E & _).
  exists es, w'. split; [exact E|].
  cbv in E. injection E as <- _. reflexivity.
Defined.

(** X3.  The entry a listing shows for a row is made from that row
    alone: [hasApiKey] tells whether a key ciphertext is stored (nothing is
    decrypted for it), and [headerNames] are the names in the decrypted
    header blob -- none when there is no blob or it cannot be decrypted or
    parsed, which fails neither the listing nor any other entry. *)
Theorem listing_reads_each_row_on_its_own
    (sv : Services) (leq : string -> string -> bool) (ws : string) (w : World)
    (r : Row.t) :
  In r (rows w) ->
  Row.workspaceId r = ws ->
  exists es w' e,
    getCustomEndpoints sv leq ws w = (Ok es, w')
    /\ In e es
    /\ CustomLlmEndpoint.id e = Row.id r
    /\ CustomLlmEndpoint.name e = Row.name r
    /\ CustomLlmEndpoint.baseUrl e = Row.baseUrl r
    /\ CustomLlmEndpoint.hasApiKey e = JS.truthy_opt (Row.encryptedApiKey r)
    /\ CustomLlmEndpoint.headerNames e
       = match headersOutcome sv (Row.encryptedHeaders r) with
         | Some h => Object_keys h
         | None => []
         end.
Proof.
  intros I W. destruct (getCustomEndpoints_run sv leq ws w) as [l E].
  exists (map (listed sv) (orderByName leq (filter (inWorkspace ws) (rows w)))),
         (addLogs w l), (listed sv r).
  split; [exact E|]. split; [|now repeat split].
  apply in_map. apply (Permutation_in _ (orderByName_perm leq _)).
  apply filter_In. split; [exact I|]. unfold inWorkspace. now apply String.eqb_eq.
Qed.

Lemma listing_reads_each_row_on_its_own_witness :
  exists es w' e,
    getCustomEndpoints sampleServices sampleLeq "ws_1" sampleTable = (Ok es, w')
    /\ In e es
    /\ CustomLlmEndpoint.id e = "ep_2"
    /\ CustomLlmEndpoint.hasApiKey e = true
    /\ CustomLlmEndpoint.headerNames e = [].
Proof.
  destruct (listing_reads_each_row_on_its_own sampleServices sampleLeq "ws_1"
              sampleTable secondRow (or_intror (or_introl eq_refl)) eq_refl)
    as (es & w' & e & E & I & Hi & _ & _ & Hk & Hh).
  exists es, w', e. repeat split; assumption.
Defined.

(** ** What [create] stores is what the readers show *)

Lemma createdRow_in_listing (leq : string -> string -> bool) (ws : string)
    (rs : list Row.t) (r : Row.t) :
  Row.workspaceId r = ws ->
  In r (orderByName leq (filter (inWorkspace ws) (rs ++ [r]))).
Proof.
  intros W. apply (Permutation_in _ (orderByName_perm leq _)).
  apply filter_In. split; [apply in_or_app; right; now left|].
  unfold inWorkspace. now apply String.eqb_eq.
Qed.

Lemma headersToEncrypt_sub (headers : option Headers) (h : Headers) :
  headersToEncrypt headers = Some h -> headers = Some h.
Proof.
  destruct headers as [[|x l]|]; cbn; intros E; try discriminate. exact E.
Qed.

Lemma stored_headers_outcome (sv : Services) (n : nat) (headers : option Headers)
    (encHdr : option string) :
  soundCipher sv -> readsBack sv headers ->
  encryptField sv n (option_map (JSON_stringify sv) (headersToEncrypt headers)) = Ok encHdr ->
  headersOutcome sv encHdr = headersToEncrypt headers.
Proof.
  intros S J E. unfold encryptField in E.
  destruct (headersToEncrypt headers) as [h|] eqn:HE; cbn [option_map] in E.
  - destruct (encryptSecret sv n (JSON_stringify sv h)) as [c|] eqn:X; [|discriminate].
    injection E as <-. destruct (S _ _ _ X) as [N D].
    unfold headersOutcome.
    now rewrite (truthy_nonempty c N), D, (J h (headersToEncrypt_sub _ _ HE)).
  - now injection E as <-.
Qed.

Lemma namesOf_headersToEncrypt (headers : option Headers) :
  namesOf (headersToEncrypt headers) = namesOf headers.
Proof. now destruct headers as [[|x l]|]. Qed.

(** X4.  With a sound encryption service, and a JSON codec that reads
    back the header mapping of the parameters, the record a successful
    [create] returns is an entry of the next listing of its workspace,
    with the same [hasApiKey] and [headerNames]. *)
Theorem created_endpoint_is_listed
    (sv : Services) (leq : string -> string -> bool)
    (params : CreateCustomEndpointParams.t) (w w' : World) (e : CustomLlmEndpoint.t) :
  soundCipher sv ->
  readsBack sv (CreateCustomEndpointParams.headers params) ->
  createCustomEndpoint sv params w = (Ok e, w') ->
  exists es w'',
    getCustomEndpoints sv leq (CreateCustomEndpointParams.workspaceId params) w'
    = (Ok es, w'')
    /\ In e es.
Proof.
  intros S J H. apply createCustomEndpoint_inv in H. cbv zeta in H.
  destruct H as (encKey & encHdr & _ & Hd & _ & -> & ->).
  destruct (getCustomEndpoints_run sv leq (CreateCustomEndpointParams.workspaceId params)
              (mkWorld (rows w ++ [createdRow sv params w encKey encHdr])
                 (logs w ++ [mkLog LInfo "Created custom LLM endpoint"])
                 (Datatypes.S (Datatypes.S (ticks w)))
                 (seeds w + uses (keyToEncrypt (CreateCustomEndpointParams.apiKey params))
                  + uses (headersToEncrypt (CreateCustomEndpointParams.headers params)))
                 (calls w)))
    as [l E].
  eexists _, _. split; [exact E|]. cbn [rows].
  apply in_map_iff. exists (createdRow sv params w encKey encHdr).
  split; [|now apply createdRow_in_listing].
  unfold listed, listedView, createdRow. cbn.
  rewrite (stored_headers_outcome sv _ _ _ S J Hd), namesOf_headersToEncrypt.
  now destruct (CreateCustomEndpointParams.apiType params).
Qed.

Lemma teamParams_read_back :
  readsBack sampleServices (CreateCustomEndpointParams.headers teamParams).
Proof. intros h E. injection E as <-. reflexivity. Qed.

Lemma created_endpoint_is_listed_witness :
  exists es w'',
    getCustomEndpoints sampleServices sampleLeq "ws_1" afterTeamCreate = (Ok es, w'')
    /\ In teamEndpoint es.
Proof.
  exact (created_endpoint_is_listed sampleServices sampleLeq teamParams emptyWorld
           afterTeamCreate teamEndpoint sampleServices_sound teamParams_read_back
           eq_refl).
Defined.

(** X5.  With a sound encryption service, and a JSON codec that reads
    back the header mapping of the parameters, resolving an endpoint by
    its id after a successful [create] yields the key and the header
    mapping of the parameters: the key when it is a non-empty string, the
    mapping when it has a key, and [null] otherwise. *)
Theorem create_then_resolve_by_id
    (sv : Services) (params : CreateCustomEndpointParams.t)
    (w w' : World) (e : CustomLlmEndpoint.t) :
  soundCipher sv ->
  readsBack sv (CreateCustomEndpointParams.headers params) ->
  createCustomEndpoint sv params w = (Ok e, w') ->
  exists c w'',
    getCustomEndpointById sv (CreateCustomEndpointParams.id params) w' = (Ok (Some c), w'')
    /\ logs w'' = logs w'
    /\ CustomLlmEndpointWithCredentials.workspaceId c
       = CreateCustomEndpointParams.workspaceId params
    /\ CustomLlmEndpointWithCredentials.name c = CreateCustomEndpointParams.name params
    /\ CustomLlmEndpointWithCredentials.baseUrl c = CreateCustomEndpointParams.baseUrl params
    /\ CustomLlmEndpointWithCredentials.apiKey c
       = keyToEncrypt (CreateCustomEndpointParams.apiKey params)
    /\ CustomLlmEndpointWithCredentials.headers c
       = headersToEncrypt (CreateCustomEndpointParams.headers params).
Proof.
  intros S J H. apply createCustomEndpoint_inv in H. cbv zeta in H.
  destruct H as (encKey & encHdr & K & Hd & C & -> & _).
  rewrite getCustomEndpointById_run. cbn [rows].
  unfold constraintsHold in C. apply andb_true_iff in C. destruct C as [C _].
  apply uniqueBy_app_last in C. destruct C as [_ C].
  assert (F : filter (byId (CreateCustomEndpointParams.id params))
                (rows w ++ [createdRow sv params w encKey encHdr])
              = [createdRow sv params w encKey encHdr]).
  { rewrite filter_app. cbn [filter]. unfold byId at 2. cbn [createdRow Row.id].
    rewrite String.eqb_refl. rewrite filter_none; [reflexivity|].
    intros y Y. specialize (C y Y). unfold sameId in C. cbn in C. exact C. }
  rewrite F.
  assert (KO : keyOutcome sv encKey
               = keyToEncrypt (CreateCustomEndpointParams.apiKey params)).
  { unfold encryptField in K.
    destruct (keyToEncrypt (CreateCustomEndpointParams.apiKey params)) as [k|].
    - destruct (encryptSecret sv (seeds w) k) as [c|] eqn:E; [|discriminate].
      injection K as <-. destruct (S _ _ _ E) as [N D].
      unfold keyOutcome. now rewrite (truthy_nonempty c N), D.
    - now injection K as <-. }
  pose proof (stored_headers_outcome sv _ _ _ S J Hd) as HO.
  eexists _, _. split; [reflexivity|].
  cbn [resolved withCredentials createdRow Row.encryptedApiKey Row.encryptedHeaders
       CustomLlmEndpointWithCredentials.apiKey CustomLlmEndpointWithCredentials.headers].
  split.
  - unfold resolutionLog, failureLog, failed.
    cbn [createdRow Row.encryptedApiKey Row.encryptedHeaders].
    rewrite KO, HO. cbn [logs addLogs].
    assert (Z1 : JS.truthy_opt encKey
                 && match keyToEncrypt (CreateCustomEndpointParams.apiKey params) with
                    | Some _ => false | None => true end = false).
    { unfold encryptField in K.
      destruct (keyToEncrypt (CreateCustomEndpointParams.apiKey params)) as [k|];
        [apply andb_false_r|]. now injection K as <-. }
    assert (Z2 : JS.truthy_opt encHdr
                 && match headersToEncrypt (CreateCustomEndpointParams.headers params) with
                    | Some _ => false | None => true end = false).
    { unfold encryptField in Hd.
      destruct (headersToEncrypt (CreateCustomEndpointParams.headers params)) as [h|];
        [apply andb_false_r|]. cbn in Hd. now injection Hd as <-. }
    rewrite Z1, Z2. cbn. now rewrite app_nil_r.
  - repeat split; assumption.
Qed.

Lemma create_then_resolve_by_id_witness :
  exists c w'',
    getCustomEndpointById sampleServices "ep_7" afterTeamCreate = (Ok (Some c), w'')
    /\ CustomLlmEndpointWithCredentials.apiKey c = Some "sk-team"
    /\ CustomLlmEndpointWithCredentials.headers c = Some [("X-Team", "ml")].
Proof.
  destruct (create_then_resolve_by_id sampleServices teamParams emptyWorld afterTeamCreate
              teamEndpoint sampleServices_sound teamParams_read_back eq_refl)
    as (c & w'' & E & _ & _ & _ & _ & K & H).
  exists c, w''. repeat split; assumption.
Defined.

(** ** Deleting *)

Lemma deleteCustomEndpoint_run (i : string) (w : World) :
  deleteCustomEndpoint i w
  = (Ok tt,
     mkWorld (filter (fun r => negb (Row.id r =? i)%string) (rows w))
       (logs w ++ [mkLog LInfo "Deleted custom LLM endpoint"])
       (ticks w) (seeds w) (calls w)).
Proof. reflexivity. Qed.

Lemma filter_idem {A : Type} (p : A -> bool) (l : list A) :
  filter p (filter p l) = filter p l.
Proof.
  induction l as [|x l IH]; [reflexivity|]. cbn [filter].
  destruct (p x) eqn:E; [|exact IH]. cbn [filter]. now rewrite E, IH.
Qed.

Lemma filter_all {A : Type} (p : A -> bool) (l : list A) :
  (forall x, In x l -> p x = true) -> filter p l = l.
Proof.
  induction l as [|x l IH]; intros H; [reflexivity|]. cbn [filter].
  rewrite (H x (or_introl eq_refl)). f_equal. apply IH. intros y Y. apply H. now right.
Qed.

(** X6.  When [delete] returns, the table holds the rows it held
    but those with the given id, so that a resolution of the id that
    returns afterwards yields [null]; the table is as it was when no row
    had the id, and it stays as it is when the id is deleted a second
    time. *)
Theorem delete_removes_the_endpoint_only
    (sv : Services) (endpointId : string) (w w' : World) :
  deleteCustomEndpoint endpointId w = (Ok tt, w') ->
  (forall r, In r (rows w') <-> In r (rows w) /\ Row.id r <> endpointId)
  /\ (forall found w'',
        getCustomEndpointById sv endpointId w' = (Ok found, w'') -> found = None)
  /\ (forall w'', deleteCustomEndpoint endpointId w' = (Ok tt, w'') -> rows w'' = rows w')
  /\ ((forall r, In r (rows w) -> Row.id r <> endpointId) -> rows w' = rows w).
Proof.
  rewrite deleteCustomEndpoint_run. intros H. injection H as <-. cbn [rows].
  split; [|split; [|split]].
  - intros r. rewrite filter_In. rewrite negb_true_iff, String.eqb_neq. reflexivity.
  - intros found w'' R. rewrite getCustomEndpointById_run in R. cbn [rows] in R.
    rewrite filter_none in R; [now injection R as <- _|].
    intros x X. apply filter_In in X. destruct X as [_ X].
    unfold byId. now apply negb_true_iff in X.
  - intros w'' R. rewrite deleteCustomEndpoint_run in R. injection R as <-.
    cbn [rows]. apply filter_idem.
  - intros H. apply filter_all. intros x X.
    apply negb_true_iff, String.eqb_neq. now apply H.
Qed.

Lemma delete_removes_the_endpoint_only_witness :
  (forall r, In r (rows (snd (deleteCustomEndpoint "ep_2" sampleTable)))
             <-> In r (rows sampleTable) /\ Row.id r <> "ep_2")
  /\ rows (snd (deleteCustomEndpoint "ep_404" sampleTable)) = rows sampleTable.
Proof.
  split.
  - exact (proj1 (delete_removes_the_endpoint_only sampleServices "ep_2" sampleTable
                    (snd (deleteCustomEndpoint "ep_2" sampleTable)) eq_refl)).
  - apply (proj2 (proj2 (proj2 (delete_removes_the_endpoint_only sampleServices "ep_404"
                                  sampleTable
                                  (snd (deleteCustomEndpoint "ep_404" sampleTable))
                                  eq_refl)))).
    intros r [<-|[<-|[<-|[]]]]; discriminate.
Defined.

(** ** The store keeps the constraints of the table *)

Lemma keepsRows_ret {A : Type} (a : A) : keepsRows (ret a).
Proof. intros w. reflexivity. Qed.

Lemma keepsRows_throw {A : Type} (e : Exn) : keepsRows (@throw A e).
Proof. intros w. reflexivity. Qed.

Lemma keepsRows_lift {A : Type} (r : Result A) : keepsRows (lift r).
Proof. intros w. reflexivity. Qed.

Lemma keepsRows_log (l : Level) (t : string) : keepsRows (log l t).
Proof. intros w. reflexivity. Qed.

Lemma keepsRows_recordCall (r : ProviderRequest.t) : keepsRows (recordCall r).
Proof. intros w. reflexivity. Qed.

Lemma keepsRows_getRows : keepsRows getRows.
Proof. intros w. reflexivity. Qed.

Lemma keepsRows_bind {A B : Type} (m : M A) (k : A -> M B) :
  keepsRows m -> (forall a, keepsRows (k a)) -> keepsRows (bind m k).
Proof.
  intros Hm Hk w. unfold bind. specialize (Hm w).
  destruct (m w) as [[a|e] w1]; cbn [snd] in *.
  - now rewrite Hk.
  - exact Hm.
Qed.

Lemma keepsRows_tryCatch {A : Type} (m : M A) (h : Exn -> M A) :
  keepsRows m -> (forall e, keepsRows (h e)) -> keepsRows (tryCatch m h).
Proof.
  intros Hm Hh w. unfold tryCatch. specialize (Hm w).
  destruct (m w) as [[a|e] w1]; cbn [snd] in *.
  - exact Hm.
  - now rewrite Hh.
Qed.

Lemma keepsRows_logAndRethrow {A : Type} (msg : string) (m : M A) :
  keepsRows m -> keepsRows (logAndRethrow msg m).
Proof.
  intros H. apply keepsRows_tryCatch; [exact H|].
  intros e. apply keepsRows_bind; [apply keepsRows_log|]. intros _. apply keepsRows_throw.
Qed.

Lemma keepsRows_newDate (sv : Services) : keepsRows (newDate sv).
Proof. intros w. reflexivity. Qed.

Lemma keepsRows_encrypt (sv : Services) (p : string) : keepsRows (encrypt sv p).
Proof. intros w. unfold encrypt, bind, nextSeed, lift. now destruct (encryptSecret sv _ p). Qed.

Lemma keepsRows_decrypt (sv : Services) (c : string) : keepsRows (decrypt sv c).
Proof. intros w. reflexivity. Qed.

Lemma keepsRows_parseJson (sv : Services) (t : string) : keepsRows (parseJson sv t).
Proof. intros w. reflexivity. Qed.

Lemma keepsRows_dbSelect (p : Row.t -> bool) : keepsRows (dbSelect p).
Proof. intros w. reflexivity. Qed.

(** One step in breaking a goal [keepsRows m] down along the shape
    of [m]. *)
Ltac keeps_rows_step :=
  first
    [ apply keepsRows_ret | apply keepsRows_throw | apply keepsRows_lift
    | apply keepsRows_log | apply keepsRows_recordCall | apply keepsRows_getRows
    | apply keepsRows_newDate | apply keepsRows_encrypt | apply keepsRows_decrypt
    | apply keepsRows_parseJson | apply keepsRows_dbSelect
    | apply keepsRows_logAndRethrow
    | apply keepsRows_bind; [|intros ?]
    | apply keepsRows_tryCatch; [|intros ?]
    | match goal with
      | |- keepsRows (match ?x with _ => _ end) => destruct x
      | |- keepsRows (let _ := _ in _) => cbv zeta
      end ].

Ltac keeps_rows := repeat keeps_rows_step.

Lemma keepsRows_getCustomEndpointByName (sv : Services) (ws n : string) :
  keepsRows (getCustomEndpointByName sv ws n).
Proof.
  intros w. rewrite getCustomEndpointByName_run. now destruct (filter _ (rows w)).
Qed.

Lemma keepsRows_getCustomEndpointById (sv : Services) (i : string) :
  keepsRows (getCustomEndpointById sv i).
Proof.
  intros w. rewrite getCustomEndpointById_run. now destruct (filter _ (rows w)).
Qed.

Lemma keepsRows_isEndpointNameAvailable (ws n : string) (x : option string) :
  keepsRows (isEndpointNameAvailable ws n x).
Proof. intros w. now rewrite isEndpointNameAvailable_run. Qed.

Lemma keepsRows_recoverHeaderNames (sv : Services) (g : option (list string))
    (s : option string) : keepsRows (recoverHeaderNames sv g s).
Proof. unfold recoverHeaderNames. keeps_rows. Qed.

Lemma uniqueBy_filter {A : Type} (same : A -> A -> bool) (p : A -> bool) (l : list A) :
  uniqueBy same l = true -> uniqueBy same (filter p l) = true.
Proof.
  induction l as [|x l IH]; intros U; [reflexivity|].
  cbn [uniqueBy] in U. apply andb_true_iff in U. destruct U as [U1 U2].
  cbn [filter]. destruct (p x); [|now apply IH].
  cbn [uniqueBy]. rewrite (IH U2), andb_true_r.
  apply negb_true_iff in U1. apply negb_true_iff.
  destruct (existsb (same x) (filter p l)) eqn:E; [|reflexivity].
  apply existsb_exists in E. destruct E as (y & Y & S).
  apply filter_In in Y. destruct Y as [Y _].
  now rewrite (existsb_false_In _ _ _ U1 Y) in S.
Qed.

(** The table after [create], whatever it returned: as before, or
    grown by a row with the constraints checked. *)
Lemma createCustomEndpoint_rows (sv : Services) (params : CreateCustomEndpointParams.t)
    (w : World) :
  (rows (snd (createCustomEndpoint sv params w)) = rows w
   /\ exists e, fst (createCustomEndpoint sv params w) = Throw e)
  \/ (constraintsHold (rows (snd (createCustomEndpoint sv params w))) = true
      /\ exists e, fst (createCustomEndpoint sv params w) = Ok e).
Proof.
  destruct (createCustomEndpoint sv params w) as [[e|x] w'] eqn:H.
  - right. cbn [fst snd]. split; [|now exists e].
    apply createCustomEndpoint_inv in H. cbv zeta in H.
    destruct H as (k & h & _ & _ & C & -> & _). exact C.
  - left. cbn [fst snd]. split; [|now exists x].
    unfold createCustomEndpoint, logAndRethrow, tryCatch in H.
    match type of H with
    | (let (_, _) := ?m w in _) = _ => destruct (m w) as [[a|x0] w1] eqn:I
    end; [discriminate|].
    unfold bind, log, throw in H. injection H as _ <-. cbn [rows].
    clear x.
    unfold bind in I.
    match type of I with
    | (let (_, _) := ?m w in _) = _ =>
        pose proof (fun K : keepsRows m => K w) as R1;
        destruct (m w) as [[k|x] w2] eqn:K1
    end.
    2:{ injection I as _ <-. apply R1.
        destruct (CreateCustomEndpointParams.apiKey params) as [k|]; keeps_rows. }
    assert (R2 : rows w2 = rows w).
    { apply R1. destruct (CreateCustomEndpointParams.apiKey params) as [k0|]; keeps_rows. }
    clear R1 K1.
    match type of I with
    | (let (_, _) := ?m w2 in _) = _ =>
        pose proof (fun K : keepsRows m => K w2) as R1;
        destruct (m w2) as [[h|x] w3] eqn:K1
    end.
    2:{ injection I as _ <-. rewrite <- R2. apply R1.
        destruct (CreateCustomEndpointParams.headers params) as [h|]; keeps_rows. }
    assert (R3 : rows w3 = rows w).
    { rewrite <- R2. apply R1.
      destruct (CreateCustomEndpointParams.headers params) as [h0|]; keeps_rows. }
    clear R1 K1.
    unfold newDate, dbInsert, bind, nextTick, getRows, putRows, ret, throw, log in I.
    cbn [rows logs ticks seeds calls] in I.
    match type of I with
    | context [constraintsHold ?rs] => destruct (constraintsHold rs)
    end; [discriminate|].
    injection I as _ <-. exact R3.
Qed.

Lemma keepsRows_eq {A : Type} (m : M A) (w w' : World) (r : Result A) :
  keepsRows m -> m w = (r, w') -> rows w' = rows w.
Proof. intros K E. specialize (K w). now rewrite E in K. Qed.

Lemma bind_Throw_inv {A B : Type} (m : M A) (k : A -> M B) (w w' : World) (e : Exn) :
  bind m k w = (Throw e, w') ->
  m w = (Throw e, w') \/ exists a w1, m w = (Ok a, w1) /\ k a w1 = (Throw e, w').
Proof.
  unfold bind. destruct (m w) as [[a|x] w1]; intros H.
  - right. now exists a, w1.
  - left. now injection H as <- <-.
Qed.

Lemma logAndRethrow_Throw_inv {A : Type} (msg : string) (m : M A) (w w' : World)
    (e : Exn) :
  logAndRethrow msg m w = (Throw e, w') ->
  exists w1, m w = (Throw e, w1) /\ rows w' = rows w1.
Proof.
  unfold logAndRethrow, tryCatch. destruct (m w) as [[a|x] w1]; intros H.
  - discriminate.
  - unfold bind, log, throw in H. injection H as <- <-. now exists w1.
Qed.

Lemma dbUpdate_run (i : string) (u : Updates) (w : World) :
  let rs' := map (fun r => if (Row.id r =? i)%string then applyUpdates u r else r)
               (rows w) in
  dbUpdate i u w
  = if constraintsHold rs'
    then (Ok (map (applyUpdates u) (filter (byId i) (rows w))),
          mkWorld rs' (logs w) (ticks w) (seeds w) (calls w))
    else (Throw uniqueViolation, w).
Proof.
  cbv zeta. unfold dbUpdate, bind, getRows, putRows, ret, throw.
  destruct (constraintsHold _); [|reflexivity].
  change (filter _ (map ?f (rows w))) with (filter (byId i) (map f (rows w))).
  now rewrite filter_byId_map.
Qed.

Lemma update_nothing (i : string) (u : Updates) (rs : list Row.t) :
  filter (byId i) rs = [] ->
  map (fun r => if (Row.id r =? i)%string then applyUpdates u r else r) rs = rs.
Proof.
  induction rs as [|r rs IH]; intros F; [reflexivity|]. cbn [filter map] in *.
  unfold byId at 1 in F. destruct (Row.id r =? i)%string; [discriminate|].
  now rewrite IH.
Qed.

Lemma updateCustomEndpoint_Throw_rows (sv : Services) (endpointId : string)
    (params : UpdateCustomEndpointParams.t) (w w' : World) (e : Exn) :
  updateCustomEndpoint sv endpointId params w = (Throw e, w') -> rows w' = rows w.
Proof.
  intros H. unfold updateCustomEndpoint in H.
  apply logAndRethrow_Throw_inv in H. destruct H as (w1 & H & ->).
  apply bind_Throw_inv in H. destruct H as [H | (now & wa & T & H)]; [discriminate|].
  pose proof (keepsRows_eq _ _ _ _ (keepsRows_newDate sv) T) as Ra.
  apply bind_Throw_inv in H. destruct H as [H | (newKey & wb & K & H)].
  { rewrite <- Ra. revert H. apply keepsRows_eq.
    destruct (UpdateCustomEndpointParams.apiKey params); keeps_rows. }
  assert (Rb : rows wb = rows w).
  { rewrite <- Ra. revert K. apply keepsRows_eq.
    destruct (UpdateCustomEndpointParams.apiKey params); keeps_rows. }
  apply bind_Throw_inv in H. destruct H as [H | (newHeaders & wc & Hd & H)].
  { rewrite <- Rb. revert H. apply keepsRows_eq.
    destruct (UpdateCustomEndpointParams.headers params); keeps_rows. }
  assert (Rc : rows wc = rows w).
  { rewrite <- Rb. revert Hd. apply keepsRows_eq.
    destruct (UpdateCustomEndpointParams.headers params); keeps_rows. }
  pose proof (dbUpdate_run endpointId
                (mkUpdates now (UpdateCustomEndpointParams.name params)
                   (UpdateCustomEndpointParams.baseUrl params) newKey (fst newHeaders))
                wc) as D.
  cbv zeta in D.
  apply bind_Throw_inv in H. destruct H as [H | (returned & wd & U & H)].
  { rewrite D in H. destruct (constraintsHold _); [discriminate|].
    injection H as _ <-. exact Rc. }
  rewrite D in U. destruct (constraintsHold _); [|discriminate].
  injection U as <- <-.
  destruct (filter (byId endpointId) (rows wc)) as [|first rest] eqn:F.
  - cbn [map] in H. unfold throw in H. injection H as _ <-. cbn [rows].
    rewrite update_nothing by exact F. exact Rc.
  - cbn [map] in H. exfalso.
    apply bind_Throw_inv in H. destruct H as [H | (names & we & _ & H)].
    + match type of H with
      | recoverHeaderNames sv ?g ?s ?v = _ =>
          destruct (recoverHeaderNames_run sv g s v) as (w5 & RH & _)
      end.
      rewrite RH in H. discriminate.
    + unfold bind, log, ret in H. discriminate.
Qed.

Lemma updateCustomEndpoint_rows (sv : Services) (endpointId : string)
    (params : UpdateCustomEndpointParams.t) (w : World) :
  rows (snd (updateCustomEndpoint sv endpointId params w)) = rows w
  \/ constraintsHold (rows (snd (updateCustomEndpoint sv endpointId params w))) = true.
Proof.
  destruct (updateCustomEndpoint sv endpointId params w) as [[e|x] w'] eqn:H.
  - right. apply updateCustomEndpoint_inv in H.
    destruct H as (k & h & n & old & rest & _ & _ & H). cbv zeta in H.
    now destruct H as (_ & C & _).
  - left. cbn [snd]. now apply updateCustomEndpoint_Throw_rows in H.
Qed.

(** X7.  A [create] or an [update] that fails leaves the table exactly
    as it was: whether the encryption, a uniqueness constraint or the
    lookup of the id fails, no part of the change is stored. *)
Theorem failed_write_changes_nothing
    (sv : Services) (w w' : World) (e : Exn) :
  (forall params,
      createCustomEndpoint sv params w = (Throw e, w') -> rows w' = rows w)
  /\ (forall endpointId params,
        updateCustomEndpoint sv endpointId params w = (Throw e, w') -> rows w' = rows w).
Proof.
  split.
  - intros params H.
    destruct (createCustomEndpoint_rows sv params w) as [[R _] | [_ [x X]]];
      rewrite H in *; [exact R | discriminate].
  - intros endpointId params. apply updateCustomEndpoint_Throw_rows.
Qed.

Lemma failed_write_changes_nothing_witness :
  exists e w',
    createCustomEndpoint sampleServices gpuParams afterCreate = (Throw e, w')
    /\ rows w' = rows afterCreate.
Proof.
  eexists _, _. split; [reflexivity|].
  exact (proj1 (failed_write_changes_nothing sampleServices afterCreate _ _)
           gpuParams eq_refl).
Defined.


Lemma uniqueBy_NoDup {A B : Type} (same : A -> A -> bool) (key : A -> B) (l : list A) :
  (forall a b, key a = key b -> same a b = true) ->
  uniqueBy same l = true -> NoDup (map key l).
Proof.
  intros K. induction l as [|x l IH]; intros U; cbn [map]; [constructor|].
  cbn [uniqueBy] in U. apply andb_true_iff in U. destruct U as [U1 U2].
  apply negb_true_iff in U1. constructor; [|now apply IH].
  intros I. apply in_map_iff in I. destruct I as (y & E & Y).
  pose proof (existsb_false_In _ _ _ U1 Y) as N.
  rewrite (K x y (eq_sym E)) in N. discriminate.
Qed.

Lemma reachable_constraints (sv : Services) (w : World) :
  reachable sv w -> constraintsHold (rows w) = true.
Proof.
  induction 1 as [|w w' R IH S]; [reflexivity|].
  destruct S as [params w | endpointId params w | endpointId w].
  - destruct (createCustomEndpoint_rows sv params w) as [[E _] | [C _]];
      [now rewrite E | exact C].
  - destruct (updateCustomEndpoint_rows sv endpointId params w) as [E | C];
      [now rewrite E | exact C].
  - rewrite deleteCustomEndpoint_run. cbn [snd rows].
    unfold constraintsHold in *. apply andb_true_iff in IH. destruct IH as [I1 I2].
    now rewrite !uniqueBy_filter.
Qed.

(** X8.  In every table that [create], [update] and [delete] can
    produce from the empty one, no two rows share an id and no two rows
    share a workspace and a name. *)
Theorem stored_endpoints_stay_unique (sv : Services) (w : World) :
  reachable sv w ->
  NoDup (map Row.id (rows w))
  /\ NoDup (map (fun r => (Row.workspaceId r, Row.name r)) (rows w)).
Proof.
  intros R. apply reachable_constraints in R.
  unfold constraintsHold in R. apply andb_true_iff in R. destruct R as [R1 R2].
  split.
  - apply (uniqueBy_NoDup sameId); [|exact R1].
    intros a b E. unfold sameId. now apply String.eqb_eq.
  - apply (uniqueBy_NoDup sameWorkspaceName); [|exact R2].
    intros a b E. injection E as E1 E2. unfold sameWorkspaceName.
    now rewrite E1, E2, !String.eqb_refl.
Qed.

Lemma stored_endpoints_stay_unique_witness :
  NoDup (map Row.id (rows afterTeamCreate))
  /\ NoDup (map (fun r => (Row.workspaceId r, Row.name r)) (rows afterTeamCreate)).
Proof.
  apply (stored_endpoints_stay_unique sampleServices).
  apply (reachStep _ emptyWorld); [constructor|]. apply (stepCreate _ teamParams).
Defined.

(** ** Routes: who may read and who may write *)

Lemma isAdmin_true (p : option Permission) : isAdmin p = true -> p = Some admin.
Proof. destruct p as [[| |]|]; cbn; congruence. Qed.

Lemma not_admin_cases (session : option string)
    (permissions : string -> string -> option Permission) (ws : string) :
  ~ adminSession session permissions ws ->
  session = None
  \/ (exists u, session = Some u /\ JS.truthy u = false)
  \/ (exists u, session = Some u /\ JS.truthy u = true
                /\ isAdmin (permissions u ws) = false).
Proof.
  intros N. destruct session as [u|]; [|now left]. right.
  destruct (JS.truthy u) eqn:T; [|left; now exists u].
  right. exists u. split; [reflexivity|]. split; [exact T|].
  destruct (isAdmin (permissions u ws)) eqn:A; [|reflexivity].
  exfalso. apply N. exists u. repeat split; [exact T | now apply isAdmin_true].
Qed.

(** X9.  Without the session of an admin of the workspace in the path,
    the handlers that write -- PATCH and DELETE on an endpoint, POST on
    the collection -- answer 401 or 403 and leave the table as it was. *)
Theorem only_admins_write
    (sv : Services) (ctx : RouteContext) (cctx : Collection.Context)
    (ws eid : string) (w : World) :
  let refused (status : Z) (before after : list Row.t) :=
    (status = 401 \/ status = 403) /\ after = before in
  (~ adminSession (getSession ctx) (getUserEntityPermissions ctx) ws ->
   (exists resp w', PATCH sv ctx ws eid w = (Ok resp, w')
                    /\ refused (status resp) (rows w) (rows w'))
   /\ (exists resp w', DELETE sv ctx ws eid w = (Ok resp, w')
                       /\ refused (status resp) (rows w) (rows w')))
  /\ (~ adminSession (Collection.getSession cctx)
          (Collection.getUserEntityPermissions cctx) ws ->
      exists resp w', Collection.POST sv cctx ws w = (Ok resp, w')
                      /\ refused (Collection.status resp) (rows w) (rows w')).
Proof.
  cbv zeta. split.
  - intros N. apply not_admin_cases in N.
    destruct N as [S | [(u & S & T) | (u & S & T & A)]];
      unfold PATCH, DELETE, tryCatch; rewrite S; rewrite ?T, ?A; cbn;
      split; eexists _, _; (split; [reflexivity|]); split; auto.
  - intros N. apply not_admin_cases in N.
    destruct N as [S | [(u & S & T) | (u & S & T & A)]];
      unfold Collection.POST, tryCatch; rewrite S; rewrite ?T, ?A; cbn;
      eexists _, _; (split; [reflexivity|]); split; auto.
Qed.

Lemma only_admins_write_witness :
  exists resp w',
    PATCH sampleServices readerContext "ws_1" "ep_1" sampleTable = (Ok resp, w')
    /\ status resp = 403
    /\ rows w' = rows sampleTable.
Proof.
  assert (N : ~ adminSession (getSession readerContext)
                (getUserEntityPermissions readerContext) "ws_1").
  { intros (u & _ & _ & P). discriminate P. }
  destruct (proj1 (proj1 (only_admins_write sampleServices readerContext
                            (Collection.mkContext None (fun _ _ => None) (fun _ => true)
                               (Throw (Error "no body")) "id" sampleLeq)
                            "ws_1" "ep_1" sampleTable) N))
    as (resp & w' & E & [S | S] & R).
  - cbv in E. injection E as <- _. discriminate S.
  - now exists resp, w'.
Defined.

Lemma keepsRows_getCustomEndpoints (sv : Services) (leq : string -> string -> bool)
    (ws : string) : keepsRows (getCustomEndpoints sv leq ws).
Proof.
  intros w. destruct (getCustomEndpoints_run sv leq ws w) as [l E]. now rewrite E.
Qed.

(** The same, knowing the reading functions of the store. *)
Ltac keeps_rows_reads :=
  repeat first
    [ apply keepsRows_getCustomEndpointById
    | apply keepsRows_getCustomEndpointByName
    | apply keepsRows_getCustomEndpoints
    | apply keepsRows_isEndpointNameAvailable
    | keeps_rows_step ].

Lemma keepsRows_GET (sv : Services) (ctx : RouteContext) (ws eid : string) :
  keepsRows (GET sv ctx ws eid).
Proof. unfold GET, json, jsonOk. keeps_rows_reads. Qed.

Lemma keepsRows_Collection_GET (sv : Services) (ctx : Collection.Context) (ws : string) :
  keepsRows (Collection.GET sv ctx ws).
Proof. unfold Collection.GET, Collection.json, Collection.jsonOk. keeps_rows_reads. Qed.

(** X10.  The handlers that read -- GET on an endpoint and GET on the
    collection -- never change the table, whatever they answer.  Without
    a session both answer 401.  GET on an endpoint answers 401 for a user
    who holds no permission on the workspace.  GET on the collection
    looks the workspace up before the permission: for a signed-in user it
    answers 404 when the workspace does not exist, whatever the user's
    permission, and 401 when the workspace exists and the user holds no
    permission on it. *)
Theorem reads_need_permission_and_never_write
    (sv : Services) (ctx : RouteContext) (cctx : Collection.Context)
    (ws eid : string) (w : World) :
  rows (snd (GET sv ctx ws eid w)) = rows w
  /\ rows (snd (Collection.GET sv cctx ws w)) = rows w
  /\ (noSession (getSession ctx)
      \/ (exists u, getSession ctx = Some u
                    /\ getUserEntityPermissions ctx u ws = None) ->
      fst (GET sv ctx ws eid w) = Ok (mkResponse 401 (ErrorBody "Unauthorized")))
  /\ (noSession (Collection.getSession cctx) ->
      fst (Collection.GET sv cctx ws w)
      = Ok (Collection.mkResponse 401 (Collection.ErrorBody "Unauthorized")))
  /\ (forall u,
        Collection.getSession cctx = Some u ->
        JS.truthy u = true ->
        Collection.getWorkspaceById cctx ws = false ->
        fst (Collection.GET sv cctx ws w)
        = Ok (Collection.mkResponse 404 (Collection.ErrorBody "Workspace not found")))
  /\ (forall u,
        Collection.getSession cctx = Some u ->
        Collection.getWorkspaceById cctx ws = true ->
        Collection.getUserEntityPermissions cctx u ws = None ->
        fst (Collection.GET sv cctx ws w)
        = Ok (Collection.mkResponse 401 (Collection.ErrorBody "Unauthorized"))).
Proof.
  split; [apply keepsRows_GET|]. split; [apply keepsRows_Collection_GET|].
  split; [|split; [|split]].
  - intros [[S | S] | (u & S & P)]; unfold GET, tryCatch; rewrite S; try reflexivity.
    destruct (JS.truthy u); cbn; [|reflexivity]. now rewrite P.
  - intros [S | S]; unfold Collection.GET, tryCatch; now rewrite S.
  - intros u S T W. unfold Collection.GET, tryCatch. now rewrite S, T, W.
  - intros u S W P. unfold Collection.GET, tryCatch. rewrite S.
    destruct (JS.truthy u); cbn; [|reflexivity]. now rewrite W, P.
Qed.

Lemma reads_need_permission_and_never_write_witness :
  fst (GET sampleServices anonymousContext "ws_1" "ep_1" sampleTable)
  = Ok (mkResponse 401 (ErrorBody "Unauthorized"))
  /\ fst (Collection.GET sampleServices anonymousCollection "ws_1" sampleTable)
     = Ok (Collection.mkResponse 401 (Collection.ErrorBody "Unauthorized"))
  /\ fst (Collection.GET sampleServices strangerCollection "ws_404" sampleTable)
     = Ok (Collection.mkResponse 404 (Collection.ErrorBody "Workspace not found"))
  /\ fst (Collection.GET sampleServices strangerCollection "ws_1" sampleTable)
     = Ok (Collection.mkResponse 401 (Collection.ErrorBody "Unauthorized")).
Proof.
  split; [|split; [|split]].
  - apply (reads_need_permission_and_never_write sampleServices anonymousContext
             sampleCollection "ws_1" "ep_1" sampleTable).
    left. now left.
  - apply (reads_need_permission_and_never_write sampleServices anonymousContext
             anonymousCollection "ws_1" "ep_1" sampleTable).
    now left.
  - apply (proj1 (proj2 (proj2 (proj2 (proj2
             (reads_need_permission_and_never_write sampleServices anonymousContext
                strangerCollection "ws_404" "ep_1" sampleTable))))) "user_9");
      reflexivity.
  - apply (proj2 (proj2 (proj2 (proj2 (proj2
             (reads_need_permission_and_never_write sampleServices anonymousContext
                strangerCollection "ws_1" "ep_1" sampleTable))))) "user_9");
      reflexivity.
Defined.

(** ** Routes: every request is answered *)

Lemma answers_json (allowed : list Z) (b : Body) (st : Z) :
  In st allowed -> answersWithin status allowed (json b st).
Proof. intros I w. exact I. Qed.

Lemma answers_cjson (allowed : list Z) (b : Collection.Body) (st : Z) :
  In st allowed -> answersWithin Collection.status allowed (Collection.json b st).
Proof. intros I w. exact I. Qed.

Lemma answers_bind {A R : Type} (statusOf : R -> Z) (allowed : list Z)
    (m : M A) (k : A -> M R) :
  (forall a, answersWithin statusOf allowed (k a)) ->
  answersWithin statusOf allowed (bind m k).
Proof.
  intros H w. unfold bind. destruct (m w) as [[a|e] w1]; [apply H | exact I].
Qed.

Lemma answers_caught {R : Type} (statusOf : R -> Z) (allowed : list Z)
    (m : M R) (h : Exn -> M R) :
  answersWithin statusOf allowed m ->
  (forall e w, exists resp w', h e w = (Ok resp, w') /\ In (statusOf resp) allowed) ->
  alwaysAnswers statusOf allowed (tryCatch m h).
Proof.
  intros Hm Hh w. unfold tryCatch. specialize (Hm w).
  destruct (m w) as [[resp|e] w1]; [now exists resp, w1 | apply Hh].
Qed.

(** Breaks a goal [answersWithin _ _ m] down along the shape of [m]. *)
Ltac answers :=
  repeat first
    [ apply answers_json; cbn; tauto
    | apply answers_cjson; cbn; tauto
    | apply answers_bind; intros ?
    | match goal with
      | |- answersWithin _ _ (match ?x with _ => _ end) => destruct x
      | |- answersWithin _ _ (let _ := _ in _) => cbv zeta
      end ].

(** X11.  Every handler answers every request: no exception leaves a
    handler, and the status is one of those the route documents -- 200,
    401, 404 or 500 for the reads; also 403 for DELETE; also 400, 403 and
    409 for PATCH; 200, 400, 401, 403, 409 or 500 for POST. *)
Theorem handlers_always_answer
    (sv : Services) (ctx : RouteContext) (cctx : Collection.Context) (ws eid : string) :
  alwaysAnswers status [200; 401; 404; 500] (GET sv ctx ws eid)
  /\ alwaysAnswers status [200; 400; 401; 403; 404; 409; 500] (PATCH sv ctx ws eid)
  /\ alwaysAnswers status [200; 401; 403; 404; 500] (DELETE sv ctx ws eid)
  /\ alwaysAnswers Collection.status [200; 401; 404; 500] (Collection.GET sv cctx ws)
  /\ alwaysAnswers Collection.status [200; 400; 401; 403; 409; 500]
       (Collection.POST sv cctx ws).
Proof.
  repeat split.
  - unfold GET. apply answers_caught.
    + unfold jsonOk. answers.
    + intros e w. unfold bind, log, json, ret. eexists _, _. split; [reflexivity|].
      cbn; tauto.
  - unfold PATCH. apply answers_caught.
    + unfold jsonOk, adminOnly, nameTaken. answers.
    + intros e w. unfold bind, log, json, ret.
      destruct e; eexists _, _; (split; [reflexivity|]); cbn; tauto.
  - unfold DELETE. apply answers_caught.
    + unfold jsonOk, adminOnly. answers.
    + intros e w. unfold bind, log, json, ret. eexists _, _. split; [reflexivity|].
      cbn; tauto.
  - unfold Collection.GET. apply answers_caught.
    + unfold Collection.jsonOk. answers.
    + intros e w. unfold bind, log, Collection.json, ret.
      eexists _, _. split; [reflexivity|]. cbn; tauto.
  - unfold Collection.POST. apply answers_caught.
    + unfold Collection.jsonOk. answers.
    + intros e w. unfold bind, log, Collection.json, ret.
      destruct e; eexists _, _; (split; [reflexivity|]); cbn; tauto.
Qed.

(** ** Routes: writes stay inside the workspace of the path *)

Lemma tryCatch_rows {A : Type} (m : M A) (h : Exn -> M A) (w : World) :
  (forall e, keepsRows (h e)) ->
  rows (snd (tryCatch m h w)) = rows (snd (m w)).
Proof.
  intros H. unfold tryCatch. destruct (m w) as [[a|e] w1]; [reflexivity|].
  cbn [snd]. apply H.
Qed.

Lemma rowsWithin_keeps {A : Type} (R : list Row.t -> list Row.t -> Prop) (m : M A) :
  (forall l, R l l) -> keepsRows m -> rowsWithin R m.
Proof. intros Rf K w. rewrite K. apply Rf. Qed.

Lemma rowsWithin_bind_left {A B : Type} (R : list Row.t -> list Row.t -> Prop)
    (m : M A) (k : A -> M B) :
  (forall l, R l l) -> keepsRows m -> (forall a, rowsWithin R (k a)) ->
  rowsWithin R (bind m k).
Proof.
  intros Rf K H w. unfold bind. specialize (K w).
  destruct (m w) as [[a|e] w1]; cbn [snd] in *.
  - rewrite <- K. apply H.
  - rewrite K. apply Rf.
Qed.

Lemma rowsWithin_bind_right {A B : Type} (R : list Row.t -> list Row.t -> Prop)
    (m : M A) (k : A -> M B) :
  rowsWithin R m -> (forall a, keepsRows (k a)) -> rowsWithin R (bind m k).
Proof.
  intros H K w. unfold bind. specialize (H w).
  destruct (m w) as [[a|e] w1]; cbn [snd] in *.
  - now rewrite K.
  - exact H.
Qed.

Lemma updateCustomEndpoint_rewrites (sv : Services) (endpointId : string)
    (params : UpdateCustomEndpointParams.t) :
  rowsWithin (rewrittenAt endpointId) (updateCustomEndpoint sv endpointId params).
Proof.
  intros w.
  destruct (updateCustomEndpoint sv endpointId params w) as [[e|x] w'] eqn:H; cbn [snd].
  - right. apply updateCustomEndpoint_inv in H.
    destruct H as (k & h & n & old & rest & _ & _ & H). cbv zeta in H.
    destruct H as (R & _). eexists. exact R.
  - left. now apply updateCustomEndpoint_Throw_rows in H.
Qed.

Lemma createCustomEndpoint_grows (sv : Services) (params : CreateCustomEndpointParams.t) :
  rowsWithin (grownIn (CreateCustomEndpointParams.workspaceId params))
    (createCustomEndpoint sv params).
Proof.
  intros w.
  destruct (createCustomEndpoint sv params w) as [[e|x] w'] eqn:H; cbn [snd].
  - right. apply createCustomEndpoint_inv in H. cbv zeta in H.
    destruct H as (k & h & _ & _ & _ & -> & _).
    exists (createdRow sv params w k h). now split.
  - left. destruct (createCustomEndpoint_rows sv params w) as [[R _] | [_ [y Y]]];
      rewrite H in *; [exact R | discriminate].
Qed.

(** What PATCH does to the table: nothing, or one assignment to the
    rows of the id, and this only for an endpoint of the workspace. *)
Lemma PATCH_rows (sv : Services) (ctx : RouteContext) (ws eid : string) (w : World) :
  rows (snd (PATCH sv ctx ws eid w)) = rows w
  \/ (exists first rest,
        filter (byId eid) (rows w) = first :: rest
        /\ Row.workspaceId first = ws
        /\ rewrittenAt eid (rows w) (rows (snd (PATCH sv ctx ws eid w)))).
Proof.
  remember (rows (snd (PATCH sv ctx ws eid w))) as after eqn:A.
  unfold PATCH in A. rewrite tryCatch_rows in A
    by (intros [m|m]; unfold json; keeps_rows).
  destruct (getSession ctx) as [u|]; [|now left].
  destruct (negb (JS.truthy u)); [now left|].
  destruct (negb (isAdmin _)); [now left|].
  unfold bind at 1 in A. rewrite getCustomEndpointById_run in A.
  destruct (filter (byId eid) (rows w)) as [|first rest] eqn:F; [now left|].
  cbn [resolved withCredentials CustomLlmEndpointWithCredentials.workspaceId
       CustomLlmEndpointWithCredentials.name] in A.
  destruct (Row.workspaceId first =? ws)%string eqn:E; cbn [negb] in A; [|now left].
  apply String.eqb_eq in E. right. exists first, rest.
  split; [reflexivity|]. split; [exact E|].
  match type of A with
  | after = rows (snd (?k (addLogs w ?l))) =>
      assert (K : rowsWithin (rewrittenAt eid) k)
  end.
  { assert (Rf : forall l, rewrittenAt eid l l) by (intros l; now left).
    apply rowsWithin_bind_left; [exact Rf | keeps_rows|]. intros parsed. cbv zeta.
    apply rowsWithin_bind_left; [exact Rf | |].
    { destruct (UpdateCustomEndpointParams.name parsed) as [n|]; [|keeps_rows].
      destruct (_ && _); [apply keepsRows_isEndpointNameAvailable | keeps_rows]. }
    intros available. destruct (negb available).
    - apply rowsWithin_keeps; [exact Rf|]. unfold nameTaken, json. keeps_rows.
    - apply rowsWithin_bind_right; [apply updateCustomEndpoint_rewrites|].
      intros endpoint. unfold jsonOk, json. keeps_rows. }
  rewrite A. exact (K (addLogs w _)).
Qed.

(** What DELETE does to the table: nothing, or the removal of the rows
    of the id, and this only for an endpoint of the workspace. *)
Lemma DELETE_rows (sv : Services) (ctx : RouteContext) (ws eid : string) (w : World) :
  rows (snd (DELETE sv ctx ws eid w)) = rows w
  \/ (exists first rest,
        filter (byId eid) (rows w) = first :: rest
        /\ Row.workspaceId first = ws
        /\ rows (snd (DELETE sv ctx ws eid w))
           = filter (fun r => negb (Row.id r =? eid)%string) (rows w)).
Proof.
  remember (rows (snd (DELETE sv ctx ws eid w))) as after eqn:A.
  unfold DELETE in A. rewrite tryCatch_rows in A
    by (intros e; unfold json; keeps_rows).
  destruct (getSession ctx) as [u|]; [|now left].
  destruct (negb (JS.truthy u)); [now left|].
  destruct (negb (isAdmin _)); [now left|].
  unfold bind at 1 in A. rewrite getCustomEndpointById_run in A.
  destruct (filter (byId eid) (rows w)) as [|first rest] eqn:F; [now left|].
  cbn [resolved withCredentials CustomLlmEndpointWithCredentials.workspaceId] in A.
  destruct (Row.workspaceId first =? ws)%string eqn:E; cbn [negb] in A; [|now left].
  apply String.eqb_eq in E. right. exists first, rest.
  split; [reflexivity|]. split; [exact E|]. exact A.
Qed.

(** What POST does to the table: nothing, or one more row of the
    workspace of the path. *)
Lemma POST_rows (sv : Services) (ctx : Collection.Context) (ws : string) (w : World) :
  grownIn ws (rows w) (rows (snd (Collection.POST sv ctx ws w))).
Proof.
  unfold Collection.POST. rewrite tryCatch_rows
    by (intros [m|m]; unfold Collection.json; keeps_rows).
  assert (Rf : forall l, grownIn ws l l) by (intros l; now left).
  destruct (Collection.getSession ctx) as [u|]; [|apply Rf].
  destruct (negb (JS.truthy u)); [apply Rf|].
  destruct (negb (isAdmin _)); [apply Rf|].
  match goal with
  | |- grownIn ws (rows w) (rows (snd (?k w))) => assert (K : rowsWithin (grownIn ws) k)
  end.
  { apply rowsWithin_bind_left; [exact Rf | keeps_rows|]. intros parsed.
    apply rowsWithin_bind_left;
      [exact Rf | apply keepsRows_isEndpointNameAvailable|].
    intros available. destruct (negb available).
    - apply rowsWithin_keeps; [exact Rf|]. unfold Collection.json. keeps_rows.
    - apply rowsWithin_bind_right.
      + apply (createCustomEndpoint_grows sv
                 (CreateCustomEndpointParams.mk (Collection.nanoid ctx) ws
                    (Collection.name parsed) (Collection.baseUrl parsed)
                    (Some (Collection.apiType parsed)) (Collection.apiKey parsed)
                    (Collection.headers parsed) u)).
      + intros endpoint. unfold Collection.jsonOk, Collection.json. keeps_rows. }
  exact (K w).
Qed.

Lemma unique_id_filter (i : string) (l : list Row.t) :
  uniqueBy sameId l = true ->
  forall r rest, filter (byId i) l = r :: rest -> rest = [].
Proof.
  induction l as [|x l IH]; intros U r rest F; [discriminate|].
  cbn [uniqueBy] in U. apply andb_true_iff in U. destruct U as [U1 U2].
  apply negb_true_iff in U1. cbn [filter] in F.
  destruct (byId i x) eqn:X.
  - injection F as <- F. destruct rest as [|y rest]; [reflexivity|].
    assert (Y : In y (filter (byId i) l)) by (rewrite F; now left).
    apply filter_In in Y. destruct Y as [Y1 Y2].
    pose proof (existsb_false_In _ _ _ U1 Y1) as N.
    unfold byId in X, Y2. apply String.eqb_eq in X, Y2.
    unfold sameId in N. rewrite X, Y2, String.eqb_refl in N. discriminate.
  - eauto.
Qed.

Lemma owner_of_id (ws eid : string) (l : list Row.t) (first : Row.t) (rest : list Row.t) :
  constraintsHold l = true ->
  filter (byId eid) l = first :: rest ->
  Row.workspaceId first = ws ->
  forall r, In r l -> Row.workspaceId r <> ws -> (Row.id r =? eid)%string = false.
Proof.
  intros C F W r I N. unfold constraintsHold in C.
  apply andb_true_iff in C. destruct C as [C _].
  pose proof (unique_id_filter eid l C _ _ F) as ->.
  destruct (Row.id r =? eid)%string eqn:E; [|reflexivity].
  assert (X : In r (filter (byId eid) l)) by (apply filter_In; now split).
  rewrite F in X. destruct X as [<-|[]]. contradiction.
Qed.

(** X12.  On a table that satisfies its constraints, a request to the
    handlers that write changes no row of another workspace than the one
    in its path: every such row is there afterwards, unchanged, and no
    such row is added. *)
Theorem writes_stay_in_the_workspace
    (sv : Services) (ctx : RouteContext) (cctx : Collection.Context)
    (ws eid : string) (w : World) :
  constraintsHold (rows w) = true ->
  sameOutside ws (rows w) (rows (snd (PATCH sv ctx ws eid w)))
  /\ sameOutside ws (rows w) (rows (snd (DELETE sv ctx ws eid w)))
  /\ sameOutside ws (rows w) (rows (snd (Collection.POST sv cctx ws w))).
Proof.
  intros C. split; [|split]; intros r N.
  - destruct (PATCH_rows sv ctx ws eid w) as [-> | (first & rest & F & W & [-> | [u ->]])];
      try reflexivity.
    split.
    + intros I. apply in_map_iff. exists r. split; [|exact I].
      now rewrite (owner_of_id ws eid _ _ _ C F W r I N).
    + intros I. apply in_map_iff in I. destruct I as (x & X & I).
      destruct (Row.id x =? eid)%string eqn:E; [|now subst x].
      exfalso. assert (Y : In x (filter (byId eid) (rows w))) by (apply filter_In; now split).
      unfold constraintsHold in C. apply andb_true_iff in C. destruct C as [C _].
      pose proof (unique_id_filter eid _ C _ _ F) as ->. rewrite F in Y.
      destruct Y as [<-|[]]. subst r. now apply N.
  - destruct (DELETE_rows sv ctx ws eid w) as [-> | (first & rest & F & W & ->)];
      [reflexivity|].
    rewrite filter_In. split; [|tauto].
    intros I. split; [exact I|].
    now rewrite (owner_of_id ws eid _ _ _ C F W r I N).
  - destruct (POST_rows sv cctx ws w) as [-> | (x & X & ->)]; [reflexivity|].
    rewrite in_app_iff. split; [tauto|].
    intros [I | [<- | []]]; [exact I | contradiction].
Qed.

Lemma writes_stay_in_the_workspace_witness :
  sameOutside "ws_1" (rows sampleTable)
    (rows (snd (DELETE sampleServices sampleContext "ws_1" "ep_1" sampleTable)))
  /\ rows (snd (DELETE sampleServices sampleContext "ws_1" "ep_1" sampleTable))
     = [secondRow; foreignRow].
Proof.
  split; [|reflexivity].
  exact (proj1 (proj2 (writes_stay_in_the_workspace sampleServices sampleContext
                         sampleCollection "ws_1" "ep_1" sampleTable eq_refl))).
Defined.

(* ================================================================== *)
(** ** Routes: what an admin's request does                            *)
(* ================================================================== *)

Lemma bind_run {A B : Type} (m : M A) (k : A -> M B) (w w1 : World) (a : A) :
  m w = (Ok a, w1) -> bind m k w = k a w1.
Proof. intros H. unfold bind. now rewrite H. Qed.

Lemma bind_fail {A B : Type} (m : M A) (k : A -> M B) (w w1 : World) (e : Exn) :
  m w = (Throw e, w1) -> bind m k w = (Throw e, w1).
Proof. intros H. unfold bind. now rewrite H. Qed.

Lemma tryCatch_ok {A : Type} (m : M A) (h : Exn -> M A) (w w1 : World) (a : A) :
  m w = (Ok a, w1) -> tryCatch m h w = (Ok a, w1).
Proof. intros H. unfold tryCatch. now rewrite H. Qed.

Lemma tryCatch_caught {A : Type} (m : M A) (h : Exn -> M A) (w w1 : World) (e : Exn) :
  m w = (Throw e, w1) -> tryCatch m h w = h e w1.
Proof. intros H. unfold tryCatch. now rewrite H. Qed.

Lemma filter_first {A : Type} (p : A -> bool) (l : list A) (x : A) :
  In x l -> p x = true -> exists first rest, filter p l = first :: rest.
Proof.
  intros I P. assert (X : In x (filter p l)) by (apply filter_In; now split).
  destruct (filter p l) as [|first rest]; [destruct X|]. now exists first, rest.
Qed.

(** On a table that satisfies its constraints, the row of an id is the
    only one the lookup by id finds. *)
Lemma target_is_found (l : list Row.t) (target : Row.t) :
  constraintsHold l = true ->
  In target l ->
  filter (byId (Row.id target)) l = [target].
Proof.
  intros C I. unfold constraintsHold in C. apply andb_true_iff in C. destruct C as [C _].
  destruct (filter_first (byId (Row.id target)) l target I) as (first & rest & F).
  { unfold byId. apply String.eqb_refl. }
  pose proof (unique_id_filter _ _ C _ _ F) as ->.
  assert (X : In target (filter (byId (Row.id target)) l)).
  { apply filter_In. split; [exact I|]. unfold byId. apply String.eqb_refl. }
  rewrite F in X. destruct X as [->|[]]. exact F.
Qed.

(** X13.  An admin's POST whose body names an endpoint that the
    workspace already has is answered 409 with the message that names it,
    and nothing is stored, logged or encrypted. *)
Theorem post_refuses_taken_name
    (sv : Services) (cctx : Collection.Context) (ws : string) (w : World)
    (body : Collection.CreateBody) (r : Row.t) :
  adminSession (Collection.getSession cctx) (Collection.getUserEntityPermissions cctx) ws ->
  Collection.parseBody cctx = Ok body ->
  In r (rows w) ->
  Row.workspaceId r = ws ->
  Row.name r = Collection.name body ->
  Collection.POST sv cctx ws w
  = (Ok (Collection.mkResponse 409
           (Collection.ErrorBody (takenMessage (Collection.name body)))), w).
Proof.
  intros (u & S & T & P) B I W N. unfold Collection.POST. rewrite S, T, P.
  cbn [negb isAdmin]. apply tryCatch_ok.
  unfold bind at 1, lift. rewrite B. unfold bind at 1.
  rewrite isEndpointNameAvailable_run.
  destruct (filter_first (byName ws (Collection.name body)) (rows w) r I)
    as (first & rest & F).
  { unfold byName. rewrite W, N, !String.eqb_refl. reflexivity. }
  rewrite F. reflexivity.
Qed.

Lemma post_refuses_taken_name_witness :
  Collection.POST sampleServices duplicateCollection "ws_1" sampleTable
  = (Ok (Collection.mkResponse 409 (Collection.ErrorBody (takenMessage "alpha"))),
     sampleTable).
Proof.
  apply (post_refuses_taken_name sampleServices duplicateCollection "ws_1" sampleTable
           (Collection.mkCreateBody "alpha" "https://t:8000" openai None None) secondRow).
  - exists "user_1". repeat split.
  - reflexivity.
  - right. now left.
  - reflexivity.
  - reflexivity.
Defined.

(** [create] returns only when no stored row has the name in the
    workspace of the parameters. *)
Lemma create_needs_free_name (sv : Services) (params : CreateCustomEndpointParams.t)
    (w w1 : World) (e : CustomLlmEndpoint.t) :
  createCustomEndpoint sv params w = (Ok e, w1) ->
  forall r, In r (rows w) ->
            byName (CreateCustomEndpointParams.workspaceId params)
              (CreateCustomEndpointParams.name params) r = false.
Proof.
  intros H r I. apply createCustomEndpoint_inv in H. cbv zeta in H.
  destruct H as (encKey & encHdr & _ & _ & C & _).
  unfold constraintsHold in C. apply andb_true_iff in C. destruct C as [_ C].
  apply uniqueBy_app_last in C. destruct C as [_ C]. exact (C r I).
Qed.

(** X14.  For an admin's POST with a body the schema accepts, the
    handler answers 200 exactly when the store's [create] returns for the
    row made of the request's id, the workspace of the path, the fields of
    the body and the session's user as creator.  The answer then carries
    the endpoint [create] returned, which describes that row, and the
    table is the one before with that row appended.  Whether the row is
    accepted is [create]'s matter; a name already stored in the workspace
    is answered 409 before [create] is called. *)
Theorem post_creates_endpoint
    (sv : Services) (cctx : Collection.Context) (ws user : string) (w : World)
    (body : Collection.CreateBody) :
  Collection.getSession cctx = Some user ->
  JS.truthy user = true ->
  Collection.getUserEntityPermissions cctx user ws = Some admin ->
  Collection.parseBody cctx = Ok body ->
  let params :=
    CreateCustomEndpointParams.mk (Collection.nanoid cctx) ws (Collection.name body)
      (Collection.baseUrl body) (Some (Collection.apiType body))
      (Collection.apiKey body) (Collection.headers body) user in
  exists resp w',
    Collection.POST sv cctx ws w = (Ok resp, w')
    /\ (Collection.status resp = 200
        <-> exists e w1, createCustomEndpoint sv params w = (Ok e, w1))
    /\ forall e w1,
         createCustomEndpoint sv params w = (Ok e, w1) ->
         resp = Collection.mkResponse 200 (Collection.CreatedBody e)
         /\ rows w' = rows w1
         /\ (exists encKey encHdr,
               rows w1
               = rows w ++ [Row.mk (Collection.nanoid cctx) ws (Collection.name body)
                              (Collection.baseUrl body) (Some (Collection.apiType body))
                              encKey encHdr (Some user)
                              (clock sv (ticks w)) (clock sv (S (ticks w)))]
               /\ e = CustomLlmEndpoint.mk (Collection.nanoid cctx) ws
                        (Collection.name body) (Collection.baseUrl body)
                        (Collection.apiType body) (JS.truthy_opt encKey)
                        (namesOf (Collection.headers body)) (Some user)
                        (clock sv (ticks w)) (clock sv (S (ticks w)))).
Proof.
  intros S T P B params.
  assert (E : Collection.POST sv cctx ws w
              = tryCatch
                  (isAvailable <- isEndpointNameAvailable ws (Collection.name body) None ;;
                   if negb isAvailable
                   then Collection.json
                          (Collection.ErrorBody
                             ("An endpoint with the name " ++ JS.quote
                              ++ Collection.name body ++ JS.quote
                              ++ " already exists in this workspace")%string) 409
                   else
                     endpoint <- createCustomEndpoint sv params ;;
                     log LInfo "Created custom LLM endpoint" ;;;
                     Collection.jsonOk (Collection.CreatedBody endpoint))
                  (fun e =>
                     log LError "Custom LLM endpoint POST error" ;;;
                     match e with
                     | ZodError m => Collection.json (Collection.ErrorBody m) 400
                     | Error m => Collection.json (Collection.ErrorBody m) 500
                     end) w).
  { unfold Collection.POST. rewrite S, T, P. cbn [negb isAdmin].
    unfold tryCatch, bind at 1, lift. rewrite B. reflexivity. }
  rewrite E. clear E.
  destruct (filter (byName ws (Collection.name body)) (rows w)) as [|first rest] eqn:F.
  - destruct (createCustomEndpoint sv params w) as [[e|x] w1] eqn:CR.
    + eexists _, _. split; [|split].
      * apply tryCatch_ok. unfold bind at 1.
        rewrite isEndpointNameAvailable_run, F. cbn [negb].
        rewrite (bind_run _ _ _ _ _ CR).
        unfold bind, log, Collection.jsonOk, Collection.json, ret. reflexivity.
      * cbn [Collection.status]. split; [intros _; now exists e, w1 | reflexivity].
      * intros e' w1' H. injection H as <- <-.
        split; [reflexivity|]. split; [reflexivity|].
        apply createCustomEndpoint_inv in CR. cbv zeta in CR.
        destruct CR as (encKey & encHdr & _ & _ & _ & -> & ->).
        exists encKey, encHdr. split; reflexivity.
    + assert (M : (isAvailable <- isEndpointNameAvailable ws (Collection.name body) None ;;
                   if negb isAvailable
                   then Collection.json
                          (Collection.ErrorBody
                             ("An endpoint with the name " ++ JS.quote
                              ++ Collection.name body ++ JS.quote
                              ++ " already exists in this workspace")%string) 409
                   else
                     endpoint <- createCustomEndpoint sv params ;;
                     log LInfo "Created custom LLM endpoint" ;;;
                     Collection.jsonOk (Collection.CreatedBody endpoint))%js w
                  = (Throw x, w1)).
      { unfold bind at 1. rewrite isEndpointNameAvailable_run, F. cbn [negb].
        now rewrite (bind_fail _ _ _ _ _ CR). }
      rewrite (tryCatch_caught _ _ _ _ _ M).
      destruct x as [m|m]; eexists _, _;
        (split; [unfold bind, log, Collection.json, ret; reflexivity|]);
        cbn [Collection.status];
        (split; [split; [discriminate | intros (e & w2 & H); discriminate]|]);
        intros e w2 H; discriminate.
  - assert (I : In first (rows w) /\ byName ws (Collection.name body) first = true).
    { apply filter_In. rewrite F. now left. }
    assert (N : forall e w1, createCustomEndpoint sv params w <> (Ok e, w1)).
    { intros e w1 H. pose proof (create_needs_free_name sv params w w1 e H first (proj1 I)) as X.
      cbn [params CreateCustomEndpointParams.workspaceId CreateCustomEndpointParams.name] in X.
      now rewrite (proj2 I) in X. }
    eexists _, _. split; [|split].
    + apply tryCatch_ok. unfold bind at 1.
      rewrite isEndpointNameAvailable_run, F. cbn [negb andb JS.truthy_opt].
      unfold Collection.json, ret. reflexivity.
    + cbn [Collection.status].
      split; [discriminate | intros (e & w1 & H); now apply N in H].
    + intros e w1 H. now apply N in H.
Qed.

Lemma post_creates_endpoint_witness :
  exists e w',
    Collection.POST sampleServices sampleCollection "ws_1" sampleTable
    = (Ok (Collection.mkResponse 200 (Collection.CreatedBody e)), w')
    /\ rows w'
       = rows sampleTable
         ++ [Row.mk "ep_7" "ws_1" "team-llm" "https://t:8000" (Some google)
               (Some "enc:sk-team") (Some "enc:X-Team=ml;") (Some "user_1")
               1700000000000 1700000000001]
    /\ e = CustomLlmEndpoint.mk "ep_7" "ws_1" "team-llm" "https://t:8000" google
             true ["X-Team"] (Some "user_1") 1700000000000 1700000000001.
Proof.
  destruct (post_creates_endpoint sampleServices sampleCollection "ws_1" "user_1"
              sampleTable
              (Collection.mkCreateBody "team-llm" "https://t:8000" google
                 (Some "sk-team") (Some [("X-Team", "ml")]))
              eq_refl eq_refl eq_refl eq_refl)
    as (resp & w' & Q & _ & K).
  destruct (K _ _ eq_refl) as (R & W & _).
  eexists _, w'. rewrite R in Q. split; [exact Q|].
  split; [rewrite W; reflexivity | reflexivity].
Defined.

(** On a table that satisfies its constraints, two rows with one id are
    one row. *)
Lemma same_id_same_row (l : list Row.t) (a b : Row.t) :
  constraintsHold l = true -> In a l -> In b l -> Row.id a = Row.id b -> a = b.
Proof.
  intros C A B E. pose proof (target_is_found l b C B) as F.
  assert (X : In a (filter (byId (Row.id b)) l)).
  { apply filter_In. split; [exact A|]. unfold byId. rewrite E. apply String.eqb_refl. }
  rewrite F in X. now destruct X as [<-|[]].
Qed.

(** X15.  An admin's PATCH that renames an endpoint to the name of
    another endpoint of the workspace is answered 409 with the message
    that names it, and the table stays as it was. *)
Theorem patch_refuses_taken_name
    (sv : Services) (ctx : RouteContext) (ws : string) (w : World)
    (params : UpdateCustomEndpointParams.t) (target other : Row.t) :
  adminSession (getSession ctx) (getUserEntityPermissions ctx) ws ->
  constraintsHold (rows w) = true ->
  In target (rows w) -> Row.workspaceId target = ws ->
  In other (rows w) -> Row.workspaceId other = ws ->
  Row.name other <> Row.name target ->
  JS.truthy (Row.name other) = true ->
  parseBody ctx = Ok params ->
  UpdateCustomEndpointParams.name params = Some (Row.name other) ->
  fst (PATCH sv ctx ws (Row.id target) w)
  = Ok (mkResponse 409 (ErrorBody (takenMessage (Row.name other))))
  /\ rows (snd (PATCH sv ctx ws (Row.id target) w)) = rows w.
Proof.
  intros (u & S & T & P) C IT WT IO WO D TN B N.
  assert (R : PATCH sv ctx ws (Row.id target) w
              = (Ok (mkResponse 409 (ErrorBody (takenMessage (Row.name other)))),
                 addLogs w (resolutionLog sv target))).
  { unfold PATCH. rewrite S, T, P. cbn [negb isAdmin]. apply tryCatch_ok.
    unfold bind at 1. rewrite getCustomEndpointById_run, (target_is_found _ _ C IT).
    cbn [resolved withCredentials CustomLlmEndpointWithCredentials.workspaceId
         CustomLlmEndpointWithCredentials.name].
    rewrite WT, String.eqb_refl. cbn [negb].
    unfold bind at 1, lift. rewrite B. cbv zeta. rewrite N, TN.
    apply String.eqb_neq in D. rewrite D. cbn [negb andb].
    unfold bind at 1. rewrite isEndpointNameAvailable_run. cbn [rows addLogs].
    destruct (filter_first (byName ws (Row.name other)) (rows w) other IO)
      as (first & rest & F).
    { unfold byName. now rewrite WO, !String.eqb_refl. }
    rewrite F.
    assert (U : uniqueBy sameWorkspaceName (rows w) = true).
    { unfold constraintsHold in C. apply andb_true_iff in C. apply C. }
    pose proof (unique_name_filter _ _ _ U _ _ F) as ->.
    assert (X : In other (filter (byName ws (Row.name other)) (rows w))).
    { apply filter_In. split; [exact IO|]. unfold byName.
      now rewrite WO, !String.eqb_refl. }
    rewrite F in X. destruct X as [->|[]].
    assert (I : (Row.id other =? Row.id target)%string = false).
    { apply String.eqb_neq. intros E.
      apply String.eqb_neq in D. apply D.
      now rewrite (same_id_same_row _ _ _ C IO IT E). }
    rewrite I, andb_false_r. reflexivity. }
  rewrite R. split; reflexivity.
Qed.

Lemma patch_refuses_taken_name_witness :
  fst (PATCH sampleServices renameContext "ws_1" "ep_1" sampleTable)
  = Ok (mkResponse 409 (ErrorBody (takenMessage "alpha")))
  /\ rows (snd (PATCH sampleServices renameContext "ws_1" "ep_1" sampleTable))
     = rows sampleTable.
Proof.
  apply (patch_refuses_taken_name sampleServices renameContext "ws_1" sampleTable
           (UpdateCustomEndpointParams.mk (Some "alpha") None Omitted Omitted)
           damagedKeyRow secondRow); try reflexivity.
  - exists "user_1". repeat split.
  - now left.
  - right. now left.
  - discriminate.
Defined.

(** X16.  An admin's DELETE of an endpoint of the workspace answers
    200 and removes that row and no other; afterwards GET and DELETE on
    the same id answer 404. *)
Theorem delete_route_removes_endpoint
    (sv : Services) (ctx : RouteContext) (ws : string) (w : World) (target : Row.t) :
  adminSession (getSession ctx) (getUserEntityPermissions ctx) ws ->
  constraintsHold (rows w) = true ->
  In target (rows w) ->
  Row.workspaceId target = ws ->
  exists w',
    DELETE sv ctx ws (Row.id target) w = (Ok (mkResponse 200 SuccessBody), w')
    /\ (forall r, In r (rows w') <-> In r (rows w) /\ r <> target)
    /\ fst (GET sv ctx ws (Row.id target) w')
       = Ok (mkResponse 404 (ErrorBody "Endpoint not found"))
    /\ fst (DELETE sv ctx ws (Row.id target) w')
       = Ok (mkResponse 404 (ErrorBody "Endpoint not found")).
Proof.
  intros (u & S & T & P) C IT WT.
  eexists. split; [|split; [|split]].
  - unfold DELETE. rewrite S, T, P. cbn [negb isAdmin]. apply tryCatch_ok.
    unfold bind at 1. rewrite getCustomEndpointById_run, (target_is_found _ _ C IT).
    cbn [resolved withCredentials CustomLlmEndpointWithCredentials.workspaceId].
    rewrite WT, String.eqb_refl. cbn [negb].
    unfold bind at 1. rewrite deleteCustomEndpoint_run.
    unfold bind, log, jsonOk, json, ret. cbn [rows logs ticks seeds calls addLogs].
    reflexivity.
  - intros r. cbn [rows]. rewrite filter_In. split.
    + intros [I N]. split; [exact I|]. intros ->.
      now rewrite String.eqb_refl in N.
    + intros [I N]. split; [exact I|]. apply negb_true_iff, String.eqb_neq.
      intros E. apply N. exact (same_id_same_row _ _ _ C I IT E).
  - unfold GET. rewrite S, T, P. cbn [negb]. unfold tryCatch, bind at 1.
    rewrite getCustomEndpointById_run. cbn [rows].
    rewrite filter_none; [reflexivity|].
    intros x X. apply filter_In in X. destruct X as [_ X]. unfold byId.
    now apply negb_true_iff in X.
  - unfold DELETE. rewrite S, T, P. cbn [negb isAdmin]. unfold tryCatch, bind at 1.
    rewrite getCustomEndpointById_run. cbn [rows].
    rewrite filter_none; [reflexivity|].
    intros x X. apply filter_In in X. destruct X as [_ X]. unfold byId.
    now apply negb_true_iff in X.
Qed.

Lemma delete_route_removes_endpoint_witness :
  exists w',
    DELETE sampleServices sampleContext "ws_1" "ep_2" sampleTable
    = (Ok (mkResponse 200 SuccessBody), w')
    /\ (forall r, In r (rows w') <-> In r (rows sampleTable) /\ r <> secondRow)
    /\ fst (GET sampleServices sampleContext "ws_1" "ep_2" w')
       = Ok (mkResponse 404 (ErrorBody "Endpoint not found"))
    /\ fst (DELETE sampleServices sampleContext "ws_1" "ep_2" w')
       = Ok (mkResponse 404 (ErrorBody "Endpoint not found")).
Proof.
  apply (delete_route_removes_endpoint sampleServices sampleContext "ws_1" sampleTable
           secondRow); try reflexivity.
  - exists "user_1". repeat split.
  - right. now left.
Defined.

(* ================================================================== *)
(** ** Dispatcher: what reaches the provider executor                  *)
(* ================================================================== *)

Ltac record_fields :=
  repeat match goal with
         | |- _ /\ _ => split
         | |- forall f : Parser.Family, _ => intros []
         | |- _ => reflexivity
         end.

Lemma sameCarried_refl (r : ProviderRequest.t) : sameCarried r r.
Proof. unfold sameCarried. record_fields. Qed.

Lemma sameCarried_trans (a b c : ProviderRequest.t) :
  sameCarried a b -> sameCarried b c -> sameCarried a c.
Proof.
  unfold sameCarried. intros (A1 & A2 & A3 & A4 & A5) (B1 & B2 & B3 & B4 & B5).
  repeat split; congruence.
Qed.

Lemma sameCredentials_trans (a b c : ProviderRequest.t) :
  sameCredentials a b -> sameCredentials b c -> sameCredentials a c.
Proof.
  unfold sameCredentials. intros [A1 A2] [B1 B2]. split; [congruence|].
  intros f. now rewrite A2.
Qed.

Lemma withIsBYOK_same (r : ProviderRequest.t) (b : option bool) :
  sameCarried (withIsBYOK r b) r /\ sameCredentials (withIsBYOK r b) r.
Proof. destruct r. unfold sameCarried, sameCredentials. cbn. record_fields. Qed.

Lemma withApiKey_same (r : ProviderRequest.t) (k : option string) :
  sameCarried (withApiKey r k) r
  /\ ProviderRequest.apiKey (withApiKey r k) = k
  /\ forall f, endpointFields f (withApiKey r k) = endpointFields f r.
Proof. destruct r. unfold sameCarried. cbn. record_fields. Qed.

Lemma withEndpoint_same (f : Parser.Family) (r : ProviderRequest.t)
    (cfg : CustomLlmEndpointWithCredentials.t) :
  sameCarried (withEndpoint f r cfg) r.
Proof. destruct f, r. all: unfold sameCarried; cbn; record_fields. Qed.

Lemma withEndpoint_fields (f : Parser.Family) (r : ProviderRequest.t)
    (cfg : CustomLlmEndpointWithCredentials.t) :
  endpointFields f (withEndpoint f r cfg)
  = (Some (CustomLlmEndpointWithCredentials.baseUrl cfg),
     Some (CustomLlmEndpointWithCredentials.name cfg),
     CustomLlmEndpointWithCredentials.headers cfg)
  /\ ProviderRequest.apiKey (withEndpoint f r cfg)
     = Some (JS.or_else (CustomLlmEndpointWithCredentials.apiKey cfg) "empty")
  /\ forall g, g <> f -> endpointFields g (withEndpoint f r cfg) = endpointFields g r.
Proof.
  destruct f, r; cbn; (split; [reflexivity|]); (split; [reflexivity|]);
    intros [] N; try reflexivity; now contradiction N.
Qed.

Lemma sanitizeRequest_same (co : Collaborators) (r : ProviderRequest.t) :
  ProviderRequest.model (sanitizeRequest co r) = ProviderRequest.model r
  /\ ProviderRequest.temperature (sanitizeRequest co r) = sanitizedTemperature co r
  /\ ProviderRequest.context (sanitizeRequest co r) = ProviderRequest.context r
  /\ ProviderRequest.workspaceId (sanitizeRequest co r) = ProviderRequest.workspaceId r
  /\ ProviderRequest.rest (sanitizeRequest co r) = ProviderRequest.rest r
  /\ sameCredentials (sanitizeRequest co r) r.
Proof.
  unfold sanitizeRequest, sanitizedTemperature, sameCredentials.
  destruct (_ && _); destruct r; cbn; record_fields.
Qed.

(** The step on the response format always succeeds and touches only
    the response format and the system prompt, and the log. *)
Lemma applyResponseFormat_same (co : Collaborators) (r : ProviderRequest.t) (w : World) :
  exists sent w2,
    applyResponseFormat co r w = (Ok sent, w2)
    /\ sameCarried sent r /\ sameCredentials sent r
    /\ ProviderRequest.isBYOK sent = ProviderRequest.isBYOK r
    /\ rows w2 = rows w /\ calls w2 = calls w /\ ticks w2 = ticks w.
Proof.
  unfold applyResponseFormat, sameCarried, sameCredentials.
  destruct (truthyFormat (ProviderRequest.responseFormat r));
    [|exists r, w; record_fields].
  destruct (ProviderRequest.responseFormat r) as [rf|]; [|exists r, w; record_fields].
  destruct (isEmptyStringFormat rf).
  - eexists _, _. unfold bind, log, ret. cbn. split; [reflexivity|].
    destruct r; cbn; record_fields.
  - destruct (JS.truthy _); [|exists r, w; record_fields].
    eexists _, _. unfold bind, log, ret. cbn. split; [reflexivity|].
    destruct r; cbn; record_fields.
Qed.

(** The cost step always succeeds; it keeps the content, the model and
    the token usage, and returns a response without usage as it is. *)
Lemma attachCost_run (sv : Services) (co : Collaborators) (request : ProviderRequest.t)
    (isBYOK : bool) (r0 : ProviderResponse.t) (w : World) :
  exists billed w',
    attachCost sv co request isBYOK r0 w = (Ok billed, w')
    /\ ProviderResponse.content billed = ProviderResponse.content r0
    /\ ProviderResponse.model billed = ProviderResponse.model r0
    /\ ProviderResponse.tokens billed = ProviderResponse.tokens r0
    /\ (ProviderResponse.tokens r0 = None -> billed = r0 /\ w' = w)
    /\ rows w' = rows w /\ calls w' = calls w.
Proof.
  unfold attachCost. destruct (ProviderResponse.tokens r0) as [t|] eqn:T.
  - destruct (_ && _).
    + eexists _, _. split; [reflexivity|]. cbn. repeat split; discriminate.
    + eexists _, _. unfold bind, newDate, nextTick, log, ret. cbn.
      split; [reflexivity|]. repeat split; discriminate.
  - exists r0, w. repeat split. exact T.
Qed.

Lemma resolveCustomEndpoint_found (sv : Services) (f : Parser.Family) (wsid : string)
    (request r0 : ProviderRequest.t) (w : World) (r : Row.t) (rest : list Row.t) :
  let endpointName :=
    Parser.endpointName (Parser.parse f (ProviderRequest.model request)) in
  JS.truthy endpointName = true ->
  filter (byName wsid endpointName) (rows w) = r :: rest ->
  exists w1,
    resolveCustomEndpoint sv f wsid request r0 w
    = (Ok (withEndpoint f r0 (resolved sv r)), w1)
    /\ rows w1 = rows w /\ calls w1 = calls w.
Proof.
  intros endpointName T F. unfold resolveCustomEndpoint.
  fold endpointName. rewrite T.
  unfold tryCatch, bind at 1. rewrite getCustomEndpointByName_run, F.
  unfold bind, log, ret. cbn. eexists. repeat split.
Qed.

Lemma resolveCustomEndpoint_unnamed (sv : Services) (f : Parser.Family) (wsid : string)
    (request r0 : ProviderRequest.t) (w : World) :
  JS.truthy (Parser.endpointName (Parser.parse f (ProviderRequest.model request))) = false ->
  resolveCustomEndpoint sv f wsid request r0 w = (Ok r0, w).
Proof. intros T. unfold resolveCustomEndpoint. now rewrite T. Qed.

Lemma resolveCredentials_custom (sv : Services) (co : Collaborators) (f : Parser.Family)
    (wsid : string) (request r0 : ProviderRequest.t) (w : World) :
  ProviderRequest.workspaceId request = Some wsid ->
  JS.truthy wsid = true ->
  resolveCredentials sv co (Parser.familyPrefix f) request r0 w
  = bind (resolveCustomEndpoint sv f wsid request r0) (fun r => ret (r, false)) w.
Proof.
  intros W T. unfold resolveCredentials. rewrite W. cbn [JS.truthy_opt JS.or_else].
  rewrite T.
  destruct f; cbn [Parser.familyPrefix];
    repeat match goal with
           | |- context [String.eqb ?a ?b] =>
               first [ change (String.eqb a b) with true
                     | change (String.eqb a b) with false ]
           end;
    reflexivity.
Qed.

Lemma resolveCredentials_noWorkspace (sv : Services) (co : Collaborators)
    (providerId : string) (request r0 : ProviderRequest.t) (w : World) :
  noWorkspace request ->
  resolveCredentials sv co providerId request r0 w = (Ok (r0, false), w).
Proof.
  unfold noWorkspace. intros N. unfold resolveCredentials. rewrite N.
  now rewrite !andb_false_r.
Qed.

(** Whatever branch resolves the credentials, it keeps what the
    dispatcher only carries along, and the table. *)
Lemma resolveCustomEndpoint_same (sv : Services) (f : Parser.Family) (wsid : string)
    (request r0 : ProviderRequest.t) (w w1 : World) (res : Result ProviderRequest.t) :
  resolveCustomEndpoint sv f wsid request r0 w = (res, w1) ->
  rows w1 = rows w /\ forall r, res = Ok r -> sameCarried r r0.
Proof.
  unfold resolveCustomEndpoint. destruct (JS.truthy _).
  - unfold tryCatch, bind. rewrite getCustomEndpointByName_run.
    destruct (filter _ (rows w)) as [|row rest]; cbn; intros H; injection H as <- <-.
    + split; [reflexivity|]. discriminate.
    + split; [reflexivity|]. intros r H. injection H as <-. apply withEndpoint_same.
  - unfold ret. intros H. injection H as <- <-. split; [reflexivity|].
    intros r H. injection H as <-. apply sameCarried_refl.
Qed.

Lemma resolveCredentials_same (sv : Services) (co : Collaborators) (providerId : string)
    (request r0 : ProviderRequest.t) (w w1 : World)
    (res : Result (ProviderRequest.t * bool)) :
  resolveCredentials sv co providerId request r0 w = (res, w1) ->
  rows w1 = rows w /\ forall r b, res = Ok (r, b) -> sameCarried r r0.
Proof.
  unfold resolveCredentials.
  repeat match goal with
         | |- (if ?c then _ else _) _ = _ -> _ => destruct c
         end.
  1-3: unfold bind;
       match goal with
       | |- context [resolveCustomEndpoint ?a ?b ?c ?d ?e ?v] =>
           destruct (resolveCustomEndpoint a b c d e v) as [[x|x] w0] eqn:R;
           apply resolveCustomEndpoint_same in R; destruct R as [R1 R2]
       end;
       unfold ret; intros H; injection H as <- <-; (split; [exact R1|]);
       intros r b H; [injection H as <- _; now apply R2 | discriminate].
  - unfold tryCatch, bind, lift, ret, log, throw.
    destruct (getApiKeyWithBYOK co providerId _ _ _) as [[k flag]|e]; cbn;
      intros H; injection H as <- <-.
    + split; [reflexivity|]. intros r b H. injection H as <- _. apply withApiKey_same.
    + split; [reflexivity|]. discriminate.
  - unfold ret. intros H. injection H as <- <-. split; [reflexivity|].
    intros r b H. injection H as <- _. apply sameCarried_refl.
Qed.

(** The dispatcher from the resolution of the credentials on, for a
    registered provider. *)
Lemma executeProviderRequest_run (sv : Services) (co : Collaborators)
    (providerId : string) (request : ProviderRequest.t)
    (run : ProviderRequest.t -> Result Execution) (w : World) :
  registered co providerId run ->
  match resolveCredentials sv co providerId request (sanitizeRequest co request) w with
  | (Throw e, w1) =>
      executeProviderRequest sv co providerId request w = (Throw e, w1)
  | (Ok (r, b), w1) =>
      exists sent w2,
        applyResponseFormat co (withIsBYOK r (Some b)) w1 = (Ok sent, w2)
        /\ executeProviderRequest sv co providerId request w
           = match run sent with
             | Throw e => (Throw e, called w2 sent)
             | Ok (StreamingExecution s) =>
                 (Ok (StreamingExecution s),
                  addLogs (called w2 sent)
                    [mkLog LInfo "Provider returned StreamingExecution"])
             | Ok (ReadableStream s) =>
                 (Ok (ReadableStream s),
                  addLogs (called w2 sent)
                    [mkLog LInfo "Provider returned ReadableStream"])
             | Ok (Response r0) =>
                 match attachCost sv co request b r0 (called w2 sent) with
                 | (Ok billed, w3) => (Ok (Response billed), w3)
                 | (Throw e, w3) => (Throw e, w3)
                 end
             end
  end.
Proof.
  intros (provider & P & X). unfold executeProviderRequest. rewrite P, X.
  destruct (resolveCredentials sv co providerId request (sanitizeRequest co request) w)
    as [[[r b]|e] w1] eqn:R.
  - destruct (applyResponseFormat_same co (withIsBYOK r (Some b)) w1)
      as (sent & w2 & A & _).
    exists sent, w2. split; [exact A|].
    rewrite (bind_run _ _ _ _ _ R). cbn [fst snd].
    rewrite (bind_run _ _ _ _ _ A).
    unfold bind at 1, recordCall. unfold bind at 1, lift. fold (called w2 sent).
    destruct (run sent) as [[s|s|r0]|e]; reflexivity.
  - now rewrite (bind_fail _ _ _ _ _ R).
Qed.

Lemma dispatch_shape (sv : Services) (co : Collaborators) (providerId : string)
    (request : ProviderRequest.t) (run : ProviderRequest.t -> Result Execution)
    (w w1 : World) (res : Result (ProviderRequest.t * bool)) :
  registered co providerId run ->
  resolveCredentials sv co providerId request (sanitizeRequest co request) w = (res, w1) ->
  let out := executeProviderRequest sv co providerId request w in
  match res with
  | Throw e => out = (Throw e, w1)
  | Ok (r, b) =>
      exists sent w2,
        applyResponseFormat co (withIsBYOK r (Some b)) w1 = (Ok sent, w2)
        /\ calls (snd out) = calls w ++ [sent]
        /\ rows (snd out) = rows w
        /\ passedOn (run sent) (fst out)
  end.
Proof.
  intros G R out. pose proof (executeProviderRequest_run sv co providerId request run w G) as E.
  rewrite R in E. destruct res as [[r b]|e]; [|exact E].
  destruct E as (sent & w2 & A & E). exists sent, w2. split; [exact A|].
  destruct (applyResponseFormat_same co (withIsBYOK r (Some b)) w1)
    as (sent' & w2' & A' & _ & _ & _ & AR & AC & _).
  rewrite A in A'. injection A' as <- <-.
  pose proof (resolveCredentials_calls _ _ _ _ _ _ _ _ R) as RC.
  destruct (resolveCredentials_same _ _ _ _ _ _ _ _ R) as [RR _].
  subst out. rewrite E. unfold passedOn.
  destruct (run sent) as [[s|s|r0]|e]; cbn [fst snd called addLogs calls rows].
  1,2,4: repeat split; congruence.
  destruct (attachCost_run sv co request b r0 (called w2 sent))
    as (billed & w3 & AT & B1 & B2 & B3 & B4 & B5 & B6).
  rewrite AT. cbn [fst snd]. cbn [called rows calls] in B5, B6.
  split; [congruence|]. split; [congruence|].
  exists billed. repeat split; try assumption. intros N. now apply B4.
Qed.

(** The dispatcher never changes the table. *)
Lemma dispatcher_rows (sv : Services) (co : Collaborators) (providerId : string)
    (request : ProviderRequest.t) (w : World) :
  rows (snd (executeProviderRequest sv co providerId request w)) = rows w.
Proof.
  destruct (getProviderExecutor co providerId) as [provider|] eqn:P.
  - destruct (executeRequest provider) as [run|] eqn:X.
    + assert (G : registered co providerId run) by (exists provider; now split).
      destruct (resolveCredentials sv co providerId request (sanitizeRequest co request) w)
        as [res w1] eqn:R.
      pose proof (dispatch_shape sv co providerId request run w w1 res G R) as D.
      cbv zeta in D.
      destruct (resolveCredentials_same _ _ _ _ _ _ _ _ R) as [RR _].
      destruct res as [[r b]|e].
      * now destruct D as (sent & w2 & _ & _ & D2 & _).
      * now rewrite D.
    + unfold executeProviderRequest. now rewrite P, X.
  - unfold executeProviderRequest. now rewrite P.
Qed.

(** X17.  The dispatcher never changes the table and hands at most one
    request to a provider executor.  When it hands none, it fails; an id
    that the registry does not know, or a provider without an executor,
    fails with the error that names the id, before anything else is done.
    When it hands one, the executor's exception or stream is passed on as
    it is, and its response with the content, the model and the token
    usage it came with. *)
Theorem dispatcher_hands_over_at_most_once
    (sv : Services) (co : Collaborators) (providerId : string)
    (request : ProviderRequest.t) (w : World) :
  let out := executeProviderRequest sv co providerId request w in
  rows (snd out) = rows w
  /\ ((calls (snd out) = calls w /\ exists e, fst out = Throw e)
      \/ (exists run sent,
            registered co providerId run
            /\ calls (snd out) = calls w ++ [sent]
            /\ passedOn (run sent) (fst out)))
  /\ (getProviderExecutor co providerId = None ->
      out = (Throw (Error ("Provider not found: " ++ providerId)%string), w))
  /\ (forall provider,
        getProviderExecutor co providerId = Some provider ->
        executeRequest provider = None ->
        out = (Throw (Error ("Provider " ++ providerId
                             ++ " does not implement executeRequest")%string), w)).
Proof.
  intros out.
  assert (N1 : getProviderExecutor co providerId = None ->
               out = (Throw (Error ("Provider not found: " ++ providerId)%string), w)).
  { intros N. subst out. unfold executeProviderRequest. now rewrite N. }
  assert (N2 : forall provider,
             getProviderExecutor co providerId = Some provider ->
             executeRequest provider = None ->
             out = (Throw (Error ("Provider " ++ providerId
                                  ++ " does not implement executeRequest")%string), w)).
  { intros provider P X. subst out. unfold executeProviderRequest. now rewrite P, X. }
  destruct (getProviderExecutor co providerId) as [provider|] eqn:P.
  - destruct (executeRequest provider) as [run|] eqn:X.
    + assert (G : registered co providerId run) by (exists provider; now split).
      destruct (resolveCredentials sv co providerId request (sanitizeRequest co request) w)
        as [res w1] eqn:R.
      pose proof (dispatch_shape sv co providerId request run w w1 res G R) as D.
      cbv zeta in D. fold out in D.
      pose proof (resolveCredentials_calls _ _ _ _ _ _ _ _ R) as RC.
      destruct (resolveCredentials_same _ _ _ _ _ _ _ _ R) as [RR _].
      destruct res as [[r b]|e].
      * destruct D as (sent & w2 & _ & D1 & D2 & D3).
        split; [exact D2|]. split; [|split; [discriminate | intros p Q; congruence]].
        right. exists run, sent. now repeat split.
      * rewrite D. cbn [fst snd]. split; [exact RR|].
        split; [|split; [discriminate | intros p Q; congruence]].
        left. split; [exact RC|]. now exists e.
    + rewrite (N2 provider eq_refl X). cbn [fst snd].
      split; [reflexivity|]. split; [|split; [discriminate|]].
      * left. split; [reflexivity|]. eexists. reflexivity.
      * intros p Q _. now injection Q as <-.
  - rewrite (N1 eq_refl). cbn [fst snd].
    split; [reflexivity|]. split; [|split; [reflexivity | discriminate]].
    left. split; [reflexivity|]. eexists. reflexivity.
Qed.

Lemma dispatcher_hands_over_at_most_once_witness :
  executeProviderRequest sampleServices emptyRegistry "custom-openai"
    alphaRequest sampleTable
  = (Throw (Error "Provider not found: custom-openai"), sampleTable).
Proof.
  apply (proj1 (proj2 (proj2 (dispatcher_hands_over_at_most_once sampleServices
                                emptyRegistry "custom-openai" alphaRequest sampleTable)))).
  reflexivity.
Defined.

(** On a table that satisfies its constraints, the row of a workspace
    and a name is the only one the lookup by name finds. *)
Lemma named_is_found (l : list Row.t) (r : Row.t) :
  constraintsHold l = true ->
  In r l ->
  filter (byName (Row.workspaceId r) (Row.name r)) l = [r].
Proof.
  intros C I. unfold constraintsHold in C. apply andb_true_iff in C. destruct C as [_ C].
  assert (B : byName (Row.workspaceId r) (Row.name r) r = true).
  { unfold byName. now rewrite !String.eqb_refl. }
  destruct (filter_first _ l r I B) as (first & rest & F).
  pose proof (unique_name_filter _ _ _ C _ _ F) as ->.
  assert (X : In r (filter (byName (Row.workspaceId r) (Row.name r)) l))
    by (apply filter_In; now split).
  rewrite F in X. destruct X as [->|[]]. exact F.
Qed.

(** The request the dispatcher hands over once the credentials are
    resolved to [r] with the flag [b]. *)
Lemma handed_over (sv : Services) (co : Collaborators) (providerId : string)
    (request : ProviderRequest.t) (run : ProviderRequest.t -> Result Execution)
    (w w1 : World) (r : ProviderRequest.t) (b : bool) :
  registered co providerId run ->
  resolveCredentials sv co providerId request (sanitizeRequest co request) w
  = (Ok (r, b), w1) ->
  let out := executeProviderRequest sv co providerId request w in
  exists sent,
    calls (snd out) = calls w ++ [sent]
    /\ passedOn (run sent) (fst out)
    /\ sameCarried sent r /\ sameCredentials sent r
    /\ ProviderRequest.isBYOK sent = Some b.
Proof.
  intros G RC out.
  pose proof (dispatch_shape sv co _ request run w w1 _ G RC) as D.
  cbv zeta in D. fold out in D. destruct D as (sent & w2 & A & D1 & D2 & D3).
  exists sent. split; [exact D1|]. split; [exact D3|].
  destruct (applyResponseFormat_same co (withIsBYOK r (Some b)) w1)
    as (sent' & w2' & A' & S1 & S2 & S4 & _).
  rewrite A in A'. injection A' as <- <-.
  destruct (withIsBYOK_same r (Some b)) as [B1 B2].
  split; [exact (sameCarried_trans _ _ _ S1 B1)|].
  split; [exact (sameCredentials_trans _ _ _ S2 B2)|].
  now rewrite S4, withIsBYOK_isBYOK.
Qed.

(** The credentials of a request that names a stored endpoint of its
    workspace: the sanitized request with that endpoint merged in. *)
Lemma resolved_credentials (sv : Services) (co : Collaborators) (f : Parser.Family)
    (request : ProviderRequest.t) (w : World) (r : Row.t) :
  constraintsHold (rows w) = true ->
  In r (rows w) ->
  ProviderRequest.workspaceId request = Some (Row.workspaceId r) ->
  JS.truthy (Row.workspaceId r) = true ->
  Parser.endpointName (Parser.parse f (ProviderRequest.model request)) = Row.name r ->
  JS.truthy (Row.name r) = true ->
  exists w1,
    resolveCredentials sv co (Parser.familyPrefix f) request (sanitizeRequest co request) w
    = (Ok (withEndpoint f (sanitizeRequest co request) (resolved sv r), false), w1).
Proof.
  intros C I W TW N TN.
  pose proof (named_is_found _ _ C I) as F. rewrite <- N in F, TN.
  destruct (resolveCustomEndpoint_found sv f (Row.workspaceId r) request
              (sanitizeRequest co request) w r [] TN F) as (w1 & R & _ & _).
  exists w1. rewrite (resolveCredentials_custom sv co f _ request _ w W TW).
  now rewrite (bind_run _ _ _ _ _ R).
Qed.

(** X18.  For a request to a custom family that carries a workspace id
    and names an endpoint stored in that workspace, the dispatcher hands
    the executor one request: under the field names of the family it
    carries the base URL and the name of the stored row and the header
    mapping read from it; its key is the one read from the row, or the
    text [empty] when the row has none or it cannot be read -- the key
    the request came with is not used; the flag [isBYOK] is false; the
    endpoint fields of the other families and the model are those of the
    request. *)
Theorem resolved_endpoint_reaches_provider
    (sv : Services) (co : Collaborators) (f : Parser.Family)
    (request : ProviderRequest.t) (run : ProviderRequest.t -> Result Execution)
    (w : World) (r : Row.t) :
  registered co (Parser.familyPrefix f) run ->
  constraintsHold (rows w) = true ->
  In r (rows w) ->
  ProviderRequest.workspaceId request = Some (Row.workspaceId r) ->
  JS.truthy (Row.workspaceId r) = true ->
  Parser.endpointName (Parser.parse f (ProviderRequest.model request)) = Row.name r ->
  JS.truthy (Row.name r) = true ->
  let out := executeProviderRequest sv co (Parser.familyPrefix f) request w in
  exists sent,
    calls (snd out) = calls w ++ [sent]
    /\ passedOn (run sent) (fst out)
    /\ endpointFields f sent
       = (Some (Row.baseUrl r), Some (Row.name r),
          headersOutcome sv (Row.encryptedHeaders r))
    /\ ProviderRequest.apiKey sent
       = Some (JS.or_else (keyOutcome sv (Row.encryptedApiKey r)) "empty")
    /\ ProviderRequest.isBYOK sent = Some false
    /\ (forall g, g <> f -> endpointFields g sent = endpointFields g request)
    /\ ProviderRequest.model sent = ProviderRequest.model request.
Proof.
  intros G C I W TW N TN out.
  destruct (resolved_credentials sv co f request w r C I W TW N TN) as (w1 & RC).
  destruct (handed_over sv co _ request run w w1 _ _ G RC)
    as (sent & D1 & D3 & (S1 & _) & (S2 & S3) & S4).
  fold out in D1, D3.
  exists sent. split; [exact D1|]. split; [exact D3|].
  destruct (withEndpoint_fields f (sanitizeRequest co request) (resolved sv r))
    as (E1 & E2 & E3).
  destruct (withEndpoint_same f (sanitizeRequest co request) (resolved sv r))
    as (X1 & _).
  destruct (sanitizeRequest_same co request) as (Z1 & _ & _ & _ & _ & _ & Z2).
  split; [now rewrite S3, E1|].
  split; [now rewrite S2, E2|].
  split; [exact S4|].
  split; [intros g NG; now rewrite S3, (E3 g NG), Z2|].
  now rewrite S1, X1.
Qed.

Lemma resolved_endpoint_reaches_provider_witness :
  exists sent,
    calls (snd (executeProviderRequest sampleServices sampleCollaborators
                  "custom-anthropic" alphaRequest sampleTable)) = [sent]
    /\ endpointFields Parser.CustomAnthropic sent
       = (Some "https://a:8000", Some "alpha", None)
    /\ ProviderRequest.apiKey sent = Some "sk-2"
    /\ ProviderRequest.isBYOK sent = Some false.
Proof.
  destruct (resolved_endpoint_reaches_provider sampleServices sampleCollaborators
              Parser.CustomAnthropic alphaRequest
              (fun _ => Ok (Response (ProviderResponse.mk "hello" "gpt-4o"
                                        (Some (Tokens.mk (Some 10) (Some 5))) None)))
              sampleTable secondRow)
    as (sent & C & _ & F & K & B & _).
  - exists sampleProvider. split; reflexivity.
  - reflexivity.
  - right. now left.
  - reflexivity.
  - reflexivity.
  - reflexivity.
  - reflexivity.
  - exists sent. repeat split; assumption.
Defined.

(** The credentials of a request that is not resolved: the sanitized
    request as it is, and nothing is looked up. *)
Lemma unresolved_credentials (sv : Services) (co : Collaborators) (providerId : string)
    (request : ProviderRequest.t) (w : World) :
  noWorkspace request \/ namesNoEndpoint providerId request ->
  resolveCredentials sv co providerId request (sanitizeRequest co request) w
  = (Ok (sanitizeRequest co request, false), w).
Proof.
  intros U.
  destruct (JS.truthy_opt (ProviderRequest.workspaceId request)) eqn:T.
  - destruct U as [U | (f & -> & U)]; [unfold noWorkspace in U; congruence|].
    destruct (ProviderRequest.workspaceId request) as [wsid|] eqn:W; [|discriminate].
    cbn [JS.truthy_opt] in T.
    rewrite (resolveCredentials_custom sv co f wsid request _ w W T).
    now rewrite (bind_run _ _ _ _ _ (resolveCustomEndpoint_unnamed sv f wsid request _ w U)).
  - now apply resolveCredentials_noWorkspace.
Qed.

(** X19.  A request without a workspace id, and a request to a custom
    family whose model reference names no endpoint, reach the executor
    with the credentials they came with: the same key, the same endpoint
    fields, and the flag [isBYOK] false; nothing is looked up. *)
Theorem unresolved_request_keeps_its_credentials
    (sv : Services) (co : Collaborators) (providerId : string)
    (request : ProviderRequest.t) (run : ProviderRequest.t -> Result Execution)
    (w : World) :
  registered co providerId run ->
  noWorkspace request \/ namesNoEndpoint providerId request ->
  let out := executeProviderRequest sv co providerId request w in
  exists sent,
    calls (snd out) = calls w ++ [sent]
    /\ passedOn (run sent) (fst out)
    /\ sameCredentials sent request
    /\ ProviderRequest.isBYOK sent = Some false
    /\ ProviderRequest.model sent = ProviderRequest.model request
    /\ resolveCredentials sv co providerId request (sanitizeRequest co request) w
       = (Ok (sanitizeRequest co request, false), w).
Proof.
  intros G U out.
  pose proof (unresolved_credentials sv co providerId request w U) as RC.
  destruct (handed_over sv co _ request run w w _ _ G RC)
    as (sent & D1 & D3 & (S1 & _) & S2 & S4).
  fold out in D1, D3.
  exists sent. split; [exact D1|]. split; [exact D3|].
  destruct (sanitizeRequest_same co request) as (Z1 & _ & _ & _ & _ & Z).
  split; [exact (sameCredentials_trans _ _ _ S2 Z)|].
  split; [exact S4|].
  split; [congruence | exact RC].
Qed.

Lemma unresolved_request_keeps_its_credentials_witness :
  exists sent,
    calls (snd (executeProviderRequest sampleServices sampleCollaborators "custom-openai"
                  (sampleRequest "custom-openai:llama3" "ws_1") sampleTable)) = [sent]
    /\ ProviderRequest.apiKey sent = None
    /\ ProviderRequest.customOpenaiBaseUrl sent = None.
Proof.
  destruct (unresolved_request_keeps_its_credentials sampleServices sampleCollaborators
              "custom-openai" (sampleRequest "custom-openai:llama3" "ws_1")
              (fun _ => Ok (Response (ProviderResponse.mk "hello" "gpt-4o"
                                        (Some (Tokens.mk (Some 10) (Some 5))) None)))
              sampleTable)
    as (sent & C & _ & [K F] & _).
  - exists sampleProvider. split; reflexivity.
  - right. exists Parser.CustomOpenAI. split; reflexivity.
  - exists sent. split; [exact C|]. split; [exact K|].
    specialize (F Parser.CustomOpenAI). cbn in F. congruence.
Defined.

(** Either the provider is registered with an executor, or the
    dispatcher hands nothing over. *)
Lemma dispatcher_shape_or_silent (sv : Services) (co : Collaborators)
    (providerId : string) (request : ProviderRequest.t) (w : World) :
  calls (snd (executeProviderRequest sv co providerId request w)) = calls w
  \/ exists run, registered co providerId run.
Proof.
  destruct (getProviderExecutor co providerId) as [provider|] eqn:P.
  - destruct (executeRequest provider) as [run|] eqn:X.
    + right. exists run, provider. now split.
    + left. unfold executeProviderRequest. now rewrite P, X.
  - left. unfold executeProviderRequest. now rewrite P.
Qed.

(** X20.  Whatever branch resolves the credentials, the request the
    executor receives has the model, the context, the workspace and the
    remaining fields of the caller's request, and its temperature --
    dropped when the model is non-empty and does not support one. *)
Theorem provider_sees_sanitized_request
    (sv : Services) (co : Collaborators) (providerId : string)
    (request sent : ProviderRequest.t) (w : World) :
  let out := executeProviderRequest sv co providerId request w in
  calls (snd out) = calls w ++ [sent] ->
  ProviderRequest.model sent = ProviderRequest.model request
  /\ ProviderRequest.temperature sent
     = (if JS.truthy (ProviderRequest.model request)
           && negb (supportsTemperature co (ProviderRequest.model request))
        then None
        else ProviderRequest.temperature request)
  /\ ProviderRequest.context sent = ProviderRequest.context request
  /\ ProviderRequest.workspaceId sent = ProviderRequest.workspaceId request
  /\ ProviderRequest.rest sent = ProviderRequest.rest request.
Proof.
  intros out H.
  destruct (dispatcher_shape_or_silent sv co providerId request w)
    as [S | (run & G)].
  { exfalso. fold out in S. rewrite S in H.
    apply (f_equal (@List.length _)) in H. rewrite List.length_app in H. cbn in H. lia. }
  destruct (resolveCredentials sv co providerId request (sanitizeRequest co request) w)
    as [res w1] eqn:R.
  pose proof (dispatch_shape sv co _ request run w w1 res G R) as D.
  cbv zeta in D. fold out in D.
  pose proof (resolveCredentials_calls _ _ _ _ _ _ _ _ R) as RC.
  destruct (resolveCredentials_same _ _ _ _ _ _ _ _ R) as [_ RS].
  destruct res as [[r b]|e].
  - destruct D as (sent' & w2 & A & D1 & _). rewrite D1 in H.
    apply app_inj_tail in H. destruct H as [_ ->].
    destruct (applyResponseFormat_same co (withIsBYOK r (Some b)) w1)
      as (sent' & w2' & A' & S1 & _).
    rewrite A in A'. injection A' as <- <-.
    destruct (withIsBYOK_same r (Some b)) as [B _].
    pose proof (sameCarried_trans _ _ _ S1 (sameCarried_trans _ _ _ B (RS r b eq_refl)))
      as (X1 & X2 & X3 & X4 & X5).
    destruct (sanitizeRequest_same co request) as (Z1 & Z2 & Z3 & Z4 & Z5 & _).
    unfold sanitizedTemperature in Z2.
    repeat split; congruence.
  - exfalso. rewrite D in H. cbn [snd] in H. rewrite RC in H.
    apply (f_equal (@List.length _)) in H. rewrite List.length_app in H. cbn in H. lia.
Qed.

Lemma provider_sees_sanitized_request_witness :
  ProviderRequest.model
    (withIsBYOK (withEndpoint Parser.CustomAnthropic (withTemperature alphaRequest None)
                   (resolved sampleServices secondRow)) (Some false))
  = "custom-anthropic:alpha/claude-x"
  /\ ProviderRequest.temperature
       (withIsBYOK (withEndpoint Parser.CustomAnthropic (withTemperature alphaRequest None)
                      (resolved sampleServices secondRow)) (Some false))
     = None
  /\ ProviderRequest.temperature alphaRequest = Some (1 # 2)%Q.
Proof.
  pose proof (provider_sees_sanitized_request sampleServices noTemperature
                "custom-anthropic" alphaRequest
                (withIsBYOK (withEndpoint Parser.CustomAnthropic
                               (withTemperature alphaRequest None)
                               (resolved sampleServices secondRow)) (Some false))
                sampleTable eq_refl) as (M & T & _).
  split; [exact M|]. split; [exact T | reflexivity].
Defined.

Lemma resolveCredentials_generic (sv : Services) (co : Collaborators)
    (providerId wsid : string) (request r0 : ProviderRequest.t) (w : World) :
  genericProvider providerId ->
  ProviderRequest.workspaceId request = Some wsid ->
  JS.truthy wsid = true ->
  resolveCredentials sv co providerId request r0 w
  = match getApiKeyWithBYOK co providerId (ProviderRequest.model request) wsid
            (ProviderRequest.apiKey request) with
    | Ok (key, flag) => (Ok (withApiKey r0 (Some key), flag), w)
    | Throw e => (Throw e, addLogs w [mkLog LError "Failed to resolve API key:"])
    end.
Proof.
  intros G W T. unfold resolveCredentials. rewrite W. cbn [JS.truthy_opt JS.or_else].
  rewrite T.
  pose proof (proj2 (String.eqb_neq _ _) (G Parser.CustomOpenAI)) as E1.
  pose proof (proj2 (String.eqb_neq _ _) (G Parser.CustomAnthropic)) as E2.
  pose proof (proj2 (String.eqb_neq _ _) (G Parser.CustomGoogle)) as E3.
  cbn [Parser.familyPrefix] in E1, E2, E3. rewrite E1, E2, E3.
  cbn [andb]. unfold tryCatch, bind, lift, ret, log, throw.
  now destruct (getApiKeyWithBYOK co providerId _ _ _) as [[k flag]|e].
Qed.

(** X21.  For a provider outside the custom families and a request
    with a workspace id, the key lookup decides: when it fails, the
    dispatcher fails with its error and hands nothing over; when it
    answers, the executor receives the key of the answer in place of the
    request's, the flag of the answer as [isBYOK], and the endpoint fields
    the request came with. *)
Theorem generic_provider_uses_the_resolved_key
    (sv : Services) (co : Collaborators) (providerId wsid : string)
    (request : ProviderRequest.t) (run : ProviderRequest.t -> Result Execution)
    (w : World) :
  registered co providerId run ->
  genericProvider providerId ->
  ProviderRequest.workspaceId request = Some wsid ->
  JS.truthy wsid = true ->
  let out := executeProviderRequest sv co providerId request w in
  match getApiKeyWithBYOK co providerId (ProviderRequest.model request) wsid
          (ProviderRequest.apiKey request) with
  | Throw e => fst out = Throw e /\ calls (snd out) = calls w
  | Ok (key, flag) =>
      exists sent,
        calls (snd out) = calls w ++ [sent]
        /\ passedOn (run sent) (fst out)
        /\ ProviderRequest.apiKey sent = Some key
        /\ ProviderRequest.isBYOK sent = Some flag
        /\ forall f, endpointFields f sent = endpointFields f request
  end.
Proof.
  intros G N W T out.
  pose proof (resolveCredentials_generic sv co providerId wsid request
                (sanitizeRequest co request) w N W T) as RC.
  destruct (getApiKeyWithBYOK co providerId _ _ _) as [[key flag]|e].
  - pose proof (dispatch_shape sv co _ request run w w _ G RC) as D.
    cbv zeta in D. fold out in D. destruct D as (sent & w2 & A & D1 & D2 & D3).
    exists sent. split; [exact D1|]. split; [exact D3|].
    destruct (applyResponseFormat_same co
                (withIsBYOK (withApiKey (sanitizeRequest co request) (Some key))
                   (Some flag)) w)
      as (sent' & w2' & A' & _ & (S2 & S3) & S4 & _).
    rewrite A in A'. injection A' as <- <-.
    destruct (withIsBYOK_same (withApiKey (sanitizeRequest co request) (Some key))
                (Some flag)) as [_ (B2 & B3)].
    destruct (withApiKey_same (sanitizeRequest co request) (Some key)) as (_ & K1 & K2).
    destruct (sanitizeRequest_same co request) as (_ & _ & _ & _ & _ & _ & Z).
    split; [now rewrite S2, B2|].
    split; [now rewrite S4, withIsBYOK_isBYOK|].
    intros f. now rewrite S3, B3, K2, Z.
  - pose proof (dispatch_shape sv co _ request run w _ _ G RC) as D.
    cbv zeta in D. fold out in D. rewrite D. split; reflexivity.
Qed.

Lemma generic_provider_uses_the_resolved_key_witness :
  exists sent,
    calls (snd (executeProviderRequest sampleServices sampleCollaborators "openai"
                  hostedRequest sampleTable)) = [sent]
    /\ ProviderRequest.apiKey sent = Some "workspace-key"
    /\ ProviderRequest.isBYOK sent = Some true.
Proof.
  destruct (generic_provider_uses_the_resolved_key sampleServices sampleCollaborators
              "openai" "ws_1" hostedRequest
              (fun _ => Ok (Response (ProviderResponse.mk "hello" "gpt-4o"
                                        (Some (Tokens.mk (Some 10) (Some 5))) None)))
              sampleTable)
    as (sent & C & _ & K & B & _).
  - exists sampleProvider. split; reflexivity.
  - intros []; discriminate.
  - reflexivity.
  - reflexivity.
  - exists sent. repeat split; assumption.
Defined.

(* ================================================================== *)
(** ** Provider [custom-google]                                        *)
(* ================================================================== *)

(** The result of the provider: the error that the endpoint is not
    configured, or what [executeGeminiRequest] answers. *)
Lemma customGoogle_run
    (gem : CustomGoogleProvider.GeminiCall -> Result Execution)
    (request : ProviderRequest.t) (w : World) :
  fst (CustomGoogleProvider.executeRequest gem request w)
  = if negb (JS.truthy_opt (ProviderRequest.customGoogleBaseUrl request))
    then Throw (Error (CustomGoogleProvider.notConfiguredMessage
                         (Parser.endpointName
                            (Parser.parseCustomGoogleModel (ProviderRequest.model request)))))
    else gem (CustomGoogleProvider.mkCall
                (CustomGoogleProvider.mkClient
                   (JS.or_else (ProviderRequest.apiKey request) "empty")
                   (JS.or_else (ProviderRequest.customGoogleBaseUrl request) EmptyString)
                   (clientHeaders (ProviderRequest.customGoogleHeaders request)))
                (Parser.modelName
                   (Parser.parseCustomGoogleModel (ProviderRequest.model request)))
                (CustomGoogleProvider.withModel request
                   (Parser.modelName
                      (Parser.parseCustomGoogleModel (ProviderRequest.model request))))
                "custom-google").
Proof.
  unfold CustomGoogleProvider.executeRequest. cbv zeta.
  unfold bind at 1, log.
  destruct (negb (JS.truthy_opt (ProviderRequest.customGoogleBaseUrl request)));
    [reflexivity|].
  unfold bind, log, lift. cbn [fst].
  now destruct (ProviderRequest.customGoogleHeaders request) as [[|entry more]|].
Qed.

Lemma withModel_same (r : ProviderRequest.t) (m : string) :
  ProviderRequest.model (CustomGoogleProvider.withModel r m) = m
  /\ sameCredentials (CustomGoogleProvider.withModel r m) r
  /\ ProviderRequest.rest (CustomGoogleProvider.withModel r m) = ProviderRequest.rest r.
Proof. destruct r. unfold sameCredentials. cbn. record_fields. Qed.

Lemma parseCustomGoogleModel_split (a b : string) :
  Parser.noSlash a = true ->
  Parser.parseCustomGoogleModel ("custom-google:" ++ a ++ "/" ++ b)
  = Parser.mkParsed a b.
Proof.
  intros N. unfold Parser.parseCustomGoogleModel.
  apply (parseWith_split _ _ a b N).
  exact (replace_anchored_present "custom-google:" (a ++ "/" ++ b)).
Qed.

(** X22.  Given a model reference [custom-google:<endpoint>/<model>],
    the provider fails with the error that names the endpoint when the
    request carries no base URL, whatever the Gemini client would answer;
    with a base URL it answers what [executeGeminiRequest] answers to a
    call for the model after the slash, on a client made of that URL, the
    key of the request -- [empty] when it has none -- and the request's
    headers when there is at least one; the request of the call has the
    same model after the slash and the credentials it came with. *)
Theorem custom_google_asks_for_the_model_after_the_slash
    (gem : CustomGoogleProvider.GeminiCall -> Result Execution)
    (request : ProviderRequest.t) (w : World) (a b : string) :
  Parser.noSlash a = true ->
  ProviderRequest.model request = ("custom-google:" ++ a ++ "/" ++ b)%string ->
  let result := fst (CustomGoogleProvider.executeRequest gem request w) in
  (JS.truthy_opt (ProviderRequest.customGoogleBaseUrl request) = false ->
   result = Throw (Error (CustomGoogleProvider.notConfiguredMessage a)))
  /\ (forall url,
        ProviderRequest.customGoogleBaseUrl request = Some url ->
        JS.truthy url = true ->
        exists call,
          result = gem call
          /\ CustomGoogleProvider.model call = b
          /\ ProviderRequest.model (CustomGoogleProvider.request call) = b
          /\ sameCredentials (CustomGoogleProvider.request call) request
          /\ CustomGoogleProvider.ai call
             = CustomGoogleProvider.mkClient
                 (JS.or_else (ProviderRequest.apiKey request) "empty") url
                 (clientHeaders (ProviderRequest.customGoogleHeaders request))
          /\ CustomGoogleProvider.providerType call = "custom-google")
  /\ rows (snd (CustomGoogleProvider.executeRequest gem request w)) = rows w.
Proof.
  intros N M result. subst result. rewrite customGoogle_run, M.
  rewrite (parseCustomGoogleModel_split a b N). cbn [Parser.endpointName Parser.modelName].
  split; [|split].
  - intros T. now rewrite T.
  - intros url U T. rewrite U. cbn [JS.truthy_opt JS.or_else]. rewrite T. cbn [negb].
    eexists. split; [reflexivity|]. cbn.
    destruct (withModel_same request b) as (W1 & W2 & _).
    repeat split; try assumption; apply W2.
  - unfold CustomGoogleProvider.executeRequest. cbv zeta.
    unfold bind, log, throw, lift.
    now destruct (negb _).
Qed.

Lemma custom_google_asks_for_the_model_after_the_slash_witness :
  fst (CustomGoogleProvider.executeRequest sampleGemini (betaRequest None) emptyWorld)
  = Throw (Error (CustomGoogleProvider.notConfiguredMessage "beta"))
  /\ exists call,
       fst (CustomGoogleProvider.executeRequest sampleGemini betaConfigured emptyWorld)
       = sampleGemini call
       /\ CustomGoogleProvider.model call = "gemini-pro"
       /\ CustomGoogleProvider.ai call
          = CustomGoogleProvider.mkClient "empty" "https://b:8000" None.
Proof.
  split.
  - apply (custom_google_asks_for_the_model_after_the_slash sampleGemini
             (betaRequest None) emptyWorld "beta" "gemini-pro"); reflexivity.
  - destruct (proj1 (proj2 (custom_google_asks_for_the_model_after_the_slash sampleGemini
                              betaConfigured emptyWorld "beta" "gemini-pro"
                              eq_refl eq_refl))
                "https://b:8000" eq_refl eq_refl)
      as (call & R & M & _ & _ & A & _).
    exists call. repeat split; assumption.
Defined.

Lemma or_else_idem (k : option string) (d : string) :
  JS.truthy d = true -> JS.or_else (Some (JS.or_else k d)) d = JS.or_else k d.
Proof.
  intros D. destruct k as [s|]; cbn.
  - destruct (JS.truthy s) eqn:T; [now rewrite T | now rewrite D].
  - now rewrite D.
Qed.

(** X23.  From the stored row to the Gemini client: when the executor
    registered for [custom-google] is the custom Google provider, a
    request [custom-google:<endpoint>/<model>] from the workspace of a
    stored endpoint of that name ends in one call of
    [executeGeminiRequest] for the model after the slash, on a client with
    the base URL of the row, the key read from the row -- [empty] when
    there is none -- and the headers read from it when there is at least
    one; the dispatcher passes on what that call answers. *)
Theorem custom_google_request_reaches_the_stored_endpoint
    (sv : Services) (co : Collaborators)
    (gem : CustomGoogleProvider.GeminiCall -> Result Execution)
    (run : ProviderRequest.t -> Result Execution)
    (request : ProviderRequest.t) (w : World) (r : Row.t) (b : string) :
  registered co "custom-google" run ->
  runsCustomGoogle gem run ->
  constraintsHold (rows w) = true ->
  In r (rows w) ->
  ProviderRequest.workspaceId request = Some (Row.workspaceId r) ->
  JS.truthy (Row.workspaceId r) = true ->
  ProviderRequest.model request = ("custom-google:" ++ Row.name r ++ "/" ++ b)%string ->
  Parser.noSlash (Row.name r) = true ->
  JS.truthy (Row.name r) = true ->
  JS.truthy (Row.baseUrl r) = true ->
  let out := executeProviderRequest sv co "custom-google" request w in
  exists call,
    passedOn (gem call) (fst out)
    /\ CustomGoogleProvider.model call = b
    /\ CustomGoogleProvider.ai call
       = CustomGoogleProvider.mkClient
           (JS.or_else (keyOutcome sv (Row.encryptedApiKey r)) "empty")
           (Row.baseUrl r)
           (clientHeaders (headersOutcome sv (Row.encryptedHeaders r)))
    /\ ProviderRequest.model (CustomGoogleProvider.request call) = b
    /\ rows (snd out) = rows w.
Proof.
  intros G RG C I W TW M N TN TU out.
  assert (P : Parser.endpointName
                (Parser.parse Parser.CustomGoogle (ProviderRequest.model request))
              = Row.name r).
  { cbn [Parser.parse]. rewrite M, (parseCustomGoogleModel_split _ b N). reflexivity. }
  destruct (resolved_credentials sv co Parser.CustomGoogle request w r C I W TW P TN)
    as (w1 & RC).
  destruct (handed_over sv co _ request run w w1 _ _ G RC)
    as (sent & _ & D2 & (S1 & _) & (S2 & S3) & _).
  fold out in D2.
  destruct (withEndpoint_fields Parser.CustomGoogle (sanitizeRequest co request)
              (resolved sv r)) as (E1 & E2 & _).
  destruct (withEndpoint_same Parser.CustomGoogle (sanitizeRequest co request)
              (resolved sv r)) as (X1 & _).
  destruct (sanitizeRequest_same co request) as (Z1 & _).
  assert (F : endpointFields Parser.CustomGoogle sent
              = (Some (Row.baseUrl r), Some (Row.name r),
                 headersOutcome sv (Row.encryptedHeaders r)))
    by (now rewrite S3, E1).
  assert (K : ProviderRequest.apiKey sent
              = Some (JS.or_else (keyOutcome sv (Row.encryptedApiKey r)) "empty"))
    by (now rewrite S2, E2).
  assert (SM : ProviderRequest.model sent = ProviderRequest.model request)
    by (now rewrite S1, X1).
  cbn [endpointFields] in F. injection F as F1 F2 F3.
  rewrite (RG sent w), customGoogle_run in D2.
  rewrite F1, K, F3, SM, M in D2.
  rewrite (parseCustomGoogleModel_split _ b N) in D2.
  cbn [Parser.endpointName Parser.modelName JS.truthy_opt JS.or_else] in D2.
  rewrite TU in D2. cbn [negb] in D2.
  eexists. split; [exact D2|]. cbn.
  destruct (withModel_same sent b) as (W1 & _).
  split; [reflexivity|]. split.
  - f_equal. destruct (keyOutcome sv (Row.encryptedApiKey r)) as [k|]; cbn; [|reflexivity].
    destruct (JS.truthy k) eqn:T; [now rewrite T | reflexivity].
  - split; [exact W1|].
    exact (dispatcher_rows sv co "custom-google" request w).
Qed.

Lemma sampleGoogleRun_runs : runsCustomGoogle sampleGemini sampleGoogleRun.
Proof. intros request w. unfold sampleGoogleRun. now rewrite !customGoogle_run. Qed.

Lemma custom_google_request_reaches_the_stored_endpoint_witness :
  fst (executeProviderRequest sampleServices (registryOf sampleGoogleRun) "custom-google"
         (betaRequest (Some "ws_2")) sampleTable)
  = Ok (ReadableStream "gemini-pro@https://b:8000").
Proof.
  destruct (custom_google_request_reaches_the_stored_endpoint sampleServices
              (registryOf sampleGoogleRun) sampleGemini sampleGoogleRun
              (betaRequest (Some "ws_2")) sampleTable foreignRow "gemini-pro")
    as (call & P & M & A & _).
  - eexists. split; reflexivity.
  - exact sampleGoogleRun_runs.
  - reflexivity.
  - right. right. now left.
  - reflexivity.
  - reflexivity.
  - reflexivity.
  - reflexivity.
  - reflexivity.
  - reflexivity.
  - unfold sampleGemini in P. rewrite M, A in P. exact P.
Defined.

(** X24.  When the executor registered for [custom-google] is the
    custom Google provider, a request that carries no base URL and is not
    resolved -- it has no workspace id, or its model reference names no
    endpoint -- fails with the error that the endpoint is not configured,
    and the table is not changed; when the model reference names no
    endpoint, the error calls it [unknown]. *)
Theorem custom_google_without_endpoint_is_not_configured
    (sv : Services) (co : Collaborators)
    (gem : CustomGoogleProvider.GeminiCall -> Result Execution)
    (run : ProviderRequest.t -> Result Execution)
    (request : ProviderRequest.t) (w : World) :
  registered co "custom-google" run ->
  runsCustomGoogle gem run ->
  noWorkspace request \/ namesNoEndpoint "custom-google" request ->
  JS.truthy_opt (ProviderRequest.customGoogleBaseUrl request) = false ->
  let out := executeProviderRequest sv co "custom-google" request w in
  let endpointName :=
    Parser.endpointName (Parser.parseCustomGoogleModel (ProviderRequest.model request)) in
  fst out = Throw (Error (CustomGoogleProvider.notConfiguredMessage endpointName))
  /\ rows (snd out) = rows w
  /\ (JS.truthy endpointName = false ->
      fst out
      = Throw (Error ("Custom Google endpoint " ++ JS.quote ++ "unknown" ++ JS.quote
                      ++ " not configured. Please configure the endpoint in workspace settings.")%string)).
Proof.
  intros G RG U T out endpointName.
  pose proof (unresolved_credentials sv co "custom-google" request w U) as RC.
  destruct (handed_over sv co _ request run w w _ _ G RC)
    as (sent & _ & D & (S1 & _) & S2 & _).
  fold out in D.
  destruct (sanitizeRequest_same co request) as (Z1 & _ & _ & _ & _ & Z).
  destruct (sameCredentials_trans _ _ _ S2 Z) as [_ F].
  assert (SM : ProviderRequest.model sent = ProviderRequest.model request) by congruence.
  specialize (F Parser.CustomGoogle). cbn [endpointFields] in F.
  injection F as F1 _ _.
  rewrite (RG sent w), customGoogle_run, F1, T, SM in D. cbn [negb passedOn] in D.
  fold endpointName in D.
  split; [exact D|]. split; [exact (dispatcher_rows sv co "custom-google" request w)|].
  intros E. rewrite D. unfold CustomGoogleProvider.notConfiguredMessage.
  cbn [JS.or_else]. now rewrite E.
Qed.

Lemma custom_google_without_endpoint_is_not_configured_witness :
  fst (executeProviderRequest sampleServices (registryOf sampleGoogleRun) "custom-google"
         (betaRequest None) sampleTable)
  = Throw (Error (CustomGoogleProvider.notConfiguredMessage "beta")).
Proof.
  apply (custom_google_without_endpoint_is_not_configured sampleServices
           (registryOf sampleGoogleRun) sampleGemini sampleGoogleRun
           (betaRequest None) sampleTable).
  - eexists. split; reflexivity.
  - exact sampleGoogleRun_runs.
  - left. reflexivity.
  - reflexivity.
Defined.

(* ================================================================== *)
(** ** Endpoint names and model options                                *)
(* ================================================================== *)

Lemma nameChar_not_slash (c : ascii) : isNameChar c = true -> Ascii.eqb c "/" = false.
Proof. destruct c as [[] [] [] [] [] [] [] []]; vm_compute; congruence. Qed.

Lemma allNameChars_noSlash (s : string) : allNameChars s = true -> Parser.noSlash s = true.
Proof.
  induction s as [|c s IH]; [reflexivity|]. cbn [allNameChars Parser.noSlash].
  intros H. apply andb_true_iff in H. destruct H as [C H].
  rewrite (nameChar_not_slash c C). now apply IH.
Qed.

Lemma append_assoc (a b c : string) : ((a ++ b) ++ c = a ++ (b ++ c))%string.
Proof. induction a as [|x a IH]; cbn; [reflexivity | now rewrite IH]. Qed.

Lemma modelOption_parse (f : Parser.Family) (name m : string) :
  Parser.noSlash name = true ->
  Parser.parse f (modelOption f name ++ m) = Parser.mkParsed name m.
Proof.
  intros N. rewrite parse_is_parseWith. apply (parseWith_split _ _ name m N).
  unfold modelOption.
  replace ((Parser.familyPrefix f ++ ":" ++ name ++ "/") ++ m)%string
    with ((Parser.familyPrefix f ++ ":") ++ (name ++ "/" ++ m))%string.
  - apply replace_anchored_present.
  - now rewrite !append_assoc.
Qed.

Lemma providerModels_In (f : Parser.Family) (endpoints : list CustomLlmEndpoint.t)
    (o : string) :
  In o (Loader.providerModels f endpoints)
  <-> exists e, In e endpoints
                /\ CustomLlmEndpoint.apiType e = familyApiType f
                /\ o = modelOption f (CustomLlmEndpoint.name e).
Proof.
  assert (A : forall a b, apiTypeIs a b = true <-> a = b).
  { intros [] []; cbn; split; congruence. }
  destruct f; cbn [Loader.providerModels familyApiType];
    unfold Loader.openaiEndpoints, Loader.anthropicEndpoints, Loader.googleEndpoints,
           modelOption; cbn [Parser.familyPrefix orb];
    rewrite in_map_iff; split.
  all: try (intros (e & <- & I); apply filter_In in I; destruct I as [I T];
            apply A in T; exists e; now repeat split).
  all: intros (e & I & T & ->); exists e; split; [reflexivity|];
       apply filter_In; split; [exact I | now apply A].
Qed.

(** X25.  The model options the loader makes from a listing: every
    option of a family comes from an endpoint of the api type of that
    family, every endpoint is offered under the family of its api type and
    the three lists together have one option per endpoint; and for an
    endpoint whose name matches the pattern of the schema, the family's
    parser reads the option, followed by any model name, back as that
    endpoint name and that model name. *)
Theorem model_options_parse_back
    (endpoints : list CustomLlmEndpoint.t) (f : Parser.Family) :
  (forall o, In o (Loader.providerModels f endpoints)
             <-> exists e, In e endpoints
                           /\ CustomLlmEndpoint.apiType e = familyApiType f
                           /\ o = modelOption f (CustomLlmEndpoint.name e))
  /\ (List.length (Loader.openaiEndpoints endpoints)
      + List.length (Loader.anthropicEndpoints endpoints)
      + List.length (Loader.googleEndpoints endpoints)
      = List.length endpoints)%nat
  /\ (forall e m,
        In e endpoints ->
        CustomLlmEndpoint.apiType e = familyApiType f ->
        matchesNamePattern (CustomLlmEndpoint.name e) = true ->
        In (modelOption f (CustomLlmEndpoint.name e)) (Loader.providerModels f endpoints)
        /\ Parser.parse f (modelOption f (CustomLlmEndpoint.name e) ++ m)
           = Parser.mkParsed (CustomLlmEndpoint.name e) m
        /\ JS.truthy (CustomLlmEndpoint.name e) = true).
Proof.
  split; [|split].
  - intros o. apply providerModels_In.
  - unfold Loader.openaiEndpoints, Loader.anthropicEndpoints, Loader.googleEndpoints.
    rewrite !length_map. induction endpoints as [|e l IH]; [reflexivity|].
    cbn [filter]. destruct (CustomLlmEndpoint.apiType e); cbn in *; lia.
  - intros e m I T P. unfold matchesNamePattern in P.
    apply andb_true_iff in P. destruct P as [P1 P2].
    split; [|split; [|exact P1]].
    + apply providerModels_In. exists e. now repeat split.
    + apply modelOption_parse. now apply allNameChars_noSlash.
Qed.

Lemma model_options_parse_back_witness :
  In "custom-google:team-llm/" (Loader.providerModels Parser.CustomGoogle [teamEndpoint])
  /\ Parser.parse Parser.CustomGoogle "custom-google:team-llm/gemini-pro"
     = Parser.mkParsed "team-llm" "gemini-pro".
Proof.
  destruct (proj2 (proj2 (model_options_parse_back [teamEndpoint] Parser.CustomGoogle))
              teamEndpoint "gemini-pro") as (I & P & _).
  - now left.
  - reflexivity.
  - reflexivity.
  - split; [exact I | exact P].
Defined.

(* ================================================================== *)
(** ** Routes and store: further outcomes                              *)
(* ================================================================== *)

(** X26.  GET on an endpoint of the workspace, by a user with any
    permission on it, answers 200 with the fields of the stored row, the
    names of the headers read from it, and [hasApiKey] telling whether a
    non-empty key could be read from it.  This is the entry the listing
    shows for the row exactly when reading the key gives what the stored
    ciphertext promises; a key the listing denies is never reported. *)
Theorem get_describes_the_stored_endpoint
    (sv : Services) (ctx : RouteContext) (ws user : string) (p : Permission)
    (w : World) (target : Row.t) :
  getSession ctx = Some user ->
  JS.truthy user = true ->
  getUserEntityPermissions ctx user ws = Some p ->
  constraintsHold (rows w) = true ->
  In target (rows w) ->
  Row.workspaceId target = ws ->
  exists e,
    fst (GET sv ctx ws (Row.id target) w) = Ok (mkResponse 200 (EndpointBody e))
    /\ e = CustomLlmEndpoint.mk (Row.id target) ws (Row.name target) (Row.baseUrl target)
             (apiTypeOrDefault (Row.apiType target))
             (JS.truthy_opt (keyOutcome sv (Row.encryptedApiKey target)))
             (namesOf (headersOutcome sv (Row.encryptedHeaders target)))
             (Row.createdBy target) (Row.createdAt target) (Row.updatedAt target)
    /\ (e = listed sv target
        <-> JS.truthy_opt (keyOutcome sv (Row.encryptedApiKey target))
            = JS.truthy_opt (Row.encryptedApiKey target))
    /\ (CustomLlmEndpoint.hasApiKey e = true ->
        CustomLlmEndpoint.hasApiKey (listed sv target) = true).
Proof.
  intros S T P C I W.
  eexists. split; [|split; [reflexivity|]].
  - unfold GET. rewrite S, T, P. cbn [negb]. unfold tryCatch, bind at 1.
    rewrite getCustomEndpointById_run, (target_is_found _ _ C I).
    cbn [resolved withCredentials CustomLlmEndpointWithCredentials.workspaceId].
    rewrite W, String.eqb_refl. cbn [negb fst]. unfold jsonOk, json, ret.
    reflexivity.
  - unfold listed, listedView. rewrite W. split.
    + split.
      * intros E. now injection E.
      * intros E. now rewrite E.
    + cbn [CustomLlmEndpoint.hasApiKey]. unfold keyOutcome.
      destruct (Row.encryptedApiKey target) as [c|]; [|discriminate].
      cbn [JS.truthy_opt]. now destruct (JS.truthy c).
Qed.

Lemma get_describes_the_stored_endpoint_witness :
  exists e,
    fst (GET sampleServices readerContext "ws_1" "ep_1" sampleTable)
    = Ok (mkResponse 200 (EndpointBody e))
    /\ CustomLlmEndpoint.hasApiKey e = false
    /\ CustomLlmEndpoint.hasApiKey (listed sampleServices damagedKeyRow) = true
    /\ CustomLlmEndpoint.headerNames e = ["X-Team"].
Proof.
  destruct (get_describes_the_stored_endpoint sampleServices readerContext "ws_1" "user_2"
              read sampleTable damagedKeyRow)
    as (e & G & E & _); try reflexivity.
  - now left.
  - exists e. split; [exact G|]. rewrite E. repeat split.
Defined.

(** X27.  [create] never adds a row whose id is already stored, or
    whose name is already stored in its workspace: it fails, and the
    table stays as it was. *)
Theorem create_refuses_duplicates
    (sv : Services) (params : CreateCustomEndpointParams.t) (w : World) (r : Row.t) :
  In r (rows w) ->
  Row.id r = CreateCustomEndpointParams.id params
  \/ (Row.workspaceId r = CreateCustomEndpointParams.workspaceId params
      /\ Row.name r = CreateCustomEndpointParams.name params) ->
  (exists e, fst (createCustomEndpoint sv params w) = Throw e)
  /\ rows (snd (createCustomEndpoint sv params w)) = rows w.
Proof.
  intros I D.
  destruct (createCustomEndpoint sv params w) as [[e|x] w'] eqn:H.
  - exfalso. apply createCustomEndpoint_inv in H. cbv zeta in H.
    destruct H as (encKey & encHdr & _ & _ & C & _).
    unfold constraintsHold in C. apply andb_true_iff in C. destruct C as [C1 C2].
    apply uniqueBy_app_last in C1, C2. destruct C1 as [_ C1]. destruct C2 as [_ C2].
    specialize (C1 r I). specialize (C2 r I).
    unfold sameId, sameWorkspaceName, createdRow in C1, C2. cbn in C1, C2.
    destruct D as [D | [D1 D2]].
    + now rewrite D, String.eqb_refl in C1.
    + now rewrite D1, D2, !String.eqb_refl in C2.
  - cbn [fst snd]. split; [now exists x|].
    unfold createCustomEndpoint in H.
    apply logAndRethrow_Throw_inv in H. destruct H as (w1 & H & ->).
    cbn [rows]. pose proof (createCustomEndpoint_rows sv params w) as R.
    unfold createCustomEndpoint in R.
    destruct R as [[R _] | [_ [e R]]].
    + rewrite <- R. unfold logAndRethrow, tryCatch. now rewrite H.
    + unfold logAndRethrow, tryCatch in R. rewrite H in R. discriminate.
Qed.

Lemma create_refuses_duplicates_witness :
  (exists e, fst (createCustomEndpoint sampleServices teamParams afterTeamCreate) = Throw e)
  /\ rows (snd (createCustomEndpoint sampleServices teamParams afterTeamCreate))
     = rows afterTeamCreate.
Proof.
  apply (create_refuses_duplicates sampleServices teamParams afterTeamCreate
           (Row.mk "ep_7" "ws_1" "team-llm" "https://t:8000" (Some google)
              (Some "enc:sk-team") (Some "enc:X-Team=ml;") (Some "user_1")
              1700000000000 1700000000001)).
  - now left.
  - now left.
Defined.

(** X28.  [update] of an id that is not stored fails and leaves the
    table as it was. *)
Theorem update_of_unknown_id_fails
    (sv : Services) (endpointId : string) (params : UpdateCustomEndpointParams.t)
    (w : World) :
  (forall r, In r (rows w) -> Row.id r <> endpointId) ->
  (exists e, fst (updateCustomEndpoint sv endpointId params w) = Throw e)
  /\ rows (snd (updateCustomEndpoint sv endpointId params w)) = rows w.
Proof.
  intros N.
  destruct (updateCustomEndpoint sv endpointId params w) as [[e|x] w'] eqn:H.
  - exfalso. apply updateCustomEndpoint_inv in H.
    destruct H as (k & h & n & old & rest & _ & _ & H). cbv zeta in H.
    destruct H as (_ & _ & F & _).
    assert (X : In old (filter (byId endpointId) (rows w))) by (rewrite F; now left).
    apply filter_In in X. destruct X as [X1 X2]. unfold byId in X2.
    apply String.eqb_eq in X2. exact (N old X1 X2).
  - cbn [fst snd]. split; [now exists x|].
    now apply updateCustomEndpoint_Throw_rows in H.
Qed.

Lemma update_of_unknown_id_fails_witness :
  (exists e, fst (updateCustomEndpoint sampleServices "ep_404"
                    (UpdateCustomEndpointParams.mk (Some "renamed") None Null Null)
                    sampleTable) = Throw e)
  /\ rows (snd (updateCustomEndpoint sampleServices "ep_404"
                  (UpdateCustomEndpointParams.mk (Some "renamed") None Null Null)
                  sampleTable))
     = rows sampleTable.
Proof.
  apply (update_of_unknown_id_fails sampleServices "ep_404"
           (UpdateCustomEndpointParams.mk (Some "renamed") None Null Null) sampleTable).
  intros r [<-|[<-|[<-|[]]]]; discriminate.
Defined.

(** X29.  An admin's PATCH of an endpoint of the workspace, with a
    body that leaves the name out, answers 200 when no encryption fails:
    the endpoint it answers with has the id, the workspace and the name of
    the stored row and the base URL of the body, or the stored one when
    the body has none; every other row of the table is kept and none is
    added. *)
Theorem patch_updates_the_endpoint
    (sv : Services) (ctx : RouteContext) (ws : string) (w : World)
    (params : UpdateCustomEndpointParams.t) (target : Row.t) :
  adminSession (getSession ctx) (getUserEntityPermissions ctx) ws ->
  constraintsHold (rows w) = true ->
  In target (rows w) ->
  Row.workspaceId target = ws ->
  parseBody ctx = Ok params ->
  UpdateCustomEndpointParams.name params = None ->
  (forall n plain, exists c, encryptSecret sv n plain = Ok c) ->
  exists e w',
    PATCH sv ctx ws (Row.id target) w = (Ok (mkResponse 200 (SuccessEndpointBody e)), w')
    /\ CustomLlmEndpoint.id e = Row.id target
    /\ CustomLlmEndpoint.workspaceId e = ws
    /\ CustomLlmEndpoint.name e = Row.name target
    /\ CustomLlmEndpoint.baseUrl e
       = orKeep (UpdateCustomEndpointParams.baseUrl params) (Row.baseUrl target)
    /\ (forall r, In r (rows w) -> r <> target -> In r (rows w'))
    /\ List.length (rows w') = List.length (rows w).
Proof.
  intros (u & S & T & P) C I W B N Enc.
  set (w1 := addLogs w (resolutionLog sv target)).
  destruct (update_without_rename_succeeds sv (Row.id target) params w1 target
              C I eq_refl N Enc) as (e & w2 & U).
  exists e. eexists. split.
  - unfold PATCH. rewrite S, T, P. cbn [negb isAdmin]. apply tryCatch_ok.
    unfold bind at 1. rewrite getCustomEndpointById_run, (target_is_found _ _ C I).
    cbn [resolved withCredentials CustomLlmEndpointWithCredentials.workspaceId
         CustomLlmEndpointWithCredentials.name].
    rewrite W, String.eqb_refl. cbn [negb].
    unfold bind at 1, lift. rewrite B. cbv zeta. rewrite N.
    unfold bind at 1, ret at 1. cbn [negb].
    fold w1. rewrite <- N.
    replace (UpdateCustomEndpointParams.mk (UpdateCustomEndpointParams.name params)
               (UpdateCustomEndpointParams.baseUrl params)
               (UpdateCustomEndpointParams.apiKey params)
               (UpdateCustomEndpointParams.headers params))
      with params by now destruct params.
    unfold bind at 1. rewrite U. unfold bind, log, jsonOk, json, ret. reflexivity.
  - cbn [rows]. apply updateCustomEndpoint_inv in U.
    destruct U as (newKey & newHdr & n & old & rest & _ & _ & U). cbv zeta in U.
    destruct U as (R & _ & F & _ & E).
    change (rows w1) with (rows w) in R, F.
    rewrite (target_is_found _ _ C I) in F. injection F as <- <-.
    rewrite E, R. cbn. rewrite N. cbn [orKeep].
    repeat split; try assumption.
    + intros r IR NR. apply in_map_iff. exists r. split; [|exact IR].
      destruct (Row.id r =? Row.id target)%string eqn:X; [|reflexivity].
      apply String.eqb_eq in X. exfalso. apply NR.
      exact (same_id_same_row _ _ _ C IR I X).
    + apply length_map.
Qed.

Lemma patch_updates_the_endpoint_witness :
  exists e w',
    PATCH sampleServices moveContext "ws_1" "ep_2" sampleTable
    = (Ok (mkResponse 200 (SuccessEndpointBody e)), w')
    /\ CustomLlmEndpoint.name e = "alpha"
    /\ CustomLlmEndpoint.baseUrl e = "https://new:8000"
    /\ In damagedKeyRow (rows w') /\ In foreignRow (rows w').
Proof.
  destruct (patch_updates_the_endpoint sampleServices moveContext "ws_1" sampleTable
              (UpdateCustomEndpointParams.mk None (Some "https://new:8000") Null Omitted)
              secondRow)
    as (e & w' & R & _ & _ & N & U & K & _); try reflexivity.
  - exists "user_1". repeat split.
  - right. now left.
  - intros n plain. eexists. reflexivity.
  - exists e, w'. split; [exact R|]. split; [exact N|]. split; [exact U|]. split.
    + apply K; [now left | discriminate].
    + apply K; [right; right; now left | discriminate].
Defined.

(* ================================================================== *)
(** ** Dispatcher: structured output                                   *)
(* ================================================================== *)

Lemma withIsBYOK_keeps (r : ProviderRequest.t) (b : option bool) :
  ProviderRequest.responseFormat (withIsBYOK r b) = ProviderRequest.responseFormat r
  /\ ProviderRequest.systemPrompt (withIsBYOK r b) = ProviderRequest.systemPrompt r.
Proof. now destruct r. Qed.

Lemma applyResponseFormat_instructs (co : Collaborators) (r : ProviderRequest.t)
    (w : World) (rf : ResponseFormat) :
  ProviderRequest.responseFormat r = Some rf ->
  truthyFormat (Some rf) = true ->
  exists sent w2,
    applyResponseFormat co r w = (Ok sent, w2)
    /\ ProviderRequest.responseFormat sent = Some rf
    /\ ProviderRequest.systemPrompt sent
       = if JS.truthy (JS.trim (generateStructuredOutputInstructions co rf))
         then Some (JS.trim (JS.or_else (ProviderRequest.systemPrompt r) EmptyString
                             ++ JS.newline ++ JS.newline
                             ++ generateStructuredOutputInstructions co rf))
         else ProviderRequest.systemPrompt r.
Proof.
  intros F T. unfold applyResponseFormat. rewrite F, T.
  assert (E : isEmptyStringFormat rf = false).
  { destruct rf as [s|]; [|reflexivity]. cbn in T. now destruct s. }
  rewrite E. destruct (JS.truthy (JS.trim _)).
  - eexists _, _. unfold bind, log, ret. split; [reflexivity|].
    destruct r; cbn in *. now split.
  - exists r, w. now repeat split.
Qed.

Lemma applyResponseFormat_absent (co : Collaborators) (r : ProviderRequest.t) (w : World) :
  ProviderRequest.responseFormat r = None -> applyResponseFormat co r w = (Ok r, w).
Proof. intros F. unfold applyResponseFormat. now rewrite F. Qed.

(** X30.  The request the executor receives carries the response
    format of the caller when it is a schema or a non-empty string, and
    then its system prompt is the caller's prompt, two line feeds and the
    structured-output instructions, trimmed -- or the caller's prompt as
    it is when the instructions are blank; without a response format the
    prompt is handed over as it is.  No branch that resolves the
    credentials touches either field. *)
Theorem structured_output_instructions_reach_the_prompt
    (sv : Services) (co : Collaborators) (providerId : string)
    (request sent : ProviderRequest.t) (w : World) :
  let out := executeProviderRequest sv co providerId request w in
  calls (snd out) = calls w ++ [sent] ->
  (forall rf,
      ProviderRequest.responseFormat request = Some rf ->
      truthyFormat (Some rf) = true ->
      ProviderRequest.responseFormat sent = Some rf
      /\ ProviderRequest.systemPrompt sent
         = if JS.truthy (JS.trim (generateStructuredOutputInstructions co rf))
           then Some (JS.trim (JS.or_else (ProviderRequest.systemPrompt request) EmptyString
                               ++ JS.newline ++ JS.newline
                               ++ generateStructuredOutputInstructions co rf))
           else ProviderRequest.systemPrompt request)
  /\ (ProviderRequest.responseFormat request = None ->
      ProviderRequest.responseFormat sent = None
      /\ ProviderRequest.systemPrompt sent = ProviderRequest.systemPrompt request).
Proof.
  intros out H.
  destruct (dispatcher_shape_or_silent sv co providerId request w)
    as [S | (run & G)].
  { exfalso. fold out in S. rewrite S in H.
    apply (f_equal (@List.length _)) in H. rewrite List.length_app in H. cbn in H. lia. }
  destruct (resolveCredentials sv co providerId request (sanitizeRequest co request) w)
    as [res w1] eqn:R.
  pose proof (dispatch_shape sv co _ request run w w1 res G R) as D.
  cbv zeta in D. fold out in D.
  pose proof (resolveCredentials_calls _ _ _ _ _ _ _ _ R) as RC.
  destruct res as [[r b]|e].
  - destruct D as (sent' & w2 & A & D1 & _). rewrite D1 in H.
    apply app_inj_tail in H. destruct H as [_ ->].
    destruct (resolveCredentials_keeps _ _ _ _ _ _ _ _ _ R) as [K1 K2].
    destruct (sanitizeRequest_keeps co request) as [Z1 Z2].
    destruct (withIsBYOK_keeps r (Some b)) as [B1 B2].
    split.
    + intros rf F T.
      destruct (applyResponseFormat_instructs co (withIsBYOK r (Some b)) w1 rf)
        as (sent' & w2' & A' & X1 & X2); [congruence | exact T |].
      rewrite A in A'. injection A' as <- <-.
      split; [exact X1|]. rewrite X2. now rewrite B2, K2, Z2.
    + intros F. rewrite applyResponseFormat_absent in A by congruence.
      injection A as <- _. split; congruence.
  - exfalso. rewrite D in H. cbn [snd] in H. rewrite RC in H.
    apply (f_equal (@List.length _)) in H. rewrite List.length_app in H. cbn in H. lia.
Qed.

Lemma structured_output_instructions_reach_the_prompt_witness :
  exists sent,
    calls (snd (executeProviderRequest sampleServices sampleCollaborators "openai"
                  schemaRequest emptyWorld)) = [sent]
    /\ ProviderRequest.responseFormat sent = Some (FormatSchema "answer" "{}")
    /\ ProviderRequest.systemPrompt sent
       = Some ("Be brief." ++ JS.newline ++ JS.newline ++ "Respond with JSON.")%string.
Proof.
  eexists. split; [reflexivity|].
  apply (proj1 (structured_output_instructions_reach_the_prompt sampleServices
                  sampleCollaborators "openai" schemaRequest _ emptyWorld eq_refl)
           (FormatSchema "answer" "{}") eq_refl eq_refl).
Defined.
